(** * The batch conversion scheduler of the MarkItDown GUI

    A shallow embedding of [gui/core/batch_processor.py]: the task record,
    the statistics counters, the file filter and the [BatchProcessor]
    scheduler, together with the parts of the Python runtime the scheduler
    leans on (exceptions, [heapq] behind [queue.PriorityQueue], futures,
    [pathlib] paths).

    Conventions.
    - Python integers are [Z]; list positions are [nat].
    - A call that may raise returns [Py.result]; [Py.try_except] is a
      [try]/[except Exception] block.
    - Task objects are mutable and shared between the queue, the task table
      and the completion closures: they live in an object store and are
      referred to by their position in it.
    - Every method body, every completion callback and every timer body is
      one atomic step of the scheduler; the threads of the program are the
      interleavings of these steps.
    - Clock readings ([time.time()], [datetime.now()]) are inputs of the
      step that takes them, counted in microseconds. *)

From Stdlib Require Import ZArith QArith List Ascii String Lia Permutation Sorted.
From stdpp Require Import base option list gmap sets strings pretty.

Open Scope Z_scope.

(** ** Python exceptions *)

Module Py.

(** The exception classes that occur in the scheduler.  [CancelledError]
    is [asyncio.CancelledError], which derives from [BaseException];
    [FutureCancelledError] is [concurrent.futures.CancelledError]. *)
Inductive exn : Type :=
| NameError (name : string)
| ValueError (msg : string)
| TypeError (msg : string)
| OSError (msg : string)
| TimeoutError
| FutureCancelledError
| CancelledError
| Exception (msg : string).

Inductive result (A : Type) : Type :=
| Ok (a : A)
| Raise (e : exn).

Arguments Ok {A} a.
Arguments Raise {A} e.

Definition bind {A B : Type} (m : result A) (k : A -> result B) : result B :=
  match m with
  | Ok a => k a
  | Raise e => Raise e
  end.

(** [isinstance(e, Exception)] *)
Definition is_Exception (e : exn) : bool :=
  match e with
  | CancelledError => false
  | _ => true
  end.

(** [str(e)] *)
Definition str_exn (e : exn) : string :=
  match e with
  | NameError n => "name '" +:+ n +:+ "' is not defined"
  | ValueError m | TypeError m | OSError m | Exception m => m
  | TimeoutError | FutureCancelledError | CancelledError => ""
  end.

(** [try: body  except Exception: handler] *)
Definition try_except {A : Type} (body : result A) (handler : exn -> result A)
  : result A :=
  match body with
  | Ok a => Ok a
  | Raise e => if is_Exception e then handler e else Raise e
  end.

(** A value that is [None] when the underlying call raised. *)
Definition of_option {A : Type} (e : exn) (o : option A) : result A :=
  match o with
  | Some a => Ok a
  | None => Raise e
  end.

End Py.

#[global] Instance result_ret : MRet Py.result := @Py.Ok.
#[global] Instance result_bind : MBind Py.result := fun A B k m => Py.bind m k.

(** ** [heapq]: the binary heap behind [queue.PriorityQueue]

    [queue.PriorityQueue._put] is [heappush] and [_get] is [heappop] on a
    Python list.  The two sifting loops are written with a fuel that is
    never exhausted ([siftdown] moves towards the root, [siftup] towards
    the leaves). *)

Module heapq.
Section Heap.

Context {A : Type} (lt : A -> A -> bool).

(** The loop of [_siftdown(heap, startpos, pos)], [newitem] already read. *)
Fixpoint siftdown_loop (fuel : nat) (heap : list A) (startpos pos : nat)
    (newitem : A) : list A :=
  match fuel with
  | O => <[pos := newitem]> heap
  | S fuel' =>
      if (startpos <? pos)%nat then
        let parentpos := ((pos - 1) / 2)%nat in
        match heap !! parentpos with
        | Some parent =>
            if lt newitem parent
            then siftdown_loop fuel' (<[pos := parent]> heap) startpos parentpos newitem
            else <[pos := newitem]> heap
        | None => heap
        end
      else <[pos := newitem]> heap
  end.

Definition siftdown (heap : list A) (startpos pos : nat) : list A :=
  match heap !! pos with
  | Some newitem => siftdown_loop pos heap startpos pos newitem
  | None => heap
  end.

(** The smaller child of [pos]: the right one unless the left one is
    strictly smaller. *)
Definition smaller_child (heap : list A) (childpos : nat) : nat :=
  let rightpos := (childpos + 1)%nat in
  match heap !! childpos, heap !! rightpos with
  | Some l, Some r => if negb (lt l r) then rightpos else childpos
  | _, _ => childpos
  end.

(** The loop of [_siftup(heap, pos)]: children are moved up until a leaf
    is reached; the result is the heap and the position of the leaf. *)
Fixpoint siftup_loop (fuel : nat) (heap : list A) (pos : nat) : list A * nat :=
  match fuel with
  | O => (heap, pos)
  | S fuel' =>
      let childpos := (2 * pos + 1)%nat in
      if (childpos <? length heap)%nat then
        let c := smaller_child heap childpos in
        match heap !! c with
        | Some child => siftup_loop fuel' (<[pos := child]> heap) c
        | None => (heap, pos)
        end
      else (heap, pos)
  end.

Definition siftup (heap : list A) (pos : nat) : list A :=
  match heap !! pos with
  | Some newitem =>
      let '(heap', leaf) := siftup_loop (length heap) heap pos in
      siftdown (<[leaf := newitem]> heap') pos leaf
  | None => heap
  end.

Definition heappush (heap : list A) (item : A) : list A :=
  let heap' := heap ++ [item] in
  siftdown heap' 0 (length heap' - 1).

(** [heappop]; [None] is the [IndexError] of popping an empty list. *)
Definition heappop (heap : list A) : option (A * list A) :=
  match last heap with
  | None => None
  | Some lastelt =>
      let heap' := removelast heap in
      match heap' with
      | [] => Some (lastelt, [])
      | returnitem :: _ => Some (returnitem, siftup (<[0%nat := lastelt]> heap') 0)
      end
  end.

End Heap.
End heapq.

(** ** [queue.PriorityQueue] *)

Module PriorityQueue.
Section Queue.

Context {A : Type} (lt : A -> A -> bool).

Definition empty (q : list A) : bool :=
  match q with [] => true | _ => false end.

Definition put (q : list A) (item : A) : list A := heapq.heappush lt q item.

(** [get_nowait] and [get(timeout=...)] on a queue nobody else fills in
    the meantime: [None] is [queue.Empty]. *)
Definition get (q : list A) : option (A * list A) := heapq.heappop lt q.

(** Put all the items, in the order of the list. *)
Definition put_all (q : list A) (items : list A) : list A :=
  fold_left put items q.

(** Get until the queue is empty; the items in the order they come out. *)
Fixpoint drain (fuel : nat) (q : list A) : list A :=
  match fuel with
  | O => []
  | S fuel' =>
      match get q with
      | Some (x, q') => x :: drain fuel' q'
      | None => []
      end
  end.

Definition get_all (q : list A) : list A := drain (length q) q.

End Queue.
End PriorityQueue.

(** ** Strings and Python truthiness *)

Definition lower_ascii (c : ascii) : ascii :=
  let n := nat_of_ascii c in
  if ((65 <=? n) && (n <=? 90))%nat then ascii_of_nat (n + 32) else c.

(** [str.lower] on ASCII text *)
Fixpoint lower (s : string) : string :=
  match s with
  | EmptyString => EmptyString
  | String c s' => String (lower_ascii c) (lower s')
  end.

(** [s.rfind(c)], counted from position [i] of the whole string; [None]
    is Python's [-1]. *)
Fixpoint rfind_from (c : ascii) (s : string) (i : nat) : option nat :=
  match s with
  | EmptyString => None
  | String a s' =>
      match rfind_from c s' (S i) with
      | Some j => Some j
      | None => if Ascii.eqb a c then Some i else None
      end
  end.

Definition rfind (c : ascii) (s : string) : option nat := rfind_from c s 0.

Definition truthy_int (o : option Z) : bool :=
  match o with Some n => negb (n =? 0) | None => false end.

Definition truthy_str (o : option string) : bool :=
  match o with Some s => negb (String.eqb s "") | None => false end.

Definition truthy_list {A : Type} (o : option (list A)) : bool :=
  match o with Some (_ :: _) => true | _ => false end.

(** ** [pathlib]: pure paths with a POSIX flavour, components already
    normalised *)

Record Path : Type := mkPath { absolute : bool; parts : list string }.

#[global] Instance Path_eq_dec : EqDecision Path.
Proof. solve_decision. Defined.

Module pathlib.

(** [PurePath.name] *)
Definition name (p : Path) : string := default ""%string (last (parts p)).

(** The position of the dot that starts the suffix of a name, if any:
    [0 < i < len(name) - 1] for [i = name.rfind('.')]. *)
Definition suffix_pos (n : string) : option nat :=
  match rfind "." n with
  | Some i => if ((0 <? i) && (i <? String.length n - 1))%nat then Some i else None
  | None => None
  end.

(** [PurePath.suffix] *)
Definition suffix (p : Path) : string :=
  let n := name p in
  match suffix_pos n with
  | Some i => substring i (String.length n - i) n
  | None => ""
  end.

(** [PurePath.stem] *)
Definition stem (p : Path) : string :=
  let n := name p in
  match suffix_pos n with
  | Some i => substring 0 i n
  | None => n
  end.

(** [PurePath.with_suffix(suffix)] for a suffix that is valid (it starts
    with a dot and holds no separator): only the empty name is refused. *)
Definition with_suffix (p : Path) (sfx : string) : Py.result Path :=
  if String.eqb (name p) "" then Py.Raise (Py.ValueError "path has an empty name")
  else Py.Ok (mkPath (absolute p) (removelast (parts p) ++ [stem p +:+ sfx])).

(** [p / n] for one relative component [n] *)
Definition joinpath (p : Path) (n : string) : Path :=
  mkPath (absolute p) (parts p ++ [n]).

(** [str(p)] *)
Definition str (p : Path) : string :=
  match parts p with
  | [] => if absolute p then "/" else "."
  | c :: cs =>
      (if absolute p then "/" else "") +:+ fold_left (fun acc x => acc +:+ "/" +:+ x) cs c
  end%string.

(** [PurePath.parents]: the proper ancestors, nearest first *)
Fixpoint prefixes (l : list string) : list (list string) :=
  match l with
  | [] => []
  | x :: l' => [] :: map (cons x) (prefixes l')
  end.

Definition parents (p : Path) : list Path :=
  map (mkPath (absolute p)) (rev (prefixes (parts p))).

End pathlib.

(** ** The world outside the scheduler

    What the operating system and the libraries answer.  A call of the
    file system answers [None] when it raises (an [OSError], or the
    [OverflowError] of a time stamp out of range): [fs_size] is
    [path.stat().st_size], [fs_mtime] is
    [datetime.fromtimestamp(path.stat().st_mtime)], [fs_read] is the
    content read by [open(path, "rb")], [fs_resolve] is [path.resolve()].
    [md5_hexdigest] is [hashlib.md5(b).hexdigest()] and [re_search] is
    [re.compile(pattern).search(text) is not None]. *)

Record Env : Type := mkEnv {
  fs_exists : Path -> bool;
  fs_read : Path -> option (list Byte.byte);
  fs_size : Path -> option Z;
  fs_mtime : Path -> option Z;
  fs_resolve : Path -> option Path;
  md5_hexdigest : list Byte.byte -> string;
  re_search : string -> string -> bool
}.

(** The call behind an answer of the file system *)
Definition os_call {A : Type} (answer : option A) : Py.result A :=
  Py.of_option (Py.OSError "") answer.

(** [f.read(n)]: at most the first [n] bytes *)
Fixpoint read_prefix (n : N) (content : list Byte.byte) : list Byte.byte :=
  match content with
  | [] => []
  | b :: rest => if (n =? 0)%N then [] else b :: read_prefix (N.pred n) rest
  end.

(** ** Enumerations *)

Inductive TaskPriority : Type := LOW | NORMAL | HIGH | URGENT.

Definition priority_value (p : TaskPriority) : Z :=
  match p with LOW => 0 | NORMAL => 1 | HIGH => 2 | URGENT => 3 end.

Inductive TaskStatus : Type :=
  PENDING | QUEUED | PROCESSING | COMPLETED | FAILED | CANCELLED | RETRYING.

#[global] Instance TaskPriority_eq_dec : EqDecision TaskPriority.
Proof. solve_decision. Defined.

#[global] Instance TaskStatus_eq_dec : EqDecision TaskStatus.
Proof. solve_decision. Defined.

(** The conversion events of [gui.core.events.EventType] *)
Inductive EventType : Type :=
| CONVERSION_STARTED
| CONVERSION_PROGRESS
| CONVERSION_COMPLETED
| CONVERSION_FAILED
| CONVERSION_CANCELLED.

#[global] Instance EventType_eq_dec : EqDecision EventType.
Proof. solve_decision. Defined.

Record Event : Type := mkEvent {
  event_type : EventType;
  data : list (string * option string);
  source : option string
}.

(** ** [BatchTask] *)

Module BatchTask.

Record t : Type := mk {
  task_id : string;
  input_file : Path;
  output_file : option Path;
  priority : TaskPriority;
  status : TaskStatus;
  retry_count : Z;
  max_retries : Z;
  created_at : Z;
  started_at : option Z;
  completed_at : option Z;
  error_message : option string;
  result_text : option string;
  file_hash : option string
}.

Definition set_status (s : TaskStatus) (x : t) : t :=
  mk (task_id x) (input_file x) (output_file x) (priority x) s (retry_count x)
     (max_retries x) (created_at x) (started_at x) (completed_at x)
     (error_message x) (result_text x) (file_hash x).

Definition set_retry_count (n : Z) (x : t) : t :=
  mk (task_id x) (input_file x) (output_file x) (priority x) (status x) n
     (max_retries x) (created_at x) (started_at x) (completed_at x)
     (error_message x) (result_text x) (file_hash x).

Definition set_started_at (d : option Z) (x : t) : t :=
  mk (task_id x) (input_file x) (output_file x) (priority x) (status x) (retry_count x)
     (max_retries x) (created_at x) d (completed_at x)
     (error_message x) (result_text x) (file_hash x).

Definition set_completed_at (d : option Z) (x : t) : t :=
  mk (task_id x) (input_file x) (output_file x) (priority x) (status x) (retry_count x)
     (max_retries x) (created_at x) (started_at x) d
     (error_message x) (result_text x) (file_hash x).

Definition set_error_message (m : option string) (x : t) : t :=
  mk (task_id x) (input_file x) (output_file x) (priority x) (status x) (retry_count x)
     (max_retries x) (created_at x) (started_at x) (completed_at x)
     m (result_text x) (file_hash x).

Definition set_result_text (m : option string) (x : t) : t :=
  mk (task_id x) (input_file x) (output_file x) (priority x) (status x) (retry_count x)
     (max_retries x) (created_at x) (started_at x) (completed_at x)
     (error_message x) m (file_hash x).

Definition set_file_hash (h : option string) (x : t) : t :=
  mk (task_id x) (input_file x) (output_file x) (priority x) (status x) (retry_count x)
     (max_retries x) (created_at x) (started_at x) (completed_at x)
     (error_message x) (result_text x) h.

(** The default factory of [task_id]:
    [f"task_{int(time.time() * 1000)}"], the clock read in microseconds. *)
Definition default_task_id (time_time : Z) : string :=
  "task_" +:+ pretty (time_time `quot` 1000).

(** [__post_init__]: the fingerprint of the first MiB of the file; an
    error while reading is logged and leaves [file_hash] at [None]. *)
Definition post_init (env : Env) (x : t) : t :=
  if fs_exists env (input_file x) then
    match Py.try_except
            (content ← os_call (fs_read env (input_file x));
             mret (set_file_hash
                     (Some (md5_hexdigest env (read_prefix (1024 * 1024) content))) x))
            (fun _ => mret x) with
    | Py.Ok x' => x'
    | Py.Raise _ => x
    end
  else x.

(** [BatchTask(input_file=..., output_file=..., priority=...,
    max_retries=...)]: the other fields take their defaults, the two
    default factories read the clock. *)
Definition new (env : Env) (time_time datetime_now : Z)
    (input : Path) (output : option Path) (prio : TaskPriority) (retries : Z) : t :=
  post_init env
    (mk (default_task_id time_time) input output prio PENDING 0 retries
        datetime_now None None None None None).

(** [__lt__] *)
Definition lt (self other : t) : bool :=
  if negb (priority_value (priority self) =? priority_value (priority other))
  then priority_value (priority self) >? priority_value (priority other)
  else created_at self <? created_at other.

End BatchTask.

(** ** [BatchStatistics] *)

Module BatchStatistics.

Record t : Type := mk {
  total_tasks : Z;
  completed_tasks : Z;
  failed_tasks : Z;
  cancelled_tasks : Z;
  retry_count : Z;
  total_files_size : Z;
  processed_size : Z;
  start_time : option Z;
  end_time : option Z;
  tasks_by_status : TaskStatus -> Z
}.

Definition init : t := mk 0 0 0 0 0 0 0 None None (fun _ => 0).

Definition set_total_tasks (n : Z) (s : t) : t :=
  mk n (completed_tasks s) (failed_tasks s) (cancelled_tasks s) (retry_count s)
     (total_files_size s) (processed_size s) (start_time s) (end_time s)
     (tasks_by_status s).

Definition set_completed_tasks (n : Z) (s : t) : t :=
  mk (total_tasks s) n (failed_tasks s) (cancelled_tasks s) (retry_count s)
     (total_files_size s) (processed_size s) (start_time s) (end_time s)
     (tasks_by_status s).

Definition set_failed_tasks (n : Z) (s : t) : t :=
  mk (total_tasks s) (completed_tasks s) n (cancelled_tasks s) (retry_count s)
     (total_files_size s) (processed_size s) (start_time s) (end_time s)
     (tasks_by_status s).

Definition set_cancelled_tasks (n : Z) (s : t) : t :=
  mk (total_tasks s) (completed_tasks s) (failed_tasks s) n (retry_count s)
     (total_files_size s) (processed_size s) (start_time s) (end_time s)
     (tasks_by_status s).

Definition set_retry_count (n : Z) (s : t) : t :=
  mk (total_tasks s) (completed_tasks s) (failed_tasks s) (cancelled_tasks s) n
     (total_files_size s) (processed_size s) (start_time s) (end_time s)
     (tasks_by_status s).

Definition set_start_time (d : option Z) (s : t) : t :=
  mk (total_tasks s) (completed_tasks s) (failed_tasks s) (cancelled_tasks s)
     (retry_count s) (total_files_size s) (processed_size s) d (end_time s)
     (tasks_by_status s).

Definition set_end_time (d : option Z) (s : t) : t :=
  mk (total_tasks s) (completed_tasks s) (failed_tasks s) (cancelled_tasks s)
     (retry_count s) (total_files_size s) (processed_size s) (start_time s) d
     (tasks_by_status s).

(** [tasks_by_status[k] = f(tasks_by_status[k])] *)
Definition update_status (k : TaskStatus) (f : Z -> Z) (s : t) : t :=
  mk (total_tasks s) (completed_tasks s) (failed_tasks s) (cancelled_tasks s)
     (retry_count s) (total_files_size s) (processed_size s) (start_time s)
     (end_time s)
     (fun k' => if decide (k' = k) then f (tasks_by_status s k') else tasks_by_status s k').

(** The property [success_rate], a float in the source, as a rational *)
Definition success_rate (s : t) : Q :=
  if total_tasks s =? 0 then 0%Q
  else (inject_Z (completed_tasks s) / inject_Z (total_tasks s) * 100)%Q.

Definition progress_percentage (s : t) : Q :=
  if total_tasks s =? 0 then 0%Q
  else (inject_Z (completed_tasks s) / inject_Z (total_tasks s) * 100)%Q.

End BatchStatistics.

(** ** [FileFilter] *)

Module FileFilter.

Record t : Type := mk {
  extensions : option (list string);
  min_size : option Z;
  max_size : option Z;
  min_date : option Z;
  max_date : option Z;
  name_pattern : option string;
  exclude_paths : list Path;
  exclude_patterns : list string
}.

(** [__init__]: an empty or missing name pattern is no pattern, missing
    exclusion lists are empty. *)
Definition init (extensions : option (list string)) (min_size max_size : option Z)
    (min_date max_date : option Z) (name_pattern : option string)
    (exclude_paths : option (list Path)) (exclude_patterns : option (list string)) : t :=
  mk extensions min_size max_size min_date max_date
     (if truthy_str name_pattern then name_pattern else None)
     (default [] exclude_paths)
     (default [] exclude_patterns).

Definition set_min_size (v : option Z) (f : t) : t :=
  mk (extensions f) v (max_size f) (min_date f) (max_date f) (name_pattern f)
     (exclude_paths f) (exclude_patterns f).

Definition set_max_size (v : option Z) (f : t) : t :=
  mk (extensions f) (min_size f) v (min_date f) (max_date f) (name_pattern f)
     (exclude_paths f) (exclude_patterns f).

(** A block of [matches] either returns from the function ([Some b]) or
    falls through to the next block ([None]). *)
Definition block : Type := Py.result (option bool).

Definition then_block (b : block) (k : Py.result bool) : Py.result bool :=
  r ← b; match r with Some v => mret v | None => k end.

Definition return_False : block := mret (Some false).
Definition fall_through : block := mret None.

(** [# Check extension] *)
Definition check_extension (f : t) (file_path : Path) : block :=
  if truthy_list (extensions f) then
    if bool_decide (lower (pathlib.suffix file_path)
                    ∈ map lower (default [] (extensions f)))
    then fall_through else return_False
  else fall_through.

(** [# Check size] *)
Definition check_size (env : Env) (f : t) (file_path : Path) : block :=
  Py.try_except
    (file_size ← os_call (fs_size env file_path);
     if truthy_int (min_size f) && (file_size <? default 0 (min_size f))
     then return_False
     else if truthy_int (max_size f) && (file_size >? default 0 (max_size f))
     then return_False
     else fall_through)
    (fun _ => return_False).

(** [# Check modification date]; [datetime] objects are always true, so
    a bound is used exactly when it is not [None]. *)
Definition check_date (env : Env) (f : t) (file_path : Path) : block :=
  Py.try_except
    (mod_time ← os_call (fs_mtime env file_path);
     if match min_date f with Some d => mod_time <? d | None => false end
     then return_False
     else if match max_date f with Some d => mod_time >? d | None => false end
     then return_False
     else fall_through)
    (fun _ => return_False).

(** [# Check name pattern] *)
Definition check_name (env : Env) (f : t) (file_path : Path) : block :=
  match name_pattern f with
  | Some pat =>
      if negb (re_search env pat (pathlib.name file_path))
      then return_False else fall_through
  | None => fall_through
  end.

(** [# Check exclude paths]: an error while resolving skips the entry. *)
Fixpoint check_exclude_paths (env : Env) (excl : list Path) (file_path : Path) : block :=
  match excl with
  | [] => fall_through
  | exclude_path :: rest =>
      r ← Py.try_except
            (e ← os_call (fs_resolve env exclude_path);
             p ← os_call (fs_resolve env file_path);
             if bool_decide (e ∈ pathlib.parents p) then return_False
             else
               p' ← os_call (fs_resolve env file_path);
               e' ← os_call (fs_resolve env exclude_path);
               if bool_decide (p' = e') then return_False else fall_through)
            (fun _ => fall_through);
      match r with
      | Some v => mret (Some v)
      | None => check_exclude_paths env rest file_path
      end
  end.

(** [# Check exclude patterns] *)
Fixpoint check_exclude_patterns (env : Env) (pats : list string) (file_str : string)
  : block :=
  match pats with
  | [] => fall_through
  | pat :: rest =>
      if re_search env pat file_str then return_False
      else check_exclude_patterns env rest file_str
  end.

Definition matches (env : Env) (f : t) (file_path : Path) : Py.result bool :=
  then_block (check_extension f file_path)
  (then_block (check_size env f file_path)
  (then_block (check_date env f file_path)
  (then_block (check_name env f file_path)
  (then_block (check_exclude_paths env (exclude_paths f) file_path)
  (then_block (check_exclude_patterns env (exclude_patterns f) (pathlib.str file_path))
  (mret true)))))).

(** [[fp for fp in file_paths if self.matches(fp)]] *)
Fixpoint filter_files (env : Env) (f : t) (file_paths : list Path)
  : Py.result (list Path) :=
  match file_paths with
  | [] => mret []
  | fp :: rest =>
      b ← matches env f fp;
      tl ← filter_files env f rest;
      mret (if b : bool then fp :: tl else tl)
  end.

End FileFilter.

(** ** Results of a unit of work, futures and background threads *)

Module ResultDict.

Record t : Type := mk {
  success : bool;
  result_text : option string;
  error : option string
}.

Definition cancelled : t := mk false None (Some "Task cancelled"%string).
Definition ok (text : string) : t := mk true (Some text) None.
Definition failure (e : Py.exn) : t := mk false None (Some (Py.str_exn e)).

End ResultDict.

(** What a conversion callback returns: a mapping, an object with a
    [text_content] attribute, or any other value (of which [str] is taken). *)
Inductive ConvValue : Type :=
| ConvDict (text_content : option string)
| ConvObject (text_content : string)
| ConvOther (str_value : string).

Definition result_text_of (v : ConvValue) : string :=
  match v with
  | ConvDict o => default ""%string o
  | ConvObject s => s
  | ConvOther s => s
  end.

Module Future.

Inductive state : Type :=
| Pending
| Running
| Cancelled
| Finished (outcome : Py.result ResultDict.t).

Inductive work : Type := SyncWork | CpuWork | AsyncWork.

Record t : Type := mk { st : state; task : nat; kind : work }.

Definition done (f : t) : bool :=
  match st f with
  | Cancelled | Finished _ => true
  | Pending | Running => false
  end.

(** [cancel()] succeeds on a future that has not started. *)
Definition cancel (f : t) : t :=
  match st f with
  | Pending => mk Cancelled (task f) (kind f)
  | _ => f
  end.

(** [result(timeout)] after having waited [waited] seconds: [None] while
    the caller is still blocked.  [cancelled_error] is the class raised
    for a cancelled future. *)
Definition result (cancelled_error : Py.exn) (f : t) (timeout : option Z) (waited : Z)
  : option (Py.result ResultDict.t) :=
  match st f with
  | Cancelled => Some (Py.Raise cancelled_error)
  | Finished o => Some o
  | Pending | Running =>
      match timeout with
      | Some limit => if waited >=? limit then Some (Py.Raise Py.TimeoutError) else None
      | None => None
      end
  end.

End Future.

(** The closures running beside the dispatch loop: the thread that
    monitors a pool future, the done-callback of an event-loop future, and
    the timer thread that puts a task back after its backoff delay. *)
Inductive Thread : Type :=
| Monitor (task fut : nat)
| DoneCallback (task fut : nat)
| Requeue (task : nat) (delay : Z).

#[global] Instance Thread_eq_dec : EqDecision Thread.
Proof. solve_decision. Defined.

(** ** [BatchProcessor] *)

Module BatchProcessor.

(** The attributes of the processor ([has_conversion_func] and
    [use_async] say which callback is not [None]; [executor] and
    [async_loop] say whether the pool and the loop exist), followed by
    the object store of the tasks, the futures, the events emitted so far
    on the event bus and the background threads not yet run. *)
Record t : Type := mk {
  max_workers : Z;
  use_processes : bool;
  has_conversion_func : bool;
  use_async : bool;
  task_queue : list nat;
  executor : bool;
  futures : gmap string nat;
  async_tasks : gmap string nat;
  is_paused : bool;
  is_cancelled : bool;
  pause_event : bool;
  tasks : gmap string nat;
  statistics : BatchStatistics.t;
  duplicate_hashes : gset string;
  async_loop : bool;
  running : bool;
  objects : list BatchTask.t;
  future_objects : list Future.t;
  event_bus : list Event;
  threads : list Thread
}.

Definition set_task_queue (v : list nat) (s : t) : t :=
  mk (max_workers s) (use_processes s) (has_conversion_func s) (use_async s) v
    (executor s) (futures s) (async_tasks s) (is_paused s) (is_cancelled s)
    (pause_event s) (tasks s) (statistics s) (duplicate_hashes s) (async_loop s)
    (running s) (objects s) (future_objects s) (event_bus s) (threads s).

Definition set_executor (v : bool) (s : t) : t :=
  mk (max_workers s) (use_processes s) (has_conversion_func s) (use_async s)
    (task_queue s) v (futures s) (async_tasks s) (is_paused s) (is_cancelled s)
    (pause_event s) (tasks s) (statistics s) (duplicate_hashes s) (async_loop s)
    (running s) (objects s) (future_objects s) (event_bus s) (threads s).

Definition set_futures (v : gmap string nat) (s : t) : t :=
  mk (max_workers s) (use_processes s) (has_conversion_func s) (use_async s)
    (task_queue s) (executor s) v (async_tasks s) (is_paused s) (is_cancelled s)
    (pause_event s) (tasks s) (statistics s) (duplicate_hashes s) (async_loop s)
    (running s) (objects s) (future_objects s) (event_bus s) (threads s).

Definition set_async_tasks (v : gmap string nat) (s : t) : t :=
  mk (max_workers s) (use_processes s) (has_conversion_func s) (use_async s)
    (task_queue s) (executor s) (futures s) v (is_paused s) (is_cancelled s)
    (pause_event s) (tasks s) (statistics s) (duplicate_hashes s) (async_loop s)
    (running s) (objects s) (future_objects s) (event_bus s) (threads s).

Definition set_is_paused (v : bool) (s : t) : t :=
  mk (max_workers s) (use_processes s) (has_conversion_func s) (use_async s)
    (task_queue s) (executor s) (futures s) (async_tasks s) v (is_cancelled s)
    (pause_event s) (tasks s) (statistics s) (duplicate_hashes s) (async_loop s)
    (running s) (objects s) (future_objects s) (event_bus s) (threads s).

Definition set_is_cancelled (v : bool) (s : t) : t :=
  mk (max_workers s) (use_processes s) (has_conversion_func s) (use_async s)
    (task_queue s) (executor s) (futures s) (async_tasks s) (is_paused s) v
    (pause_event s) (tasks s) (statistics s) (duplicate_hashes s) (async_loop s)
    (running s) (objects s) (future_objects s) (event_bus s) (threads s).

Definition set_pause_event (v : bool) (s : t) : t :=
  mk (max_workers s) (use_processes s) (has_conversion_func s) (use_async s)
    (task_queue s) (executor s) (futures s) (async_tasks s) (is_paused s)
    (is_cancelled s) v (tasks s) (statistics s) (duplicate_hashes s) (async_loop s)
    (running s) (objects s) (future_objects s) (event_bus s) (threads s).

Definition set_tasks (v : gmap string nat) (s : t) : t :=
  mk (max_workers s) (use_processes s) (has_conversion_func s) (use_async s)
    (task_queue s) (executor s) (futures s) (async_tasks s) (is_paused s)
    (is_cancelled s) (pause_event s) v (statistics s) (duplicate_hashes s)
    (async_loop s) (running s) (objects s) (future_objects s) (event_bus s) (threads s).

Definition set_statistics (v : BatchStatistics.t) (s : t) : t :=
  mk (max_workers s) (use_processes s) (has_conversion_func s) (use_async s)
    (task_queue s) (executor s) (futures s) (async_tasks s) (is_paused s)
    (is_cancelled s) (pause_event s) (tasks s) v (duplicate_hashes s) (async_loop s)
    (running s) (objects s) (future_objects s) (event_bus s) (threads s).

Definition set_duplicate_hashes (v : gset string) (s : t) : t :=
  mk (max_workers s) (use_processes s) (has_conversion_func s) (use_async s)
    (task_queue s) (executor s) (futures s) (async_tasks s) (is_paused s)
    (is_cancelled s) (pause_event s) (tasks s) (statistics s) v (async_loop s)
    (running s) (objects s) (future_objects s) (event_bus s) (threads s).

Definition set_async_loop (v : bool) (s : t) : t :=
  mk (max_workers s) (use_processes s) (has_conversion_func s) (use_async s)
    (task_queue s) (executor s) (futures s) (async_tasks s) (is_paused s)
    (is_cancelled s) (pause_event s) (tasks s) (statistics s) (duplicate_hashes s) v
    (running s) (objects s) (future_objects s) (event_bus s) (threads s).

Definition set_running (v : bool) (s : t) : t :=
  mk (max_workers s) (use_processes s) (has_conversion_func s) (use_async s)
    (task_queue s) (executor s) (futures s) (async_tasks s) (is_paused s)
    (is_cancelled s) (pause_event s) (tasks s) (statistics s) (duplicate_hashes s)
    (async_loop s) v (objects s) (future_objects s) (event_bus s) (threads s).

Definition set_objects (v : list BatchTask.t) (s : t) : t :=
  mk (max_workers s) (use_processes s) (has_conversion_func s) (use_async s)
    (task_queue s) (executor s) (futures s) (async_tasks s) (is_paused s)
    (is_cancelled s) (pause_event s) (tasks s) (statistics s) (duplicate_hashes s)
    (async_loop s) (running s) v (future_objects s) (event_bus s) (threads s).

Definition set_future_objects (v : list Future.t) (s : t) : t :=
  mk (max_workers s) (use_processes s) (has_conversion_func s) (use_async s)
    (task_queue s) (executor s) (futures s) (async_tasks s) (is_paused s)
    (is_cancelled s) (pause_event s) (tasks s) (statistics s) (duplicate_hashes s)
    (async_loop s) (running s) (objects s) v (event_bus s) (threads s).

Definition set_event_bus (v : list Event) (s : t) : t :=
  mk (max_workers s) (use_processes s) (has_conversion_func s) (use_async s)
    (task_queue s) (executor s) (futures s) (async_tasks s) (is_paused s)
    (is_cancelled s) (pause_event s) (tasks s) (statistics s) (duplicate_hashes s)
    (async_loop s) (running s) (objects s) (future_objects s) v (threads s).

Definition set_threads (v : list Thread) (s : t) : t :=
  mk (max_workers s) (use_processes s) (has_conversion_func s) (use_async s)
    (task_queue s) (executor s) (futures s) (async_tasks s) (is_paused s)
    (is_cancelled s) (pause_event s) (tasks s) (statistics s) (duplicate_hashes s)
    (async_loop s) (running s) (objects s) (future_objects s) (event_bus s) v.

Definition init (max_workers : Z) (use_processes has_conversion_func use_async : bool) : t :=
  mk max_workers use_processes has_conversion_func use_async
     [] false ∅ ∅ false false true ∅ BatchStatistics.init ∅ false false
     [] [] [] [].

(** *** Helpers for the mutations of the source *)

(** [a < b] on two task objects of the store *)
Definition lt_ref (objs : list BatchTask.t) (a b : nat) : bool :=
  match objs !! a, objs !! b with
  | Some x, Some y => BatchTask.lt x y
  | _, _ => false
  end.

Definition update_task (r : nat) (f : BatchTask.t -> BatchTask.t) (s : t) : t :=
  set_objects (alter f r (objects s)) s.

Definition update_statistics (f : BatchStatistics.t -> BatchStatistics.t) (s : t) : t :=
  set_statistics (f (statistics s)) s.

(** [self.event_bus.emit(Event(ty, data, source="BatchProcessor"))] *)
Definition emit (ty : EventType) (d : list (string * option string)) (s : t) : t :=
  set_event_bus (event_bus s ++ [mkEvent ty d (Some "BatchProcessor"%string)]) s.

Definition task_id_of (s : t) (r : nat) : string :=
  default ""%string (BatchTask.task_id <$> objects s !! r).

Definition status_of (s : t) (r : nat) : option TaskStatus :=
  BatchTask.status <$> objects s !! r.

(** [task.status = TaskStatus.CANCELLED; self.statistics.cancelled_tasks += 1] *)
Definition mark_cancelled (r : nat) (s : t) : t :=
  update_statistics
    (fun st => BatchStatistics.set_cancelled_tasks (BatchStatistics.cancelled_tasks st + 1) st)
    (update_task r (BatchTask.set_status CANCELLED) s).

(** [tasks_by_status[PROCESSING] = max(0, tasks_by_status[PROCESSING] - 1)] *)
Definition processing_floor (s : t) : t :=
  update_statistics (BatchStatistics.update_status PROCESSING (fun n => Z.max 0 (n - 1))) s.

Fixpoint remove_first (th : Thread) (l : list Thread) : list Thread :=
  match l with
  | [] => []
  | x :: l' => if decide (x = th) then l' else x :: remove_first th l'
  end.

(** A background thread that has run is gone. *)
Definition remove_thread (th : Thread) (s : t) : t :=
  set_threads (remove_first th (threads s)) s.

(** *** [add_task] *)

Definition add_task (env : Env) (time_time datetime_now : Z)
    (input_file : Path) (output_file : option Path)
    (priority : TaskPriority) (max_retries : Z) (self : t) : t * nat :=
  let task := BatchTask.new env time_time datetime_now
                input_file output_file priority max_retries in
  let r := length (objects self) in
  let self := set_objects (objects self ++ [task]) self in
  let h := default ""%string (BatchTask.file_hash task) in
  (* Check for duplicates *)
  if truthy_str (BatchTask.file_hash task) && bool_decide (h ∈ duplicate_hashes self)
  then
    let self := update_task r (BatchTask.set_status CANCELLED) self in
    let self := update_task r (BatchTask.set_error_message (Some "Duplicate file"%string)) self in
    let self := update_statistics
                  (fun st => BatchStatistics.set_cancelled_tasks
                               (BatchStatistics.cancelled_tasks st + 1) st) self in
    (self, r)
  else
    let self := set_tasks (<[BatchTask.task_id task := r]> (tasks self)) self in
    let self := set_task_queue
                  (PriorityQueue.put (lt_ref (objects self)) (task_queue self) r) self in
    let self := if truthy_str (BatchTask.file_hash task)
                then set_duplicate_hashes ({[h]} ∪ duplicate_hashes self) self
                else self in
    let self := update_statistics
                  (fun st => BatchStatistics.set_total_tasks
                               (BatchStatistics.total_tasks st + 1) st) self in
    let self := update_statistics
                  (BatchStatistics.update_status QUEUED (fun n => n + 1)) self in
    let self := update_task r (BatchTask.set_status QUEUED) self in
    let self := emit CONVERSION_STARTED
                  [("task_id", Some (BatchTask.task_id task));
                   ("input_file", Some (pathlib.str input_file))]%string self in
    (self, r).

(** *** [add_files]

    The names the body of [add_files] can read: its parameters and the
    variables it assigns, then the names bound at the top level of the
    module.  None of the module's globals is an integer. *)

Definition add_files_locals : list string :=
  ["self"; "file_paths"; "output_dir"; "file_filter"; "priority";
   "tasks"; "file_path"; "output_file"; "task"]%string.

Definition module_globals : list string :=
  ["asyncio"; "logging"; "time"; "hashlib"; "Path"; "List"; "Dict"; "Optional";
   "Callable"; "Any"; "Set"; "Awaitable"; "dataclass"; "field"; "Enum";
   "datetime"; "timedelta"; "ThreadPoolExecutor"; "ProcessPoolExecutor";
   "Future"; "as_completed"; "queue"; "threading"; "re"; "multiprocessing";
   "partial"; "Event"; "EventType"; "EventBus"; "ConversionState";
   "ConversionStatus"; "logger"; "TaskPriority"; "TaskStatus"; "BatchTask";
   "BatchStatistics"; "FileFilter"; "BatchProcessor"]%string.

(** Reading a name that the function does not bind as an integer: a
    module global if there is one of that name (never an integer here),
    otherwise [NameError]. *)
Definition load_int (locals : list (string * Z)) (name : string) : Py.result Z :=
  match list_find (fun kv => kv.1 = name) locals with
  | Some (_, kv) => Py.Ok kv.2
  | None =>
      if bool_decide (name ∈ add_files_locals ++ module_globals)
      then Py.Raise (Py.TypeError ("'" +:+ name +:+ "' is not an integer"))
      else Py.Raise (Py.NameError name)
  end.

(** The loop of [add_files]; [clock i] is the pair of clock readings
    taken when the [i]-th task is created. *)
Fixpoint add_files_loop (env : Env) (clock : nat -> Z * Z) (i : nat)
    (file_paths : list Path) (output_dir : option Path) (priority : TaskPriority)
    (created : list nat) (self : t) : Py.result (t * list nat) :=
  match file_paths with
  | [] => mret (self, created)
  | file_path :: rest =>
      output_file ←
        match output_dir with
        | Some dir =>
            p ← pathlib.with_suffix file_path ".md";
            mret (Some (pathlib.joinpath dir (pathlib.name p)))
        | None => mret None
        end;
      max_retries ← load_int [] "max_retries";
      let '(self, task) :=
        add_task env (clock i).1 (clock i).2 file_path output_file priority
                 max_retries self in
      add_files_loop env clock (S i) rest output_dir priority (created ++ [task]) self
  end.

Definition add_files (env : Env) (clock : nat -> Z * Z)
    (file_paths : list Path) (output_dir : option Path)
    (file_filter : option FileFilter.t) (priority : TaskPriority) (self : t)
  : Py.result (t * list nat) :=
  (* Filter files *)
  file_paths ←
    match file_filter with
    | Some f => FileFilter.filter_files env f file_paths
    | None => mret file_paths
    end;
  add_files_loop env clock 0 file_paths output_dir priority [] self.

(** *** [start], [pause], [resume] *)

Definition start (now : Z) (self : t) : t :=
  if running self then self
  else
    let self := set_running true self in
    let self := set_is_paused false self in
    let self := set_is_cancelled false self in
    let self := set_pause_event true self in
    let self := set_executor true self in
    let self := if use_async self then set_async_loop true self else self in
    update_statistics (BatchStatistics.set_start_time (Some now)) self.

Definition pause (self : t) : t :=
  set_pause_event false (set_is_paused true self).

Definition resume (self : t) : t :=
  set_pause_event true (set_is_paused false self).

(** *** [cancel_all] and [cancel_task] *)

(** One round of the loops over [futures.items()] and
    [async_tasks.items()] *)
Definition cancel_entry (self : t) (entry : string * nat) : t :=
  let '(task_id, fref) := entry in
  match future_objects self !! fref with
  | Some fut =>
      if negb (Future.done fut) then
        let self := set_future_objects
                      (<[fref := Future.cancel fut]> (future_objects self)) self in
        match tasks self !! task_id with
        | Some r => mark_cancelled r self
        | None => self
        end
      else self
  | None => self
  end.

(** [while not self.task_queue.empty(): ...] *)
Fixpoint clear_queue (fuel : nat) (self : t) : t :=
  match fuel with
  | O => self
  | S fuel' =>
      if PriorityQueue.empty (task_queue self) then self
      else
        match PriorityQueue.get (lt_ref (objects self)) (task_queue self) with
        | Some (r, q') => clear_queue fuel' (mark_cancelled r (set_task_queue q' self))
        | None => self
        end
  end.

Definition cancel_all (self : t) : t :=
  let self := set_is_cancelled true self in
  (* Cancel futures *)
  let self := foldl cancel_entry self (map_to_list (futures self)) in
  let self := set_futures ∅ self in
  (* Cancel async tasks *)
  let self := if async_loop self
              then foldl cancel_entry self (map_to_list (async_tasks self))
              else self in
  let self := set_async_tasks ∅ self in
  (* Clear queue *)
  clear_queue (length (task_queue self)) self.

(** The future registered under [task_id], when it is not done *)
Definition live_future (self : t) (table : gmap string nat) (task_id : string)
  : option (nat * Future.t) :=
  fref ← table !! task_id;
  fut ← future_objects self !! fref;
  if Future.done fut then None else Some (fref, fut).

Definition cancel_registered (self : t) (task_id : string) (fref : nat) (fut : Future.t)
  : t :=
  let self := set_future_objects
                (<[fref := Future.cancel fut]> (future_objects self)) self in
  match tasks self !! task_id with
  | Some r => mark_cancelled r self
  | None => self
  end.

Definition cancel_task (task_id : string) (self : t) : t * bool :=
  (* Cancel future if exists *)
  match live_future self (futures self) task_id with
  | Some (fref, fut) =>
      let self := cancel_registered self task_id fref fut in
      (set_futures (delete task_id (futures self)) self, true)
  | None =>
      (* Cancel async task if exists *)
      match live_future self (async_tasks self) task_id with
      | Some (fref, fut) =>
          let self := cancel_registered self task_id fref fut in
          (set_async_tasks (delete task_id (async_tasks self)) self, true)
      | None =>
          (* Check if in queue *)
          match tasks self !! task_id with
          | Some r =>
              if bool_decide (status_of self r = Some QUEUED)
              then (mark_cancelled r self, true)
              else (self, false)
          | None => (self, false)
          end
      end
  end.

(** [stop]: the waits for the pool and for the threads change nothing
    in the processor. *)
Definition stop (now : Z) (self : t) : t :=
  let self := set_running false self in
  let self := cancel_all self in
  update_statistics (BatchStatistics.set_end_time (Some now)) self.
(** *** The work submitted for a task *)

(** [_process_task(task)], given what the call of [conversion_func]
    produces *)
Definition _process_task (self : t) (task : BatchTask.t) (call : Py.result ConvValue)
  : Py.result ResultDict.t :=
  if negb (has_conversion_func self)
  then Py.Raise (Py.ValueError "No conversion function provided")
  else
    Py.try_except
      (if is_cancelled self || bool_decide (BatchTask.status task = CANCELLED)
       then mret ResultDict.cancelled
       else
         result ← call;
         mret (ResultDict.ok (result_text_of result)))
      (fun e => mret (ResultDict.failure e)).

(** [_process_task_async(task)], given what awaiting
    [async_conversion_func] produces *)
Definition _process_task_async (self : t) (task : BatchTask.t) (call : Py.result ConvValue)
  : Py.result ResultDict.t :=
  if negb (use_async self)
  then Py.Raise (Py.ValueError "No async conversion function provided")
  else
    Py.try_except
      (if is_cancelled self || bool_decide (BatchTask.status task = CANCELLED)
       then mret ResultDict.cancelled
       else
         result ← call;
         mret (ResultDict.ok (result_text_of result)))
      (fun e => mret (ResultDict.failure e)).

(** [_process_task_cpu_bound(task)], given what importing the converter
    and converting the file produces *)
Definition _process_task_cpu_bound (self : t) (task : BatchTask.t) (call : Py.result string)
  : Py.result ResultDict.t :=
  Py.try_except
    (if is_cancelled self
     then mret ResultDict.cancelled
     else
       text_content ← call;
       mret (ResultDict.ok text_content))
    (fun e => mret (ResultDict.failure e)).

(** *** [_handle_task_result] and the delayed re-queue *)

Definition _handle_task_result (now : Z) (r : nat) (result : ResultDict.t) (self : t) : t :=
  match objects self !! r with
  | None => self
  | Some task =>
      if ResultDict.success result then
        let self := update_task r (BatchTask.set_status COMPLETED) self in
        let self := update_task r (BatchTask.set_result_text (ResultDict.result_text result)) self in
        let self := update_task r (BatchTask.set_completed_at (Some now)) self in
        (* the result is written to [output_file] here; a failure to write
           is logged and changes nothing *)
        let self := update_statistics
                      (fun st => BatchStatistics.set_completed_tasks
                                   (BatchStatistics.completed_tasks st + 1) st) self in
        let self := update_statistics
                      (BatchStatistics.update_status PROCESSING (fun n => n - 1)) self in
        let self := update_statistics
                      (BatchStatistics.update_status COMPLETED (fun n => n + 1)) self in
        emit CONVERSION_COMPLETED
          [("task_id", Some (BatchTask.task_id task));
           ("input_file", Some (pathlib.str (BatchTask.input_file task)))]%string self
      else
        (* Retry logic *)
        if (BatchTask.retry_count task <? BatchTask.max_retries task)
           && negb (is_cancelled self)
        then
          let retries := BatchTask.retry_count task + 1 in
          let self := update_task r (BatchTask.set_retry_count retries) self in
          let self := update_task r (BatchTask.set_status RETRYING) self in
          let self := update_statistics
                        (fun st => BatchStatistics.set_retry_count
                                     (BatchStatistics.retry_count st + 1) st) self in
          let self := update_statistics
                        (BatchStatistics.update_status PROCESSING (fun n => n - 1)) self in
          (* Exponential backoff *)
          let delay := 2 ^ retries in
          set_threads (threads self ++ [Requeue r delay]) self
        else
          let self := update_task r (BatchTask.set_status FAILED) self in
          let self := update_task r (BatchTask.set_error_message (ResultDict.error result)) self in
          let self := update_task r (BatchTask.set_completed_at (Some now)) self in
          let self := update_statistics
                        (fun st => BatchStatistics.set_failed_tasks
                                     (BatchStatistics.failed_tasks st + 1) st) self in
          let self := update_statistics
                        (BatchStatistics.update_status PROCESSING (fun n => n - 1)) self in
          let self := update_statistics
                        (BatchStatistics.update_status FAILED (fun n => n + 1)) self in
          emit CONVERSION_FAILED
            [("task_id", Some (BatchTask.task_id task));
             ("error", ResultDict.error result)]%string self
  end.

(** [requeue_after_delay], run by its timer thread once the delay is over *)
Definition requeue_after_delay (r : nat) (delay : Z) (self : t) : t :=
  let self := remove_thread (Requeue r delay) self in
  if negb (is_cancelled self) && bool_decide (status_of self r = Some RETRYING)
  then
    let self := update_task r (BatchTask.set_status QUEUED) self in
    let self := set_task_queue
                  (PriorityQueue.put (lt_ref (objects self)) (task_queue self) r) self in
    update_statistics (BatchStatistics.update_status QUEUED (fun n => n + 1)) self
  else self.

(** *** Completion of a pool future: [_handle_future] *)

(** The [except Exception] branch shared by the two completion handlers *)
Definition mark_failed (now : Z) (r : nat) (e : Py.exn) (self : t) : t :=
  let self := update_task r (BatchTask.set_status FAILED) self in
  let self := update_task r (BatchTask.set_error_message (Some (Py.str_exn e))) self in
  let self := update_task r (BatchTask.set_completed_at (Some now)) self in
  let self := update_statistics
                (fun st => BatchStatistics.set_failed_tasks
                             (BatchStatistics.failed_tasks st + 1) st) self in
  let self := processing_floor self in
  update_statistics (BatchStatistics.update_status FAILED (fun n => n + 1)) self.

(** The body of [monitor_future] once [future.result(timeout=300)] has
    returned or raised [outcome] *)
Definition monitor_body (now : Z) (r : nat) (outcome : Py.result ResultDict.t) (self : t) : t :=
  let self :=
    match outcome with
    | Py.Ok result => _handle_task_result now r result self
    | Py.Raise e => if Py.is_Exception e then mark_failed now r e self else self
    end in
  (* finally *)
  set_futures (delete (task_id_of self r) (futures self)) self.

(** The five minute ceiling of [future.result] *)
Definition result_timeout : Z := 300.

(** The monitor thread of a pool future after [waited] seconds in
    [future.result]; nothing happens while it is still blocked. *)
Definition monitor_future (now : Z) (r fref : nat) (waited : Z) (self : t) : t :=
  match future_objects self !! fref with
  | Some fut =>
      match Future.result Py.FutureCancelledError fut (Some result_timeout) waited with
      | Some outcome => monitor_body now r outcome (remove_thread (Monitor r fref) self)
      | None => self
      end
  | None => self
  end.

(** *** Completion of an event-loop future: [_handle_async_task] *)

(** [on_complete(future)] once [future.result()] has returned or raised
    [outcome] *)
Definition on_complete_body (now : Z) (r : nat) (outcome : Py.result ResultDict.t) (self : t)
  : t :=
  let self :=
    match outcome with
    | Py.Ok result => _handle_task_result now r result self
    | Py.Raise Py.CancelledError =>
        let self := mark_cancelled r self in
        processing_floor self
    | Py.Raise e => mark_failed now r e self
    end in
  (* finally *)
  set_async_tasks (delete (task_id_of self r) (async_tasks self)) self.

(** The done-callback runs when the future is done.  [cancelled_error]
    is the class [result()] raises for a cancelled future:
    [asyncio.CancelledError] or [concurrent.futures.CancelledError]. *)
Definition on_complete (now : Z) (cancelled_error : Py.exn) (r fref : nat) (self : t) : t :=
  match future_objects self !! fref with
  | Some fut =>
      match Future.result cancelled_error fut None 0 with
      | Some outcome => on_complete_body now r outcome (remove_thread (DoneCallback r fref) self)
      | None => self
      end
  | None => self
  end.

(** *** The dispatch loop: one round of [_worker_loop] *)

Definition submit (k : Future.work) (r : nat) (self : t) : t * nat :=
  let fref := length (future_objects self) in
  (set_future_objects (future_objects self ++ [Future.mk Future.Pending r k]) self, fref).

Definition worker_iteration (now : Z) (self : t) : t :=
  if negb (running self) then self
  else if negb (pause_event self) then self
  else if is_cancelled self then self
  else
    (* Get task from queue *)
    match PriorityQueue.get (lt_ref (objects self)) (task_queue self) with
    | None => self
    | Some (r, q') =>
        let self := set_task_queue q' self in
        (* Check if cancelled *)
        if is_cancelled self || bool_decide (status_of self r = Some CANCELLED) then self
        else
          (* Submit task *)
          let self := update_task r (BatchTask.set_status PROCESSING) self in
          let self := update_task r (BatchTask.set_started_at (Some now)) self in
          let self := update_statistics
                        (BatchStatistics.update_status QUEUED (fun n => n - 1)) self in
          let self := update_statistics
                        (BatchStatistics.update_status PROCESSING (fun n => n + 1)) self in
          if use_async self && async_loop self then
            let '(self, fref) := submit Future.AsyncWork r self in
            let self := set_async_tasks (<[task_id_of self r := fref]> (async_tasks self)) self in
            set_threads (threads self ++ [DoneCallback r fref]) self
          else
            let '(self, fref) :=
              submit (if use_processes self then Future.CpuWork else Future.SyncWork) r self in
            let self := set_futures (<[task_id_of self r := fref]> (futures self)) self in
            set_threads (threads self ++ [Monitor r fref]) self
    end.

(** *** The pool and the event loop running the submitted work *)

(** A worker of the pool picks a pending future up. *)
Definition executor_start (fref : nat) (self : t) : t :=
  match future_objects self !! fref with
  | Some fut =>
      match Future.st fut, Future.kind fut with
      | Future.Pending, (Future.SyncWork | Future.CpuWork) =>
          set_future_objects
            (<[fref := Future.mk Future.Running (Future.task fut) (Future.kind fut)]>
               (future_objects self)) self
      | _, _ => self
      end
  | None => self
  end.

Definition cpu_call (call : Py.result ConvValue) : Py.result string :=
  v ← call; mret (result_text_of v).

(** The work of a future, given what the conversion produces *)
Definition run_work (self : t) (fut : Future.t) (call : Py.result ConvValue)
  : Py.result ResultDict.t :=
  match objects self !! Future.task fut with
  | Some task =>
      match Future.kind fut with
      | Future.SyncWork => _process_task self task call
      | Future.CpuWork => _process_task_cpu_bound self task (cpu_call call)
      | Future.AsyncWork => _process_task_async self task call
      end
  | None => Py.Raise (Py.Exception "no such task")
  end.

(** The work of a future comes to its end: a running pool future, or a
    pending event-loop future, becomes finished; a coroutine that ends
    with [asyncio.CancelledError] cancels its future. *)
Definition executor_finish (fref : nat) (call : Py.result ConvValue) (self : t) : t :=
  match future_objects self !! fref with
  | Some fut =>
      let finished o :=
        set_future_objects
          (<[fref := Future.mk o (Future.task fut) (Future.kind fut)]>
             (future_objects self)) self in
      match Future.st fut, Future.kind fut with
      | Future.Running, (Future.SyncWork | Future.CpuWork) =>
          finished (Future.Finished (run_work self fut call))
      | Future.Pending, Future.AsyncWork =>
          match run_work self fut call with
          | Py.Raise Py.CancelledError => finished Future.Cancelled
          | o => finished (Future.Finished o)
          end
      | _, _ => self
      end
  | None => self
  end.

(** *** The scheduler as a transition system *)

Inductive step (env : Env) : t -> t -> Prop :=
| step_add_task time_time datetime_now input output prio retries s :
    step env s (add_task env time_time datetime_now input output prio retries s).1
| step_start now s : step env s (start now s)
| step_pause s : step env s (pause s)
| step_resume s : step env s (resume s)
| step_cancel_all s : step env s (cancel_all s)
| step_cancel_task task_id s : step env s (cancel_task task_id s).1
| step_stop now s : step env s (stop now s)
| step_worker now s : step env s (worker_iteration now s)
| step_executor_start fref s : step env s (executor_start fref s)
| step_executor_finish fref call s : step env s (executor_finish fref call s)
| step_monitor now r fref waited s :
    Monitor r fref ∈ threads s ->
    step env s (monitor_future now r fref waited s)
| step_on_complete now cancelled_error r fref s :
    DoneCallback r fref ∈ threads s ->
    cancelled_error = Py.CancelledError \/ cancelled_error = Py.FutureCancelledError ->
    step env s (on_complete now cancelled_error r fref s)
| step_requeue r delay s :
    Requeue r delay ∈ threads s ->
    step env s (requeue_after_delay r delay s).

(** The states a processor built by [__init__] can be in *)
Inductive reachable (env : Env) : t -> Prop :=
| reachable_init max_workers use_processes conversion_func async_conversion_func :
    reachable env (init max_workers use_processes conversion_func async_conversion_func)
| reachable_step s s' : reachable env s -> step env s s' -> reachable env s'.

End BatchProcessor.

(** ** The heap invariant

    [le a b] is [not (b < a)], the order [heapq] works with. *)

Module heap_inv.
Section Inv.

Context {A : Type} (lt : A -> A -> bool).

Definition le (a b : A) : Prop := lt b a = false.

Definition parent (i : nat) : nat := ((i - 1) / 2)%nat.

(** Every item is at least its parent. *)
Definition heap_ok (h : list A) : Prop :=
  forall i x p, (0 < i)%nat -> h !! i = Some x -> h !! parent i = Some p -> le p x.

(** The invariant of the loop of [_siftdown]: the position [pos] is a
    hole meant for [x]. *)
Record hole_up (h : list A) (pos : nat) (x : A) : Prop := mk_hole_up {
  hu_len : (pos < length h)%nat;
  hu_others : forall i y p, (0 < i)%nat -> i <> pos ->
      h !! i = Some y -> h !! parent i = Some p -> le p y;
  hu_children : forall i y, (0 < i)%nat -> parent i = pos ->
      h !! i = Some y -> le x y;
  hu_grand : forall i y g, (0 < pos)%nat -> (0 < i)%nat -> parent i = pos ->
      h !! i = Some y -> h !! parent pos = Some g -> le g y
}.

(** The invariant of the loop of [_siftup]: the children of the hole at
    [pos] are not yet compared with it. *)
Record hole_down (h : list A) (pos : nat) : Prop := mk_hole_down {
  hd_len : (pos < length h)%nat;
  hd_others : forall i y p, (0 < i)%nat -> parent i <> pos ->
      h !! i = Some y -> h !! parent i = Some p -> le p y;
  hd_grand : forall i y g, (0 < pos)%nat -> (0 < i)%nat -> parent i = pos ->
      h !! i = Some y -> h !! parent pos = Some g -> le g y
}.

(** The queues one gets from the empty one by [put] and [get] *)
Inductive built : list A -> Prop :=
| built_empty : built []
| built_put q x : built q -> built (PriorityQueue.put lt q x)
| built_get q x q' : built q -> PriorityQueue.get lt q = Some (x, q') -> built q'.

End Inv.
End heap_inv.

(** ** The order of dispatch

    [dispatch_le a b]: [a] may leave the queue before [b], that is, [a]
    has the higher priority, or the same priority and a creation time
    that is not later. *)

Definition dispatch_le (a b : BatchTask.t) : Prop :=
  priority_value (BatchTask.priority a) > priority_value (BatchTask.priority b)
  \/ (BatchTask.priority a = BatchTask.priority b
      /\ BatchTask.created_at a <= BatchTask.created_at b).

(** [a] comes before [b] in the list [l]. *)
Definition comes_before {A : Type} (a b : A) (l : list A) : Prop :=
  exists i j, (i < j)%nat /\ l !! i = Some a /\ l !! j = Some b.

(** Tasks of equal priority are listed in the order of strictly
    increasing creation time. *)
Fixpoint arrival_ordered (l : list BatchTask.t) : bool :=
  match l with
  | [] => true
  | a :: l' =>
      forallb (fun b =>
                 if decide (BatchTask.priority a = BatchTask.priority b)
                 then BatchTask.created_at a <? BatchTask.created_at b
                 else true) l'
      && arrival_ordered l'
  end.

(** The order in which the tasks [ins], put one after the other into an
    empty queue, are got from it. *)
Definition dequeue_order (ins : list BatchTask.t) : list BatchTask.t :=
  PriorityQueue.get_all BatchTask.lt (PriorityQueue.put_all BatchTask.lt [] ins).

(** The tasks of one priority leave the queue in the order they were put
    into it. *)
Definition fifo_within_priority (ins : list BatchTask.t) : Prop :=
  forall i j a b, (i < j)%nat -> ins !! i = Some a -> ins !! j = Some b ->
    BatchTask.priority a = BatchTask.priority b ->
    comes_before a b (dequeue_order ins).

(** A queued task with the given identifier, priority and creation time *)
Definition queued_task (id : string) (prio : TaskPriority) (created : Z) : BatchTask.t :=
  BatchTask.mk id (mkPath false [id]) None prio QUEUED 0 3 created
               None None None None None.

(** ** The criteria of a file filter, as the specification words them

    A file matches iff it passes every configured criterion; a criterion
    that is not set is passed by every file.  A setting counts as
    configured when it is true in Python's sense, so that a size bound of
    [0] and an empty list of extensions are not set. *)

Module FilterSpec.

Definition criterion {A : Type} (setting : option A) (test : A -> bool) : bool :=
  match setting with
  | Some v => test v
  | None => true
  end.

Definition configured_bound (o : option Z) : option Z :=
  if truthy_int o then o else None.

Definition configured_list {A : Type} (o : option (list A)) : option (list A) :=
  if truthy_list o then o else None.

(** Case-insensitive exact match of the suffix against one of the
    extensions *)
Definition extension_matches (p : Path) (exts : list string) : bool :=
  existsb (fun e => String.eqb (lower e) (lower (pathlib.suffix p))) exts.

(** The file is the excluded path or lies below it; an entry that cannot
    be resolved excludes nothing. *)
Definition excluded_by (env : Env) (file_path exclude_path : Path) : bool :=
  match fs_resolve env exclude_path, fs_resolve env file_path with
  | Some e, Some p => bool_decide (e ∈ pathlib.parents p) || bool_decide (p = e)
  | _, _ => false
  end.

Definition passes (env : Env) (f : FileFilter.t) (p : Path) : bool :=
  criterion (configured_list (FileFilter.extensions f)) (extension_matches p)
  && match fs_size env p, fs_mtime env p with
     | Some size, Some mtime =>
         criterion (configured_bound (FileFilter.min_size f)) (fun m => m <=? size)
         && criterion (configured_bound (FileFilter.max_size f)) (fun m => size <=? m)
         && criterion (FileFilter.min_date f) (fun d => d <=? mtime)
         && criterion (FileFilter.max_date f) (fun d => mtime <=? d)
     | _, _ => false
     end
  && criterion (FileFilter.name_pattern f) (fun pat => re_search env pat (pathlib.name p))
  && forallb (fun ex => negb (excluded_by env p ex)) (FileFilter.exclude_paths f)
  && forallb (fun pat => negb (re_search env pat (pathlib.str p)))
             (FileFilter.exclude_patterns f).

(** A block that never raises and only ever returns [False] *)
Definition gate (pass : bool) : FileFilter.block :=
  if pass then FileFilter.fall_through else FileFilter.return_False.

(** The paths [add_files] goes through *)
Definition survivors (env : Env) (file_filter : option FileFilter.t) (ps : list Path)
  : list Path :=
  match file_filter with
  | Some f => List.filter (passes env f) ps
  | None => ps
  end.

(** The filter with its size bounds of [0] taken away *)
Definition drop_zero_bounds (f : FileFilter.t) : FileFilter.t :=
  FileFilter.set_min_size (configured_bound (FileFilter.min_size f))
    (FileFilter.set_max_size (configured_bound (FileFilter.max_size f)) f).

End FilterSpec.

(** ** A small world for the examples

    Five files under [/data]: three of the sizes of P7 of the
    specification, and two more with the same first bytes as the first one.
    The digest keeps the bytes it is given, patterns without
    metacharacters are searched as substrings. *)

Module Sample.

Fixpoint contains (pat s : string) : bool :=
  String.prefix pat s
  || match s with
     | EmptyString => false
     | String _ s' => contains pat s'
     end.

Definition file (n : string) : Path := mkPath true ["data"; n]%string.

Definition small : Path := file "small.pdf".
Definition medium : Path := file "medium.PDF".
Definition large : Path := file "large.docx".
Definition copy : Path := file "copy.pdf".
Definition again : Path := file "again.pdf".
Definition missing : Path := file "missing.pdf".

Definition content (p : Path) : option string :=
  if decide (p = small) then Some "%PDF small"
  else if decide (p = medium) then Some "%PDF medium"
  else if decide (p = large) then Some "PK large"
  else if decide (p = copy) then Some "%PDF small"
  else if decide (p = again) then Some "%PDF small"
  else None.

Definition size (p : Path) : option Z :=
  if decide (p = small) then Some 1024
  else if decide (p = medium) then Some (10 * 1024 * 1024)
  else if decide (p = large) then Some (100 * 1024 * 1024)
  else if decide (p = copy) then Some 1024
  else if decide (p = again) then Some 1024
  else None.

Definition world : Env :=
  mkEnv (fun p => bool_decide (is_Some (content p)))
        (fun p => list_byte_of_string <$> content p)
        size
        (fun p => (fun _ => 1700000000000000) <$> content p)
        (fun p => Some p)
        (fun b => "md5:" +:+ string_of_list_byte b)
        contains.

(** The filter of P7: between 5 MB and 50 MB *)
Definition size_filter : FileFilter.t :=
  FileFilter.init None (Some (5 * 1024 * 1024)) (Some (50 * 1024 * 1024))
                  None None None None None.

(** A filter whose only setting is a greatest size of [0] *)
Definition max_zero_filter : FileFilter.t :=
  FileFilter.init None None (Some 0) None None None None None.

End Sample.

(** ** Runs of the scheduler used in the statements *)

Module Runs.
Import BatchProcessor.

(** The task to be added is new: its fingerprint is missing or was not
    seen before. *)
Definition fresh (env : Env) (time_time datetime_now : Z) (input : Path)
    (output : option Path) (prio : TaskPriority) (retries : Z) (s : t) : Prop :=
  let task := BatchTask.new env time_time datetime_now input output prio retries in
  truthy_str (BatchTask.file_hash task)
  && bool_decide (default ""%string (BatchTask.file_hash task) ∈ duplicate_hashes s) = false.

(** The tasks the statistics count as completed, failed or cancelled *)
Definition settled (s : t) : Z :=
  BatchStatistics.completed_tasks (statistics s)
  + BatchStatistics.failed_tasks (statistics s)
  + BatchStatistics.cancelled_tasks (statistics s).

(** A processor with a synchronous callback and a pool of four threads *)
Definition fresh_processor : t := init 4 false true false.

(** [add_task(path)] with the default priority and retries *)
Definition add (time_time : Z) (p : Path) (s : t) : t :=
  (add_task Sample.world time_time (time_time + 100) p None NORMAL 3 s).1.

(** The same file is added, then two files with the same first bytes. *)
Definition three_duplicates : t :=
  add 1700000002000000 Sample.again
    (add 1700000001000000 Sample.copy
       (add 1700000000000000 Sample.small fresh_processor)).

(** A queued task is cancelled by its identifier, then everything is. *)
Definition cancelled_twice : t :=
  cancel_all
    (cancel_task "task_1700000000000"
       (add 1700000000000000 Sample.small fresh_processor)).1.

(** Two different files are added within the same millisecond. *)
Definition same_millisecond : t :=
  add 1700000000000456 Sample.medium
    (add 1700000000000123 Sample.small fresh_processor).

(** A processor with a thread pool, started, in which nothing interferes:
    in one round the dispatch loop takes the next task, a worker runs it
    ([call] is what the conversion function produces), the monitor
    thread handles the outcome, and the timers put their tasks back. *)
Definition fire_timers (s : t) : t :=
  foldl (fun s th =>
           match th with
           | Requeue r delay => requeue_after_delay r delay s
           | _ => s
           end) s (threads s).

Definition round (now : Z) (call : Py.result ConvValue) (s : t) : t :=
  let fref := length (future_objects s) in
  let s := worker_iteration now s in
  match future_objects s !! fref with
  | Some fut =>
      let s := executor_start fref s in
      let s := executor_finish fref call s in
      let s := monitor_future now (Future.task fut) fref 0 s in
      fire_timers s
  | None => s
  end.

(** Rounds until the queue is empty; [attempts] counts the calls of the
    conversion function, [callback n] is what its call number [n]
    produces. *)
Fixpoint run (callback : nat -> Py.result ConvValue) (rounds attempts : nat) (s : t)
  : t * nat :=
  match rounds with
  | O => (s, attempts)
  | S rounds' =>
      if PriorityQueue.empty (task_queue s) then (s, attempts)
      else run callback rounds' (S attempts)
               (round 1700000001000000 (callback attempts) s)
  end.

(** One task with [max_retries = 2] and a conversion function that
    fails every time with the message [msg] *)
Definition always_failing (msg : string) : t * nat :=
  run (fun _ => Py.Raise (Py.Exception msg)) 10 0
      (start 1700000000500000
         (add_task Sample.world 1700000000000000 1700000000000100
                   Sample.small None NORMAL 2 fresh_processor).1).

(** One task is dispatched, its worker starts and is still running after
    five minutes. *)
Definition timed_out : t :=
  monitor_future 1700000301000000 0 0 300
    (executor_start 0
       (worker_iteration 1700000001000000
          (start 1700000000500000
             (add 1700000000000000 Sample.small fresh_processor)))).

(** A task fails once and waits for its retry; meanwhile a second task
    of the same priority is added; then the timer puts the first task
    back: [retry_pending] is the state before the timer runs,
    [retry_requeued] the state after it. *)
Definition retry_pending : t :=
  add 1700000003000000 Sample.medium
    (monitor_future 1700000002000000 0 0 1
       (executor_finish 0 (Py.Raise (Py.Exception "boom"))
          (executor_start 0
             (worker_iteration 1700000001000000
                (start 1700000000500000
                   (add 1700000000000000 Sample.small fresh_processor)))))).

Definition retry_requeued : t := requeue_after_delay 0 2 retry_pending.

(** A queued task is cancelled by its identifier. *)
Definition cancelled_once : t :=
  (cancel_task "task_1700000000000"
     (add 1700000000000000 Sample.small fresh_processor)).1.

End Runs.

(** ** What stays true along every step *)

(** The three kinds of notification the scheduler emits, each with the
    identifier of its task in front of its data *)
Definition notification (e : Event) : Prop :=
  (event_type e = CONVERSION_STARTED
   \/ event_type e = CONVERSION_COMPLETED
   \/ event_type e = CONVERSION_FAILED)
  /\ exists task_id rest, data e = ("task_id"%string, Some task_id) :: rest.

(** A notification that the task [task_id] was cancelled *)
Definition cancel_notification (task_id : string) (e : Event) : Prop :=
  event_type e = CONVERSION_CANCELLED
  /\ ("task_id"%string, Some task_id) ∈ data e.

(** The attributes of a task that are given at creation *)
Definition same_identity (x y : BatchTask.t) : Prop :=
  BatchTask.task_id y = BatchTask.task_id x
  /\ BatchTask.input_file y = BatchTask.input_file x
  /\ BatchTask.priority y = BatchTask.priority x
  /\ BatchTask.created_at y = BatchTask.created_at x
  /\ BatchTask.file_hash y = BatchTask.file_hash x.

(** [s'] comes after [s]: the events of [s] are still there, followed by
    notifications of the three kinds; [total_tasks] has not decreased;
    every task object is still there with the identity it had. *)
Record evolves (s s' : BatchProcessor.t) : Prop := {
  ev_events : exists l,
      BatchProcessor.event_bus s' = BatchProcessor.event_bus s ++ l
      /\ Forall notification l;
  ev_total :
      BatchStatistics.total_tasks (BatchProcessor.statistics s)
      <= BatchStatistics.total_tasks (BatchProcessor.statistics s');
  ev_objects : forall r x,
      BatchProcessor.objects s !! r = Some x ->
      exists y, BatchProcessor.objects s' !! r = Some y /\ same_identity x y
}.

(** ** [EventBus] of [gui/core/events.py]

    The bus the scheduler emits to.  [K] are the event types, [E] the
    events, [C] the callbacks, which are functions or bound methods
    (compared by [==], with a [__name__]) that leave the bus alone while
    they run; [type_of event] is [event.event_type] and [run cb event]
    is what calling [cb(event)] does: [None] when it returns, [Some e]
    when it raises [e]; [value ty] is [ty.value].  [_subscribers] is a
    [defaultdict(list)]: reading a missing key creates it with an empty
    list. *)

Module EventBus.
Section Bus.

Context {K E C : Type} `{Countable K} `{EqDecision C}.
Context (value : K -> string) (type_of : E -> K) (run : C -> E -> option Py.exn).

Record t : Type := mk {
  _subscribers : gmap K (list C);
  _global_subscribers : list C;
  _event_history : list E;
  _max_history : Z;
  _enabled : bool
}.

(** [__init__] *)
Definition init : t := mk ∅ [] [] 1000 true.

Definition set_subscribers (v : gmap K (list C)) (b : t) : t :=
  mk v (_global_subscribers b) (_event_history b) (_max_history b) (_enabled b).

Definition set_global_subscribers (v : list C) (b : t) : t :=
  mk (_subscribers b) v (_event_history b) (_max_history b) (_enabled b).

Definition set_event_history (v : list E) (b : t) : t :=
  mk (_subscribers b) (_global_subscribers b) v (_max_history b) (_enabled b).

Definition set_enabled (v : bool) (b : t) : t :=
  mk (_subscribers b) (_global_subscribers b) (_event_history b) (_max_history b) v.

(** [self._subscribers[event_type]]: the list, and the dictionary with
    the key created when it was missing *)
Definition getitem (d : gmap K (list C)) (k : K) : gmap K (list C) * list C :=
  match d !! k with
  | Some v => (d, v)
  | None => (<[k := []]> d, [])
  end.

(** [list.remove(x)] for an [x] that is in the list: the first
    occurrence goes *)
Fixpoint list_remove_first (x : C) (l : list C) : list C :=
  match l with
  | [] => []
  | y :: l' => if decide (y = x) then l' else y :: list_remove_first x l'
  end.

Definition subscribe (event_type : K) (callback : C) (global_subscriber : bool) (self : t)
  : Py.result t :=
  if global_subscriber then
    if bool_decide (callback ∈ _global_subscribers self)
    then Py.Raise (Py.ValueError "Callback is already a global subscriber")
    else mret (set_global_subscribers (_global_subscribers self ++ [callback]) self)
  else
    let '(d, l) := getitem (_subscribers self) event_type in
    if bool_decide (callback ∈ l)
    then Py.Raise (Py.ValueError ("Callback already subscribed to " +:+ value event_type))
    else mret (set_subscribers (<[event_type := l ++ [callback]]> d) self).

Definition unsubscribe (event_type : option K) (callback : C) (self : t) : t :=
  match event_type with
  | None =>
      if bool_decide (callback ∈ _global_subscribers self)
      then set_global_subscribers (list_remove_first callback (_global_subscribers self)) self
      else self
  | Some ty =>
      let '(d, l) := getitem (_subscribers self) ty in
      if bool_decide (callback ∈ l)
      then set_subscribers (<[ty := list_remove_first callback l]> d) self
      else set_subscribers d self
  end.

(** [callback(event)] *)
Definition call (callback : C) (event : E) : Py.result unit :=
  match run callback event with
  | Some e => Py.Raise e
  | None => Py.Ok tt
  end.

(** A callback that returns or raises an [Exception], and not a
    [BaseException] that is none *)
Definition tame (callback : C) (event : E) : Prop :=
  match run callback event with
  | Some e => Py.is_Exception e = true
  | None => True
  end.

(** One of the two loops of [emit]: every callback is called, an
    [Exception] it raises is logged and the loop goes on.  [log] lists the
    calls made, oldest first. *)
Fixpoint notify (callbacks : list C) (event : E) (log : list (C * E))
  : list (C * E) * Py.result unit :=
  match callbacks with
  | [] => (log, Py.Ok tt)
  | callback :: rest =>
      match Py.try_except (call callback event) (fun _ => Py.Ok tt) with
      | Py.Ok _ => notify rest event (log ++ [(callback, event)])
      | Py.Raise e => (log ++ [(callback, event)], Py.Raise e)
      end
  end.

(** [emit(event)]: the bus afterwards, the calls made, and whether the
    call returned *)
Definition emit (event : E) (self : t) : t * list (C * E) * Py.result unit :=
  if negb (_enabled self) then (self, [], Py.Ok tt)
  else
    (* Add to history *)
    let history := _event_history self ++ [event] in
    let history :=
      if Z.of_nat (length history) >? _max_history self then tail history else history in
    let self := set_event_history history self in
    (* Notify specific subscribers *)
    let subscribers := default [] (_subscribers self !! type_of event) in
    match notify subscribers event [] with
    | (log, Py.Raise e) => (self, log, Py.Raise e)
    | (log, Py.Ok _) =>
        (* Notify global subscribers *)
        let '(log, r) := notify (_global_subscribers self) event log in
        (self, log, r)
    end.

Definition clear_subscribers (event_type : option K) (self : t) : t :=
  match event_type with
  | None => set_global_subscribers [] (set_subscribers ∅ self)
  | Some ty => set_subscribers (<[ty := []]> (_subscribers self)) self
  end.

(** [events[start:]] *)
Definition slice_from {A : Type} (start : Z) (events : list A) : list A :=
  let n := Z.of_nat (length events) in
  let start := if start <? 0 then Z.max 0 (start + n) else Z.min start n in
  drop (Z.to_nat start) events.

Definition get_history (event_type : option K) (limit : Z) (self : t) : list E :=
  let events :=
    match event_type with
    | Some ty => List.filter (fun e => bool_decide (type_of e = ty)) (_event_history self)
    | None => _event_history self
    end in
  slice_from (- limit) events.

Definition clear_history (self : t) : t := set_event_history [] self.

Definition enable (self : t) : t := set_enabled true self.

Definition disable (self : t) : t := set_enabled false self.

Definition is_enabled (self : t) : bool := _enabled self.

Definition subscriber_count (self : t) : Z :=
  map_fold (fun _ callbacks acc => Z.of_nat (length callbacks) + acc) 0 (_subscribers self)
  + Z.of_nat (length (_global_subscribers self)).

(** The callbacks subscribed to a type, as [emit] reads them *)
Definition subscribers_of (self : t) (ty : K) : list C :=
  default [] (_subscribers self !! ty).

(** Several events emitted one after the other, with all the calls made *)
Fixpoint emit_all (events : list E) (self : t) : t * list (C * E) :=
  match events with
  | [] => (self, [])
  | e :: rest =>
      let '(self, log, _) := emit e self in
      let '(self, log') := emit_all rest self in
      (self, log ++ log')
  end.

(** The last [n] items of a list *)
Definition keep_last {A : Type} (n : nat) (l : list A) : list A :=
  drop (length l - n) l.

(** No callback is subscribed twice to the same thing. *)
Definition well_formed (self : t) : Prop :=
  NoDup (_global_subscribers self) /\ forall ty, NoDup (subscribers_of self ty).

End Bus.
End EventBus.

#[global] Instance EventType_countable : Countable EventType.
Proof.
  refine (inj_countable'
            (fun ty => match ty with
                       | CONVERSION_STARTED => 0%nat
                       | CONVERSION_PROGRESS => 1%nat
                       | CONVERSION_COMPLETED => 2%nat
                       | CONVERSION_FAILED => 3%nat
                       | CONVERSION_CANCELLED => 4%nat
                       end)
            (fun n => match n with
                      | 0%nat => CONVERSION_STARTED
                      | 1%nat => CONVERSION_PROGRESS
                      | 2%nat => CONVERSION_COMPLETED
                      | 3%nat => CONVERSION_FAILED
                      | _ => CONVERSION_CANCELLED
                      end) _).
  intros []; reflexivity.
Defined.

(** [EventType.value] *)
Definition EventType_value (ty : EventType) : string :=
  match ty with
  | CONVERSION_STARTED => "conversion.started"
  | CONVERSION_PROGRESS => "conversion.progress"
  | CONVERSION_COMPLETED => "conversion.completed"
  | CONVERSION_FAILED => "conversion.failed"
  | CONVERSION_CANCELLED => "conversion.cancelled"
  end.

(** A bus for the examples: the callbacks are named by strings; the
    callback ["broken"] raises a [ValueError] whenever it is called. *)
Module SampleBus.

Definition run (callback : string) (event : Event) : option Py.exn :=
  if String.eqb callback "broken" then Some (Py.ValueError "broken subscriber") else None.

Definition started (task_id : string) : Event :=
  mkEvent CONVERSION_STARTED [("task_id"%string, Some task_id)] (Some "BatchProcessor"%string).

Definition failed (task_id : string) : Event :=
  mkEvent CONVERSION_FAILED [("task_id"%string, Some task_id)] (Some "BatchProcessor"%string).

Definition bus : Type := @EventBus.t EventType Event string _ _.

Definition empty : bus := EventBus.init.

(** [subscribe] when it is known not to raise *)
Definition subscribed (ty : EventType) (callback : string) (global_subscriber : bool)
    (b : bus) : bus :=
  match EventBus.subscribe EventType_value ty callback global_subscriber b with
  | Py.Ok b' => b'
  | Py.Raise _ => b
  end.

(** Two subscribers of the started events, the first of which is
    broken, and one global subscriber *)
Definition three_subscribers : bus :=
  subscribed CONVERSION_STARTED "audit" true
    (subscribed CONVERSION_STARTED "progress_bar" false
       (subscribed CONVERSION_STARTED "broken" false empty)).

End SampleBus.

(** ** The books of the scheduler

    [get_task], and the quantities the statistics and the event bus are
    compared by: the notifications of one type emitted so far, the work
    that is still somewhere in the scheduler. *)

Module Books.
Import BatchProcessor.

(** [get_task]: [self.tasks.get(task_id)] *)
Definition get_task (task_id : string) (self : t) : option BatchTask.t :=
  r ← tasks self !! task_id; objects self !! r.

(** The notifications of type [ty] on the event bus *)
Definition emitted (ty : EventType) (s : t) : Z :=
  Z.of_nat (length (filter (fun e => event_type e = ty) (event_bus s))).

(** The tasks waiting in the queue and the closures not yet run: a
    completion handler waiting for its future, a timer waiting to put its
    task back. *)
Definition in_flight (s : t) : Z :=
  Z.of_nat (length (task_queue s)) + Z.of_nat (length (threads s)).

(** The counted tasks that are neither finished nor in flight *)
Definition slack (s : t) : Z :=
  BatchStatistics.total_tasks (statistics s)
  - BatchStatistics.completed_tasks (statistics s)
  - BatchStatistics.failed_tasks (statistics s)
  - in_flight s.

(** The books are balanced: every counted task was announced, every
    completed task was reported, no failure was reported that was not
    counted, and the finished tasks together with the work in flight are
    covered by the total. *)
Record balanced (s : t) : Prop := {
  bal_started :
    emitted CONVERSION_STARTED s = BatchStatistics.total_tasks (statistics s);
  bal_completed :
    emitted CONVERSION_COMPLETED s = BatchStatistics.completed_tasks (statistics s);
  bal_failed :
    emitted CONVERSION_FAILED s <= BatchStatistics.failed_tasks (statistics s);
  bal_slack : 0 <= slack s
}.

(** [s'] is [s] after a sweep of cancellations: tasks were marked
    [CANCELLED] and counted, futures were cancelled, the queue was
    emptied or left alone; nothing else has changed. *)
Record swept (s s' : t) : Prop := {
  sw_max_workers : max_workers s' = max_workers s;
  sw_use_processes : use_processes s' = use_processes s;
  sw_has_conversion_func : has_conversion_func s' = has_conversion_func s;
  sw_use_async : use_async s' = use_async s;
  sw_executor : executor s' = executor s;
  sw_futures : futures s' = futures s;
  sw_async_tasks : async_tasks s' = async_tasks s;
  sw_is_paused : is_paused s' = is_paused s;
  sw_is_cancelled : is_cancelled s' = is_cancelled s;
  sw_pause_event : pause_event s' = pause_event s;
  sw_tasks : tasks s' = tasks s;
  sw_duplicate_hashes : duplicate_hashes s' = duplicate_hashes s;
  sw_async_loop : async_loop s' = async_loop s;
  sw_running : running s' = running s;
  sw_event_bus : event_bus s' = event_bus s;
  sw_threads : threads s' = threads s;
  sw_total :
    BatchStatistics.total_tasks (statistics s')
    = BatchStatistics.total_tasks (statistics s);
  sw_completed :
    BatchStatistics.completed_tasks (statistics s')
    = BatchStatistics.completed_tasks (statistics s);
  sw_failed :
    BatchStatistics.failed_tasks (statistics s')
    = BatchStatistics.failed_tasks (statistics s);
  sw_retries :
    BatchStatistics.retry_count (statistics s')
    = BatchStatistics.retry_count (statistics s);
  sw_cancelled :
    BatchStatistics.cancelled_tasks (statistics s)
    <= BatchStatistics.cancelled_tasks (statistics s');
  sw_queue : (length (task_queue s') <= length (task_queue s))%nat;
  sw_objects : forall r task,
    objects s !! r = Some task ->
    objects s' !! r = Some task
    \/ objects s' !! r = Some (BatchTask.set_status CANCELLED task)
}.

(** Any number of steps of the scheduler *)
Definition steps (env : Env) : t -> t -> Prop := rtc (step env).

(** *** The ledger behind the scheduler

    What the books are kept of: the events emitted, the three counters
    of [BatchStatistics] that count tasks in and out, the work in flight
    and the fingerprints seen. *)
Record ledger : Type := mkLedger {
  l_events : list Event;
  l_total : Z;
  l_completed : Z;
  l_failed : Z;
  l_in_flight : Z;
  l_hashes : gset string
}.

Definition ledger_of (s : t) : ledger :=
  mkLedger (event_bus s)
           (BatchStatistics.total_tasks (statistics s))
           (BatchStatistics.completed_tasks (statistics s))
           (BatchStatistics.failed_tasks (statistics s))
           (in_flight s)
           (duplicate_hashes s).

(** The four moves of the ledger: nothing is booked and no work is
    created; a task is admitted; a piece of work ends in a completed
    task; a piece of work ends in a failed task, reported or not. *)
Inductive move (a b : ledger) : Prop :=
| move_quiet :
    l_events b = l_events a -> l_total b = l_total a ->
    l_completed b = l_completed a -> l_failed b = l_failed a ->
    l_in_flight b <= l_in_flight a -> l_hashes b = l_hashes a ->
    move a b
| move_accept e :
    event_type e = CONVERSION_STARTED ->
    l_events b = l_events a ++ [e] -> l_total b = l_total a + 1 ->
    l_completed b = l_completed a -> l_failed b = l_failed a ->
    l_in_flight b = l_in_flight a + 1 -> l_hashes a ⊆ l_hashes b ->
    move a b
| move_complete e :
    event_type e = CONVERSION_COMPLETED ->
    l_events b = l_events a ++ [e] -> l_total b = l_total a ->
    l_completed b = l_completed a + 1 -> l_failed b = l_failed a ->
    l_in_flight b + 1 <= l_in_flight a -> l_hashes b = l_hashes a ->
    move a b
| move_fail l :
    l = [] \/ (exists e, l = [e] /\ event_type e = CONVERSION_FAILED) ->
    l_events b = l_events a ++ l -> l_total b = l_total a ->
    l_completed b = l_completed a -> l_failed b = l_failed a + 1 ->
    l_in_flight b + 1 <= l_in_flight a -> l_hashes b = l_hashes a ->
    move a b.

End Books.

(** A run used to illustrate the books: a task that succeeds at its
    first attempt. *)
Module MoreRuns.
Import BatchProcessor.

(** A task is added, dispatched and picked up by a worker. *)
Definition running_task : t :=
  executor_start 0
    (worker_iteration 1700000001000000
       (start 1700000000500000
          (Runs.add 1700000000000000 Sample.small Runs.fresh_processor))).

(** The conversion succeeds with the text [text]. *)
Definition converted (text : string) : t :=
  monitor_future 1700000002000000 0 0 1
    (executor_finish 0 (Py.Ok (ConvObject text)) running_task).

End MoreRuns.

(** Two files of one MiB and one byte each that differ in their last
    byte only, in the world of [Sample] *)
Module LongFiles.

Definition mebibyte : list Byte.byte := repeat Byte.x00 (N.to_nat (1024 * 1024)).

Definition long_a : Path := Sample.file "long_a.bin".
Definition long_b : Path := Sample.file "long_b.bin".

Definition content (p : Path) : option (list Byte.byte) :=
  if decide (p = long_a) then Some (mebibyte ++ [Byte.x01])
  else if decide (p = long_b) then Some (mebibyte ++ [Byte.x02])
  else fs_read Sample.world p.

Definition world : Env :=
  mkEnv (fun p => bool_decide (is_Some (content p)))
        content
        (fun p => (fun c => Z.of_nat (length c)) <$> content p)
        (fs_mtime Sample.world)
        (fs_resolve Sample.world)
        (md5_hexdigest Sample.world)
        (re_search Sample.world).

End LongFiles.

(** ** The queue of a running scheduler

    The queue holds references to task objects that exist, and it is a
    heap for the order of the tasks they refer to ([task_of] gives a
    reference to no object a task of its own, so that the order is
    total). *)
Module QueueInv.
Import BatchProcessor.

Definition no_task : BatchTask.t :=
  BatchTask.mk "" (mkPath false []) None LOW PENDING 0 0 0 None None None None None.

Definition task_of (objs : list BatchTask.t) (r : nat) : BatchTask.t :=
  default no_task (objs !! r).

Definition lt_task (objs : list BatchTask.t) (a b : nat) : bool :=
  BatchTask.lt (task_of objs a) (task_of objs b).

Definition valid (objs : list BatchTask.t) (r : nat) : Prop := (r < length objs)%nat.

Record queue_ok (s : t) : Prop := {
  qok_valid : Forall (valid (objects s)) (task_queue s);
  qok_heap : heap_inv.heap_ok (lt_task (objects s)) (task_queue s)
}.

(** The objects of [o1] are still in [o2], with the identity they had. *)
Definition extends (o1 o2 : list BatchTask.t) : Prop :=
  forall r x, o1 !! r = Some x -> exists y, o2 !! r = Some y /\ same_identity x y.

End QueueInv.

(** ** The bound of the retries

    The retries of a task are counted from [0] up to [max_retries] (a
    task created with a negative [max_retries] is never retried). *)
Definition within_retries (task : BatchTask.t) : Prop :=
  0 <= BatchTask.retry_count task <= Z.max 0 (BatchTask.max_retries task).
(** * Paths *)

Module pathlib_examples.

Example suffix_of_name :
  pathlib.suffix (mkPath true ["docs"; "Report.v2.PDF"]) = ".PDF"%string
  /\ lower ".PDF" = ".pdf"%string
  /\ pathlib.stem (mkPath true ["docs"; "Report.v2.PDF"]) = "Report.v2"%string
  /\ pathlib.suffix (mkPath false [".bashrc"]) = ""%string
  /\ pathlib.suffix (mkPath false ["a."]) = ""%string.
Proof. repeat split; reflexivity. Qed.

Example str_and_parents :
  pathlib.str (mkPath true ["docs"; "Report.v2.PDF"]) = "/docs/Report.v2.PDF"%string
  /\ pathlib.parents (mkPath true ["a"; "b"; "c"]) =
       [mkPath true ["a"; "b"]; mkPath true ["a"]; mkPath true []]%string
  /\ pathlib.with_suffix (mkPath true ["docs"; "Report.v2.PDF"]) ".md"
     = Py.Ok (mkPath true ["docs"; "Report.v2.md"])%string.
Proof. repeat split; reflexivity. Qed.

End pathlib_examples.

(** * Facts about the heap *)

Module heap_facts.
Import heap_inv.

Lemma parent_lt i : (0 < i)%nat -> (parent i < i)%nat.
Proof.
  intros Hi. unfold parent.
  apply Nat.Div0.div_lt_upper_bound. lia.
Qed.

Lemma parent_children i pos :
  (0 < i)%nat -> parent i = pos -> i = (2 * pos + 1)%nat \/ i = (2 * pos + 2)%nat.
Proof.
  unfold parent. intros Hi <-.
  pose proof (Nat.div_mod_eq (i - 1) 2) as E.
  pose proof (Nat.mod_upper_bound (i - 1) 2) as B.
  lia.
Qed.

Lemma parent_left pos : parent (2 * pos + 1) = pos.
Proof.
  unfold parent. replace (2 * pos + 1 - 1)%nat with (pos * 2)%nat by lia.
  apply Nat.div_mul. lia.
Qed.

Lemma parent_right pos : parent (2 * pos + 2) = pos.
Proof.
  unfold parent. replace (2 * pos + 2 - 1)%nat with (1 + pos * 2)%nat by lia.
  rewrite Nat.div_add by lia. reflexivity.
Qed.

Section Facts.

Context {A : Type} (lt : A -> A -> bool).
Hypothesis lt_asym : forall a b, lt a b = true -> lt b a = false.
Hypothesis le_trans : forall a b c, le lt a b -> le lt b c -> le lt a c.

Abbreviation le := (le lt).
Abbreviation heap_ok := (heap_ok lt).
Abbreviation hole_up := (hole_up lt).
Abbreviation hole_down := (hole_down lt).

Lemma le_refl a : le a a.
Proof.
  unfold heap_inv.le. destruct (lt a a) eqn:E; [|reflexivity].
  rewrite (lt_asym _ _ E) in E. discriminate.
Qed.

Lemma lt_le a b : lt a b = true -> le a b.
Proof. apply lt_asym. Qed.

Lemma hole_fill h pos x :
  hole_up h pos x ->
  (forall p, (0 < pos)%nat -> h !! parent pos = Some p -> le p x) ->
  heap_ok (<[pos := x]> h).
Proof.
  intros [Hlen Ho Hc _] Hp i y p Hi Hy Hpar.
  destruct (decide (i = pos)) as [->|Hne].
  - rewrite list_lookup_insert_eq in Hy by exact Hlen. injection Hy as <-.
    pose proof (parent_lt pos Hi).
    rewrite list_lookup_insert_ne in Hpar by lia.
    eauto.
  - rewrite list_lookup_insert_ne in Hy by congruence.
    destruct (decide (parent i = pos)) as [E|E].
    + rewrite E in Hpar.
      rewrite list_lookup_insert_eq in Hpar by exact Hlen. injection Hpar as <-.
      eauto.
    + rewrite list_lookup_insert_ne in Hpar by congruence. eauto.
Qed.

Lemma hole_up_step h pos x v :
  (0 < pos)%nat ->
  hole_up h pos x ->
  h !! parent pos = Some v ->
  lt x v = true ->
  hole_up (<[pos := v]> h) (parent pos) x.
Proof.
  intros Hpos [Hlen Ho Hc Hg] Hv Hlt.
  pose proof (parent_lt pos Hpos) as Hpl.
  split.
  - rewrite length_insert. lia.
  - intros i y p Hi Hne Hy Hp.
    destruct (decide (i = pos)) as [->|Hne'].
    + rewrite list_lookup_insert_eq in Hy by exact Hlen. injection Hy as <-.
      rewrite list_lookup_insert_ne in Hp by lia.
      rewrite Hv in Hp. injection Hp as <-. apply le_refl.
    + rewrite list_lookup_insert_ne in Hy by congruence.
      destruct (decide (parent i = pos)) as [E|E].
      * rewrite E in Hp.
        rewrite list_lookup_insert_eq in Hp by exact Hlen. injection Hp as <-.
        eapply Hg; eauto.
      * rewrite list_lookup_insert_ne in Hp by congruence. eauto.
  - intros i y Hi Hpar Hy.
    destruct (decide (i = pos)) as [->|Hne'].
    + rewrite list_lookup_insert_eq in Hy by exact Hlen. injection Hy as <-.
      apply lt_le, Hlt.
    + rewrite list_lookup_insert_ne in Hy by congruence.
      apply le_trans with v; [apply lt_le, Hlt|].
      eapply Ho; eauto. rewrite Hpar. exact Hv.
  - intros i y g Hpp Hi Hpar Hy Hgp.
    pose proof (parent_lt _ Hpp) as Hppl.
    rewrite list_lookup_insert_ne in Hgp by lia.
    assert (Hvg : le g v) by (eapply (Ho (parent pos)); eauto; lia).
    destruct (decide (i = pos)) as [->|Hne'].
    + rewrite list_lookup_insert_eq in Hy by exact Hlen. injection Hy as <-.
      exact Hvg.
    + rewrite list_lookup_insert_ne in Hy by congruence.
      apply le_trans with v; [exact Hvg|].
      eapply Ho; eauto. rewrite Hpar. exact Hv.
Qed.

Lemma siftdown_loop_S fuel h pos x :
  heapq.siftdown_loop lt (S fuel) h 0 pos x =
  if (0 <? pos)%nat then
    match h !! parent pos with
    | Some v =>
        if lt x v then heapq.siftdown_loop lt fuel (<[pos := v]> h) 0 (parent pos) x
        else <[pos := x]> h
    | None => h
    end
  else <[pos := x]> h.
Proof. reflexivity. Qed.

Lemma siftdown_loop_ok fuel : forall h pos x,
  (pos <= fuel)%nat ->
  hole_up h pos x ->
  heap_ok (heapq.siftdown_loop lt fuel h 0 pos x).
Proof.
  induction fuel as [|fuel IH]; intros h pos x Hfuel Hh.
  - simpl. apply hole_fill; [exact Hh|]. intros; lia.
  - rewrite siftdown_loop_S. destruct (0 <? pos)%nat eqn:Hpos.
    + apply Nat.ltb_lt in Hpos.
      pose proof (parent_lt pos Hpos) as Hpl.
      pose proof (hu_len _ _ _ _ Hh) as Hlen.
      destruct (h !! parent pos) as [v|] eqn:Hv.
      * destruct (lt x v) eqn:Hlt.
        -- apply IH; [lia|]. apply hole_up_step; auto.
        -- apply hole_fill; [exact Hh|].
           intros p _ Hp. rewrite Hv in Hp. injection Hp as <-. exact Hlt.
      * apply lookup_ge_None in Hv. lia.
    + apply Nat.ltb_ge in Hpos.
      apply hole_fill; [exact Hh|]. intros; lia.
Qed.

Lemma siftdown_loop_perm fuel : forall h pos x,
  (pos < length h)%nat ->
  heapq.siftdown_loop lt fuel h 0 pos x ≡ₚ <[pos := x]> h.
Proof.
  induction fuel as [|fuel IH]; intros h pos x Hlen; [reflexivity|].
  rewrite siftdown_loop_S.
  destruct (0 <? pos)%nat eqn:Hpos; [|reflexivity].
  apply Nat.ltb_lt in Hpos.
  pose proof (parent_lt pos Hpos) as Hpl.
  destruct (h !! parent pos) as [v|] eqn:Hv.
  - destruct (lt x v); [|reflexivity].
    rewrite IH by (rewrite length_insert; lia).
    pose proof (Permutation_insert_swap (<[pos := x]> h) pos (parent pos) x v) as P.
    rewrite list_insert_insert_eq in P. apply P.
    + apply list_lookup_insert_eq. exact Hlen.
    + rewrite list_lookup_insert_ne by lia. exact Hv.
  - apply lookup_ge_None in Hv. lia.
Qed.

Lemma siftup_loop_S fuel h pos :
  heapq.siftup_loop lt (S fuel) h pos =
  if (2 * pos + 1 <? length h)%nat then
    match h !! heapq.smaller_child lt h (2 * pos + 1) with
    | Some v =>
        heapq.siftup_loop lt fuel (<[pos := v]> h) (heapq.smaller_child lt h (2 * pos + 1))
    | None => (h, pos)
    end
  else (h, pos).
Proof. reflexivity. Qed.

Lemma smaller_child_spec h pos :
  (2 * pos + 1 < length h)%nat ->
  exists c v,
    heapq.smaller_child lt h (2 * pos + 1) = c /\ h !! c = Some v /\
    (c = 2 * pos + 1 \/ c = 2 * pos + 2)%nat /\
    forall i y, (0 < i)%nat -> parent i = pos -> h !! i = Some y -> le v y.
Proof.
  intros Hlen. unfold heapq.smaller_child.
  destruct (lookup_lt_is_Some_2 h (2 * pos + 1) Hlen) as [l Hl]. rewrite Hl.
  replace (2 * pos + 1 + 1)%nat with (2 * pos + 2)%nat by lia.
  destruct (h !! (2 * pos + 2)%nat) as [r|] eqn:Hr.
  - destruct (lt l r) eqn:Hlt; simpl.
    + exists (2 * pos + 1)%nat, l. repeat split; auto.
      intros i y Hi Hp Hy.
      destruct (parent_children i pos Hi Hp) as [->| ->].
      * rewrite Hl in Hy. injection Hy as <-. apply le_refl.
      * rewrite Hr in Hy. injection Hy as <-. apply lt_le, Hlt.
    + exists (2 * pos + 2)%nat, r. repeat split; auto.
      intros i y Hi Hp Hy.
      destruct (parent_children i pos Hi Hp) as [->| ->].
      * rewrite Hl in Hy. injection Hy as <-. exact Hlt.
      * rewrite Hr in Hy. injection Hy as <-. apply le_refl.
  - exists (2 * pos + 1)%nat, l. repeat split; auto.
    intros i y Hi Hp Hy.
    destruct (parent_children i pos Hi Hp) as [->| ->].
    + rewrite Hl in Hy. injection Hy as <-. apply le_refl.
    + congruence.
Qed.

Lemma parent_of_child c pos :
  (c = 2 * pos + 1 \/ c = 2 * pos + 2)%nat -> parent c = pos.
Proof. intros [->| ->]; [apply parent_left | apply parent_right]. Qed.

Lemma hole_down_step h pos c v :
  hole_down h pos ->
  h !! c = Some v ->
  (c = 2 * pos + 1 \/ c = 2 * pos + 2)%nat ->
  (forall i y, (0 < i)%nat -> parent i = pos -> h !! i = Some y -> le v y) ->
  hole_down (<[pos := v]> h) c.
Proof.
  intros [Hlen Ho Hg] Hv Hc Hmin.
  pose proof (parent_of_child c pos Hc) as Hpc.
  assert (Hcpos : (pos < c)%nat) by lia.
  split.
  - rewrite length_insert. apply lookup_lt_Some in Hv. exact Hv.
  - intros i y p Hi Hne Hy Hp.
    destruct (decide (i = pos)) as [->|Hne'].
    + rewrite list_lookup_insert_eq in Hy by exact Hlen. injection Hy as <-.
      pose proof (parent_lt pos Hi).
      rewrite list_lookup_insert_ne in Hp by lia.
      eapply (Hg c); eauto. lia.
    + rewrite list_lookup_insert_ne in Hy by congruence.
      destruct (decide (parent i = pos)) as [E|E].
      * rewrite E in Hp.
        rewrite list_lookup_insert_eq in Hp by exact Hlen. injection Hp as <-.
        eauto.
      * rewrite list_lookup_insert_ne in Hp by congruence. eauto.
  - intros i y g _ Hi Hpi Hy Hgp.
    rewrite Hpc in Hgp.
    rewrite list_lookup_insert_eq in Hgp by exact Hlen. injection Hgp as <-.
    pose proof (parent_lt i Hi).
    rewrite list_lookup_insert_ne in Hy by lia.
    eapply Ho; eauto; [lia|]. rewrite Hpi. exact Hv.
Qed.

Lemma siftup_loop_ok fuel : forall h pos,
  (length h <= pos + fuel)%nat ->
  hole_down h pos ->
  hole_down (heapq.siftup_loop lt fuel h pos).1 (heapq.siftup_loop lt fuel h pos).2
  /\ length (heapq.siftup_loop lt fuel h pos).1 = length h
  /\ (length h <= 2 * (heapq.siftup_loop lt fuel h pos).2 + 1)%nat.
Proof.
  induction fuel as [|fuel IH]; intros h pos Hfuel Hh.
  - simpl. pose proof (hd_len _ _ _ Hh). lia.
  - rewrite siftup_loop_S.
    destruct (2 * pos + 1 <? length h)%nat eqn:Hkid.
    + apply Nat.ltb_lt in Hkid.
      destruct (smaller_child_spec h pos Hkid) as (c & v & -> & Hv & Hc & Hmin).
      rewrite Hv.
      destruct (IH (<[pos := v]> h) c) as (H1 & H2 & H3).
      * rewrite length_insert. lia.
      * eapply hole_down_step; eauto.
      * rewrite length_insert in H2, H3. auto.
    + apply Nat.ltb_ge in Hkid. simpl. auto.
Qed.

Lemma siftup_loop_perm fuel : forall h pos x,
  (pos < length h)%nat ->
  ((heapq.siftup_loop lt fuel h pos).2 < length (heapq.siftup_loop lt fuel h pos).1)%nat
  /\ <[(heapq.siftup_loop lt fuel h pos).2 := x]> (heapq.siftup_loop lt fuel h pos).1
     ≡ₚ <[pos := x]> h.
Proof.
  induction fuel as [|fuel IH]; intros h pos x Hlen; [simpl; auto|].
  rewrite siftup_loop_S.
  destruct (2 * pos + 1 <? length h)%nat eqn:Hkid; [|simpl; auto].
  apply Nat.ltb_lt in Hkid.
  destruct (smaller_child_spec h pos Hkid) as (c & v & -> & Hv & Hc & _).
  rewrite Hv.
  destruct (IH (<[pos := v]> h) c x) as [H1 H2].
  { rewrite length_insert. apply lookup_lt_Some in Hv. exact Hv. }
  split; [exact H1|].
  rewrite H2.
  pose proof (Permutation_insert_swap (<[pos := x]> h) pos c x v) as P.
  rewrite list_insert_insert_eq in P. apply P.
  - apply list_lookup_insert_eq. exact Hlen.
  - rewrite list_lookup_insert_ne by lia. exact Hv.
Qed.

Lemma siftdown_unfold h pos x :
  h !! pos = Some x ->
  heapq.siftdown lt h 0 pos = heapq.siftdown_loop lt pos h 0 pos x.
Proof. intros H. unfold heapq.siftdown. rewrite H. reflexivity. Qed.

Lemma siftup_root h x :
  h !! 0%nat = Some x ->
  heapq.siftup lt h 0 =
  heapq.siftdown lt
    (<[(heapq.siftup_loop lt (length h) h 0).2 := x]> (heapq.siftup_loop lt (length h) h 0).1)
    0 (heapq.siftup_loop lt (length h) h 0).2.
Proof.
  intros H. unfold heapq.siftup. rewrite H.
  destruct (heapq.siftup_loop lt (length h) h 0). reflexivity.
Qed.

Lemma siftup_ok h x :
  h !! 0%nat = Some x ->
  hole_down h 0 ->
  heap_ok (heapq.siftup lt h 0).
Proof.
  intros Hx Hh. rewrite (siftup_root h x Hx).
  destruct (siftup_loop_ok (length h) h 0 ltac:(lia) Hh) as (Hd & Hl & Hleaf).
  destruct (siftup_loop_perm (length h) h 0 x (hd_len _ _ _ Hh)) as [Hlt _].
  set (h' := (heapq.siftup_loop lt (length h) h 0).1) in *.
  set (leaf := (heapq.siftup_loop lt (length h) h 0).2) in *.
  rewrite (siftdown_unfold _ _ x) by (apply list_lookup_insert_eq; exact Hlt).
  apply siftdown_loop_ok; [lia|].
  assert (Hnokid : forall i, (0 < i)%nat -> parent i = leaf -> (length h' <= i)%nat).
  { intros i Hi Hp. destruct (parent_children i leaf Hi Hp); lia. }
  destruct Hd as [_ Ho _].
  split.
  - rewrite length_insert. exact Hlt.
  - intros i y p Hi Hne Hy Hp.
    rewrite list_lookup_insert_ne in Hy by congruence.
    assert (parent i <> leaf).
    { intros E. apply Hnokid in E; [|exact Hi]. apply lookup_lt_Some in Hy. lia. }
    rewrite list_lookup_insert_ne in Hp by congruence. eauto.
  - intros i y Hi Hp Hy. apply Hnokid in Hp; [|exact Hi].
    apply lookup_lt_Some in Hy. rewrite length_insert in Hy. lia.
  - intros i y g _ Hi Hp Hy. apply Hnokid in Hp; [|exact Hi].
    apply lookup_lt_Some in Hy. rewrite length_insert in Hy. lia.
Qed.

Lemma siftup_perm h x :
  h !! 0%nat = Some x ->
  heapq.siftup lt h 0 ≡ₚ h.
Proof.
  intros Hx. rewrite (siftup_root h x Hx).
  assert (Hlen : (0 < length h)%nat) by (apply lookup_lt_Some in Hx; exact Hx).
  destruct (siftup_loop_perm (length h) h 0 x Hlen) as [Hlt Hp].
  set (h' := (heapq.siftup_loop lt (length h) h 0).1) in *.
  set (leaf := (heapq.siftup_loop lt (length h) h 0).2) in *.
  rewrite (siftdown_unfold _ _ x) by (apply list_lookup_insert_eq; exact Hlt).
  rewrite siftdown_loop_perm by (rewrite length_insert; exact Hlt).
  rewrite list_insert_insert_eq, Hp.
  rewrite list_insert_id by exact Hx. reflexivity.
Qed.

Lemma heap_ok_nil : heap_ok [].
Proof. intros i x p _ H. rewrite lookup_nil in H. discriminate. Qed.

Lemma heap_ok_prefix h l : heap_ok (h ++ l) -> heap_ok h.
Proof.
  intros H i x p Hi Hx Hp.
  apply (H i x p Hi); apply lookup_app_l_Some; assumption.
Qed.

(** *** [heappush] *)

Lemma heappush_unfold h x :
  heapq.heappush lt h x = heapq.siftdown_loop lt (length h) (h ++ [x]) 0 (length h) x.
Proof.
  unfold heapq.heappush. rewrite length_app. simpl.
  replace (length h + 1 - 1)%nat with (length h) by lia.
  apply siftdown_unfold.
  rewrite lookup_app_r by lia. rewrite Nat.sub_diag. reflexivity.
Qed.

Lemma heappush_ok h x : heap_ok h -> heap_ok (heapq.heappush lt h x).
Proof.
  intros Hh. rewrite heappush_unfold. apply siftdown_loop_ok; [lia|].
  assert (Hnokid : forall i, (0 < i)%nat -> parent i = length h -> (length h + 1 <= i)%nat).
  { intros i Hi Hp. destruct (parent_children i _ Hi Hp); lia. }
  split.
  - rewrite length_app. simpl. lia.
  - intros i y p Hi Hne Hy Hp.
    assert (i < length h)%nat.
    { apply lookup_lt_Some in Hy. rewrite length_app in Hy. simpl in Hy. lia. }
    pose proof (parent_lt i Hi).
    rewrite lookup_app_l in Hy, Hp by lia. eauto.
  - intros i y Hi Hp Hy. apply Hnokid in Hp; [|exact Hi].
    apply lookup_lt_Some in Hy. rewrite length_app in Hy. simpl in Hy. lia.
  - intros i y g _ Hi Hp Hy. apply Hnokid in Hp; [|exact Hi].
    apply lookup_lt_Some in Hy. rewrite length_app in Hy. simpl in Hy. lia.
Qed.

Lemma heappush_perm h x : heapq.heappush lt h x ≡ₚ x :: h.
Proof.
  rewrite heappush_unfold.
  rewrite siftdown_loop_perm by (rewrite length_app; simpl; lia).
  rewrite list_insert_id.
  - symmetry. apply Permutation_cons_append.
  - rewrite lookup_app_r by lia. rewrite Nat.sub_diag. reflexivity.
Qed.

(** *** [heappop] *)

Lemma heappop_nil : heapq.heappop lt [] = None.
Proof. reflexivity. Qed.

Lemma heappop_snoc h y :
  heapq.heappop lt (h ++ [y]) =
  match h with
  | [] => Some (y, [])
  | r :: _ => Some (r, heapq.siftup lt (<[0%nat := y]> h) 0)
  end.
Proof.
  unfold heapq.heappop. rewrite last_snoc, removelast_last. reflexivity.
Qed.

Lemma list_snoc_cases (l : list A) : l = [] \/ exists l' y, l = l' ++ [y].
Proof.
  induction l as [|y l' _] using rev_ind; [left; reflexivity|right; eauto].
Qed.

Lemma heappop_Some h : h <> [] -> exists x h', heapq.heappop lt h = Some (x, h').
Proof.
  intros Hne. destruct (list_snoc_cases h) as [->|(h0 & y & ->)]; [congruence|].
  rewrite heappop_snoc. destruct h0; eauto.
Qed.

Lemma hole_down_root h y :
  heap_ok h -> (0 < length h)%nat -> hole_down (<[0%nat := y]> h) 0.
Proof.
  intros Hh Hlen. split.
  - rewrite length_insert. exact Hlen.
  - intros i v p Hi Hne Hv Hp.
    assert (i <> 0%nat) by lia.
    rewrite list_lookup_insert_ne in Hv, Hp by congruence.
    eauto.
  - intros; lia.
Qed.

Lemma heappop_spec h x h' :
  heap_ok h ->
  heapq.heappop lt h = Some (x, h') ->
  heap_ok h' /\ h ≡ₚ x :: h' /\ h !! 0%nat = Some x.
Proof.
  intros Hh Hpop.
  destruct (list_snoc_cases h) as [->|(h0 & y & ->)]; [discriminate|].
  rewrite heappop_snoc in Hpop.
  destruct h0 as [|r t].
  - injection Hpop as <- <-. split; [apply heap_ok_nil|]. split; reflexivity.
  - injection Hpop as <- <-.
    apply heap_ok_prefix in Hh.
    split; [|split].
    + apply (siftup_ok _ y); [reflexivity|].
      apply (hole_down_root (r :: t) y); [exact Hh|simpl; lia].
    + rewrite (siftup_perm _ y) by reflexivity. simpl.
      apply perm_skip. symmetry. apply Permutation_cons_append.
    + reflexivity.
Qed.

(** The root is a least item. *)
Lemma root_min h r :
  heap_ok h -> h !! 0%nat = Some r -> forall i x, h !! i = Some x -> le r x.
Proof.
  intros Hh Hr i. induction i as [i IH] using lt_wf_ind. intros x Hx.
  destruct (decide (i = 0%nat)) as [->|Hne].
  - rewrite Hr in Hx. injection Hx as <-. apply le_refl.
  - assert (Hi : (0 < i)%nat) by lia.
    pose proof (parent_lt i Hi) as Hp.
    destruct (lookup_lt_is_Some_2 h (parent i)) as [p Hpv].
    { apply lookup_lt_Some in Hx. lia. }
    apply le_trans with p; [apply (IH (parent i)); auto|].
    eapply Hh; eauto.
Qed.

End Facts.
End heap_facts.
(** * Facts about the priority queue *)

Module queue_facts.
Import heap_inv heap_facts.

Section Facts.

Context {A : Type} (lt : A -> A -> bool).
Hypothesis lt_asym : forall a b, lt a b = true -> lt b a = false.
Hypothesis le_trans : forall a b c, le lt a b -> le lt b c -> le lt a c.

Lemma put_ok q x : heap_ok lt q -> heap_ok lt (PriorityQueue.put lt q x).
Proof. apply heappush_ok; assumption. Qed.

Lemma put_perm q x : PriorityQueue.put lt q x ≡ₚ x :: q.
Proof. apply heappush_perm. Qed.

Lemma put_all_ok items : forall q,
  heap_ok lt q -> heap_ok lt (PriorityQueue.put_all lt q items).
Proof.
  induction items as [|x items IH]; intros q Hq; simpl; [exact Hq|].
  apply IH, put_ok, Hq.
Qed.

Lemma put_all_perm items : forall q,
  PriorityQueue.put_all lt q items ≡ₚ items ++ q.
Proof.
  induction items as [|x items IH]; intros q; simpl; [reflexivity|].
  rewrite IH, put_perm. symmetry. apply Permutation_middle.
Qed.

(** [get] takes a least item out of the queue and keeps the others. *)
Lemma get_spec q x q' :
  heap_ok lt q ->
  PriorityQueue.get lt q = Some (x, q') ->
  heap_ok lt q' /\ q ≡ₚ x :: q' /\ Forall (le lt x) q'.
Proof.
  intros Hq Hget.
  destruct (heappop_spec lt lt_asym le_trans q x q' Hq Hget) as (Hok & Hperm & Hroot).
  split; [exact Hok|]. split; [exact Hperm|].
  apply Forall_forall. intros y Hy.
  assert (Hin : y ∈ q) by (rewrite Hperm; right; exact Hy).
  apply list_elem_of_lookup in Hin as [i Hi].
  exact (root_min lt lt_asym le_trans q x Hq Hroot i y Hi).
Qed.

Lemma get_None q : PriorityQueue.get lt q = None <-> q = [].
Proof.
  split; [|intros ->; reflexivity].
  intros H. destruct q as [|a q]; [reflexivity|].
  destruct (heappop_Some lt (a :: q)) as (x & h' & E); [discriminate|].
  unfold PriorityQueue.get in H. congruence.
Qed.

Lemma built_ok q : built lt q -> heap_ok lt q.
Proof.
  induction 1 as [|q x _ IH|q x q' _ IH Hget].
  - apply heap_ok_nil.
  - apply put_ok, IH.
  - apply (get_spec q x q' IH Hget).
Qed.

Lemma drain_spec fuel : forall q,
  heap_ok lt q -> (length q <= fuel)%nat ->
  PriorityQueue.drain lt fuel q ≡ₚ q
  /\ StronglySorted (le lt) (PriorityQueue.drain lt fuel q).
Proof.
  induction fuel as [|fuel IH]; intros q Hq Hlen.
  - destruct q; [|simpl in Hlen; lia]. simpl. split; [reflexivity|constructor].
  - simpl. destruct (PriorityQueue.get lt q) as [[x q']|] eqn:Hget.
    + destruct (get_spec q x q' Hq Hget) as (Hok & Hperm & Hmin).
      assert (Hlen' : (length q' <= fuel)%nat).
      { apply Permutation_length in Hperm. simpl in Hperm. lia. }
      destruct (IH q' Hok Hlen') as [Hp Hs].
      split.
      * rewrite Hperm, Hp. reflexivity.
      * constructor; [exact Hs|]. rewrite Hp. exact Hmin.
    + apply get_None in Hget. subst q. split; [reflexivity|constructor].
Qed.

Lemma get_all_spec q :
  heap_ok lt q ->
  PriorityQueue.get_all lt q ≡ₚ q /\ StronglySorted (le lt) (PriorityQueue.get_all lt q).
Proof. intros Hq. apply drain_spec; [exact Hq|lia]. Qed.

End Facts.

(** Two positions of a sorted list are in order. *)
Lemma StronglySorted_lookup {A : Type} (R : A -> A -> Prop) (l : list A) :
  StronglySorted R l ->
  forall i j x y, (i < j)%nat -> l !! i = Some x -> l !! j = Some y -> R x y.
Proof.
  induction 1 as [|a l Hs IH Hall]; intros i j x y Hij Hx Hy.
  - rewrite lookup_nil in Hx. discriminate.
  - destruct j as [|j]; [lia|]. simpl in Hy.
    destruct i as [|i].
    + simpl in Hx. injection Hx as <-.
      rewrite Forall_forall in Hall. apply Hall.
      apply list_elem_of_lookup. eauto.
    + simpl in Hx. apply (IH i j); auto. lia.
Qed.

Lemma StronglySorted_weaken {A : Type} (R R' : A -> A -> Prop) (l : list A) :
  (forall a b, R a b -> R' a b) -> StronglySorted R l -> StronglySorted R' l.
Proof.
  intros HR. induction 1 as [|a l _ IH Hall]; constructor; [exact IH|].
  eapply Forall_impl; [exact Hall|]. apply HR.
Qed.

(** *** The comparison of tasks *)

Lemma task_lt_asym a b : BatchTask.lt a b = true -> BatchTask.lt b a = false.
Proof.
  unfold BatchTask.lt.
  destruct (priority_value (BatchTask.priority a) =? priority_value (BatchTask.priority b)) eqn:E;
    destruct (priority_value (BatchTask.priority b) =? priority_value (BatchTask.priority a)) eqn:E';
    simpl; lia.
Qed.

Lemma priority_value_inj p q : priority_value p = priority_value q -> p = q.
Proof. destruct p, q; simpl; intros; congruence || lia. Qed.

Lemma task_le_dispatch a b : le BatchTask.lt a b <-> dispatch_le a b.
Proof.
  unfold le, BatchTask.lt, dispatch_le.
  destruct (priority_value (BatchTask.priority b) =? priority_value (BatchTask.priority a)) eqn:E;
    simpl.
  - apply Z.eqb_eq in E. apply priority_value_inj in E. rewrite E. split.
    + intros H. right. split; [reflexivity|lia].
    + intros [H|[_ H]]; lia.
  - apply Z.eqb_neq in E. split.
    + intros H. left. lia.
    + intros [H|[H _]]; [lia|]. rewrite H in E. congruence.
Qed.

Lemma task_le_trans a b c :
  le BatchTask.lt a b -> le BatchTask.lt b c -> le BatchTask.lt a c.
Proof.
  rewrite !task_le_dispatch. unfold dispatch_le.
  intros [H1|[H1 H1']] [H2|[H2 H2']].
  - left. lia.
  - left. rewrite <- H2. exact H1.
  - left. rewrite H1. exact H2.
  - right. split; [congruence|lia].
Qed.

End queue_facts.
(** * The order of dispatch *)

Module dispatch_order.
Import heap_inv heap_facts queue_facts.

Lemma arrival_ordered_lookup (l : list BatchTask.t) :
  arrival_ordered l = true ->
  forall i j a b, (i < j)%nat -> l !! i = Some a -> l !! j = Some b ->
    BatchTask.priority a = BatchTask.priority b ->
    BatchTask.created_at a < BatchTask.created_at b.
Proof.
  induction l as [|x l IH]; intros Hord i j a b Hij Ha Hb Hprio.
  - rewrite lookup_nil in Ha. discriminate.
  - simpl in Hord. apply andb_prop in Hord as [Hhead Htail].
    destruct j as [|j]; [lia|]. simpl in Hb.
    destruct i as [|i].
    + simpl in Ha. injection Ha as <-.
      rewrite forallb_forall in Hhead.
      assert (Hin : In b l).
      { apply list_elem_of_In, list_elem_of_lookup. eauto. }
      specialize (Hhead b Hin).
      destruct (decide (BatchTask.priority x = BatchTask.priority b)); [lia|contradiction].
    + simpl in Ha. apply (IH Htail i j); auto. lia.
Qed.

Lemma dequeue_order_perm ins : dequeue_order ins ≡ₚ ins.
Proof.
  unfold dequeue_order.
  destruct (get_all_spec BatchTask.lt task_lt_asym task_le_trans
              (PriorityQueue.put_all BatchTask.lt [] ins)) as [Hp _].
  { apply put_all_ok; [exact task_lt_asym|exact task_le_trans|apply heap_ok_nil]. }
  rewrite Hp, put_all_perm by (exact task_lt_asym || exact task_le_trans).
  rewrite app_nil_r. reflexivity.
Qed.

Lemma dequeue_order_sorted ins : StronglySorted dispatch_le (dequeue_order ins).
Proof.
  unfold dequeue_order.
  destruct (get_all_spec BatchTask.lt task_lt_asym task_le_trans
              (PriorityQueue.put_all BatchTask.lt [] ins)) as [_ Hs].
  { apply put_all_ok; [exact task_lt_asym|exact task_le_trans|apply heap_ok_nil]. }
  eapply StronglySorted_weaken; [|exact Hs].
  intros a b. apply task_le_dispatch.
Qed.

(** Whatever was put into the queue and got out of it before, the task
    [get] returns has no task left behind that should go first. *)
Lemma get_returns_most_urgent q t q' :
  built BatchTask.lt q ->
  PriorityQueue.get BatchTask.lt q = Some (t, q') ->
  q ≡ₚ t :: q' /\ Forall (dispatch_le t) q'.
Proof.
  intros Hb Hget.
  destruct (get_spec BatchTask.lt task_lt_asym task_le_trans q t q'
              (built_ok _ task_lt_asym task_le_trans q Hb) Hget) as (_ & Hp & Hmin).
  split; [exact Hp|].
  eapply Forall_impl; [exact Hmin|]. intros b. apply task_le_dispatch.
Qed.

(** C5 (amended).  The tasks put into the task queue, in any order of
    priorities, come out by priority descending and, within one priority,
    by creation time ascending, each exactly once; within one priority
    this is the order of insertion whenever the tasks of that priority
    were put in the order of strictly increasing creation time. *)
Theorem dequeue_by_priority_then_creation_time (ins : list BatchTask.t) :
  dequeue_order ins ≡ₚ ins
  /\ StronglySorted dispatch_le (dequeue_order ins)
  /\ (arrival_ordered ins = true -> fifo_within_priority ins).
Proof.
  split; [apply dequeue_order_perm|]. split; [apply dequeue_order_sorted|].
  intros Hord i j a b Hij Ha Hb Hprio.
  pose proof (arrival_ordered_lookup ins Hord i j a b Hij Ha Hb Hprio) as Hlt.
  assert (Hina : a ∈ dequeue_order ins).
  { rewrite dequeue_order_perm. apply list_elem_of_lookup. eauto. }
  assert (Hinb : b ∈ dequeue_order ins).
  { rewrite dequeue_order_perm. apply list_elem_of_lookup. eauto. }
  apply list_elem_of_lookup in Hina as [i' Hi'].
  apply list_elem_of_lookup in Hinb as [j' Hj'].
  destruct (Nat.lt_trichotomy i' j') as [H|[H|H]].
  - exists i', j'. auto.
  - subst j'. rewrite Hi' in Hj'. injection Hj' as ->. lia.
  - pose proof (StronglySorted_lookup dispatch_le _ (dequeue_order_sorted ins)
                  j' i' b a H Hj' Hi') as [Hd|[_ Hd]].
    + rewrite Hprio in Hd. lia.
    + lia.
Qed.

(** Four tasks as in P1 of the specification, one per priority and two
    more, put in an interleaved order with growing creation times. *)
Lemma dequeue_by_priority_then_creation_time_witness :
  let ins := [queued_task "n1" NORMAL 10; queued_task "l1" LOW 20;
              queued_task "u1" URGENT 30; queued_task "n2" NORMAL 40;
              queued_task "h1" HIGH 50; queued_task "u2" URGENT 60] in
  arrival_ordered ins = true
  /\ dequeue_order ins =
       [queued_task "u1" URGENT 30; queued_task "u2" URGENT 60;
        queued_task "h1" HIGH 50; queued_task "n1" NORMAL 10;
        queued_task "n2" NORMAL 40; queued_task "l1" LOW 20]
  /\ fifo_within_priority ins.
Proof.
  intros ins.
  split; [reflexivity|]. split; [reflexivity|].
  apply (dequeue_by_priority_then_creation_time ins). reflexivity.
Defined.

(** C5 (as stated, refuted).  Insertion order is not what decides within
    a priority: of two [NORMAL] tasks, the one put second leaves first
    when it was created earlier, as a task put back after a failed
    attempt is. *)
Lemma later_insertion_dequeued_first :
  ~ fifo_within_priority [queued_task "b" NORMAL 2; queued_task "a" NORMAL 1].
Proof.
  intros H.
  destruct (H 0%nat 1%nat (queued_task "b" NORMAL 2) (queued_task "a" NORMAL 1))
    as (i & j & Hij & Hi & Hj); try reflexivity; [lia|].
  assert (E : dequeue_order [queued_task "b" NORMAL 2; queued_task "a" NORMAL 1]
              = [queued_task "a" NORMAL 1; queued_task "b" NORMAL 2]) by reflexivity.
  rewrite E in Hi, Hj.
  destruct i as [|[|i]]; simpl in Hi; try discriminate.
  destruct j as [|[|j]]; simpl in Hj; try discriminate; lia.
Qed.

(** Tasks of one priority created at the same instant do not keep their
    order of insertion either. *)
Example equal_creation_time_not_fifo :
  dequeue_order [queued_task "a" NORMAL 7; queued_task "b" NORMAL 7;
                 queued_task "c" NORMAL 7; queued_task "d" NORMAL 7]
  = [queued_task "a" NORMAL 7; queued_task "c" NORMAL 7;
     queued_task "b" NORMAL 7; queued_task "d" NORMAL 7].
Proof. reflexivity. Qed.

End dispatch_order.
(** * The file filter *)

Module filter_facts.
Import FileFilter FilterSpec.

Lemma then_block_fall k : then_block fall_through k = k.
Proof. reflexivity. Qed.

Lemma then_block_return b k : then_block (Py.Ok (Some b)) k = Py.Ok b.
Proof. reflexivity. Qed.

Lemma then_gates a1 a2 a3 a4 a5 a6 :
  then_block (gate a1) (then_block (gate a2) (then_block (gate a3)
    (then_block (gate a4) (then_block (gate a5) (then_block (gate a6) (mret true))))))
  = Py.Ok (a1 && a2 && a3 && a4 && a5 && a6).
Proof. destruct a1, a2, a3, a4, a5, a6; reflexivity. Qed.

Lemma elem_of_lower_existsb (x : string) (l : list string) :
  bool_decide (x ∈ map lower l) = existsb (fun e => String.eqb (lower e) x) l.
Proof.
  induction l as [|e l IH]; [reflexivity|].
  cbn [map existsb]. rewrite <- IH.
  destruct (String.eqb (lower e) x) eqn:E; cbn [orb].
  - apply String.eqb_eq in E. apply bool_decide_eq_true. rewrite E. left.
  - apply String.eqb_neq in E. apply bool_decide_ext.
    rewrite elem_of_cons. split; [intros [?|?]; [congruence|assumption]|intros; right; assumption].
Qed.

Lemma check_extension_gate f p :
  check_extension f p =
  gate (criterion (configured_list (extensions f)) (extension_matches p)).
Proof.
  unfold check_extension, configured_list.
  destruct (truthy_list (extensions f)) eqn:E; [|reflexivity].
  destruct (extensions f) as [exts|]; [|discriminate]. simpl.
  rewrite elem_of_lower_existsb. reflexivity.
Qed.

Lemma check_size_gate env f p :
  check_size env f p =
  gate (match fs_size env p with
        | Some size =>
            criterion (configured_bound (min_size f)) (fun m => m <=? size)
            && criterion (configured_bound (max_size f)) (fun m => size <=? m)
        | None => false
        end).
Proof.
  unfold check_size, configured_bound.
  destruct (fs_size env p) as [size|]; [|reflexivity]. simpl.
  destruct (min_size f) as [m|], (max_size f) as [M|]; simpl;
    repeat match goal with
           | |- context [negb (?a =? 0)] => destruct (a =? 0) eqn:?; simpl
           | |- context [?a <? ?b] => destruct (Z.ltb_spec a b); simpl
           | |- context [?a >? ?b] => destruct (Z.gtb_spec a b); simpl
           | |- context [?a <=? ?b] => destruct (Z.leb_spec a b); simpl
           end; try reflexivity; lia.
Qed.

Lemma check_date_gate env f p :
  check_date env f p =
  gate (match fs_mtime env p with
        | Some mtime =>
            criterion (min_date f) (fun d => d <=? mtime)
            && criterion (max_date f) (fun d => mtime <=? d)
        | None => false
        end).
Proof.
  unfold check_date.
  destruct (fs_mtime env p) as [mtime|]; [|reflexivity]. simpl.
  destruct (min_date f) as [m|], (max_date f) as [M|]; simpl;
    repeat match goal with
           | |- context [?a <? ?b] => destruct (Z.ltb_spec a b); simpl
           | |- context [?a >? ?b] => destruct (Z.gtb_spec a b); simpl
           | |- context [?a <=? ?b] => destruct (Z.leb_spec a b); simpl
           end; try reflexivity; lia.
Qed.

Lemma check_name_gate env f p :
  check_name env f p =
  gate (criterion (name_pattern f) (fun pat => re_search env pat (pathlib.name p))).
Proof.
  unfold check_name. destruct (name_pattern f) as [pat|]; [|reflexivity]. simpl.
  destruct (re_search env pat (pathlib.name p)); reflexivity.
Qed.

Lemma check_exclude_paths_gate env excl p :
  check_exclude_paths env excl p =
  gate (forallb (fun ex => negb (excluded_by env p ex)) excl).
Proof.
  induction excl as [|ex excl IH]; [reflexivity|].
  simpl. unfold excluded_by at 1.
  destruct (fs_resolve env ex) as [e|]; simpl; [|exact IH].
  destruct (fs_resolve env p) as [r|]; simpl; [|exact IH].
  destruct (bool_decide (e ∈ pathlib.parents r)); simpl; [reflexivity|].
  destruct (bool_decide (r = e)); simpl; [reflexivity|exact IH].
Qed.

Lemma check_exclude_patterns_gate env pats s :
  check_exclude_patterns env pats s =
  gate (forallb (fun pat => negb (re_search env pat s)) pats).
Proof.
  induction pats as [|pat pats IH]; [reflexivity|].
  simpl. destruct (re_search env pat s); simpl; [reflexivity|exact IH].
Qed.

(** [matches] never raises and decides exactly the criteria. *)
Lemma matches_passes env f p : matches env f p = Py.Ok (passes env f p).
Proof.
  unfold matches, passes.
  rewrite check_extension_gate, check_size_gate, check_date_gate, check_name_gate,
    check_exclude_paths_gate, check_exclude_patterns_gate.
  rewrite then_gates. f_equal.
  destruct (fs_size env p), (fs_mtime env p); simpl;
    repeat match goal with
           | |- context [@criterion ?T ?a ?b] => destruct (@criterion T a b); simpl
           | |- context [forallb ?a ?b] => destruct (forallb a b); simpl
           end; reflexivity.
Qed.

Lemma filter_files_filter env f ps :
  filter_files env f ps = Py.Ok (List.filter (passes env f) ps).
Proof.
  induction ps as [|p ps IH]; [reflexivity|].
  simpl. rewrite matches_passes, IH. simpl.
  destruct (passes env f p); reflexivity.
Qed.

End filter_facts.

Module filter_claims.
Import FileFilter FilterSpec filter_facts.



(** C10.  A size bound of [0] is not a bound: a filter with [max_size = 0]
    (or [min_size = 0]) accepts the paths the filter without that bound
    accepts, and with [max_size = 0] and no least size the size check lets
    a file of any size through. *)
Theorem zero_size_bound_is_unset (env : Env) (f : FileFilter.t) (p : Path) :
  (max_size f = Some 0 -> matches env f p = matches env (set_max_size None f) p)
  /\ (min_size f = Some 0 -> matches env f p = matches env (set_min_size None f) p)
  /\ (max_size f = Some 0 -> truthy_int (min_size f) = false ->
      forall size, fs_size env p = Some size -> check_size env f p = fall_through).
Proof.
  split; [|split].
  - intros H. rewrite !matches_passes. unfold passes. simpl. rewrite H. reflexivity.
  - intros H. rewrite !matches_passes. unfold passes. simpl. rewrite H. reflexivity.
  - intros HM Hm size Hsize. unfold check_size. rewrite Hsize, HM, Hm. reflexivity.
Qed.

(** A file of 100 MB passes the filter whose greatest size is [0]. *)
Lemma zero_size_bound_is_unset_witness :
  max_size Sample.max_zero_filter = Some 0
  /\ matches Sample.world Sample.max_zero_filter Sample.large = Py.Ok true
  /\ check_size Sample.world Sample.max_zero_filter Sample.large = fall_through.
Proof.
  destruct (zero_size_bound_is_unset Sample.world Sample.max_zero_filter Sample.large)
    as (Hmax & _ & Hcheck).
  split; [reflexivity|]. split.
  - rewrite Hmax; reflexivity.
  - apply (Hcheck eq_refl eq_refl (100 * 1024 * 1024)). reflexivity.
Defined.

End filter_claims.
(** * The scheduler: adding tasks *)

Module add_task_facts.
Import BatchProcessor.

Lemma alter_snoc {A : Type} (f : A -> A) (l : list A) (x : A) :
  alter f (length l) (l ++ [x]) = l ++ [f x].
Proof. induction l as [|a l IH]; simpl; [reflexivity|]. f_equal. exact IH. Qed.

Lemma truthy_str_Some (h : string) : h <> ""%string -> truthy_str (Some h) = true.
Proof.
  intros Hne. simpl. destruct (String.eqb h "") eqn:E; [|reflexivity].
  apply String.eqb_eq in E. contradiction.
Qed.

Section AddTask.

Context (env : Env) (time_time datetime_now : Z) (input : Path) (output : option Path)
        (prio : TaskPriority) (retries : Z) (s : t).

Local Abbreviation task := (BatchTask.new env time_time datetime_now input output prio retries).
Local Abbreviation s' := ((add_task env time_time datetime_now input output prio retries s).1).

Lemma add_task_ref :
  (add_task env time_time datetime_now input output prio retries s).2 = length (objects s).
Proof. unfold add_task. case_match; reflexivity. Qed.

Lemma add_task_queued :
  Runs.fresh env time_time datetime_now input output prio retries s ->
  objects s' = objects s ++ [BatchTask.set_status QUEUED task]
  /\ tasks s' = <[BatchTask.task_id task := length (objects s)]> (tasks s)
  /\ task_queue s' ≡ₚ length (objects s) :: task_queue s
  /\ BatchStatistics.total_tasks (statistics s') = BatchStatistics.total_tasks (statistics s) + 1
  /\ BatchStatistics.cancelled_tasks (statistics s') = BatchStatistics.cancelled_tasks (statistics s)
  /\ event_bus s' =
       event_bus s ++ [mkEvent CONVERSION_STARTED
                         [("task_id", Some (BatchTask.task_id task));
                          ("input_file", Some (pathlib.str input))]%string
                         (Some "BatchProcessor"%string)]
  /\ duplicate_hashes s' =
       (if truthy_str (BatchTask.file_hash task)
        then {[default ""%string (BatchTask.file_hash task)]} ∪ duplicate_hashes s
        else duplicate_hashes s).
Proof.
  intros Hfresh. unfold Runs.fresh in Hfresh. unfold add_task.
  cbn [duplicate_hashes set_objects]. rewrite Hfresh.
  destruct (truthy_str (BatchTask.file_hash task)); cbn;
    rewrite alter_snoc; repeat split; try reflexivity;
    apply heap_facts.heappush_perm.
Qed.

Lemma add_task_duplicate h :
  BatchTask.file_hash task = Some h -> h <> ""%string -> h ∈ duplicate_hashes s ->
  objects s' = objects s ++
                 [BatchTask.set_error_message (Some "Duplicate file"%string)
                    (BatchTask.set_status CANCELLED task)]
  /\ tasks s' = tasks s
  /\ task_queue s' = task_queue s
  /\ BatchStatistics.total_tasks (statistics s') = BatchStatistics.total_tasks (statistics s)
  /\ BatchStatistics.cancelled_tasks (statistics s')
     = BatchStatistics.cancelled_tasks (statistics s) + 1
  /\ event_bus s' = event_bus s
  /\ duplicate_hashes s' = duplicate_hashes s.
Proof.
  intros Hh Hne Hin. unfold add_task.
  cbn [duplicate_hashes set_objects].
  rewrite Hh, (truthy_str_Some h Hne). cbn [default andb].
  rewrite bool_decide_eq_true_2 by exact Hin.
  cbn. rewrite !alter_snoc. repeat split; reflexivity.
Qed.

End AddTask.
End add_task_facts.

Module add_task_claims.
Import BatchProcessor add_task_facts.

(** C1 (what the code does).  Two tasks with the same fingerprint,
    not seen before, are added: the first is [QUEUED] and is the one task
    the queue gains, the second is [CANCELLED] with the message
    "Duplicate file" and [cancelled_tasks] counts it; [total_tasks]
    however grows by one only, the duplicate returns before it is
    counted. *)
Theorem duplicate_is_cancelled_but_not_in_total
    (env : Env) (s : t) (h : string)
    (t1 d1 : Z) (in1 : Path) (out1 : option Path) (p1 : TaskPriority) (m1 : Z)
    (t2 d2 : Z) (in2 : Path) (out2 : option Path) (p2 : TaskPriority) (m2 : Z) :
  BatchTask.file_hash (BatchTask.new env t1 d1 in1 out1 p1 m1) = Some h ->
  BatchTask.file_hash (BatchTask.new env t2 d2 in2 out2 p2 m2) = Some h ->
  h <> ""%string ->
  h ∉ duplicate_hashes s ->
  let first := add_task env t1 d1 in1 out1 p1 m1 s in
  let second := add_task env t2 d2 in2 out2 p2 m2 first.1 in
  first.2 <> second.2
  /\ status_of second.1 first.2 = Some QUEUED
  /\ status_of second.1 second.2 = Some CANCELLED
  /\ BatchTask.error_message <$> objects second.1 !! second.2
     = Some (Some "Duplicate file"%string)
  /\ task_queue second.1 ≡ₚ first.2 :: task_queue s
  /\ BatchStatistics.cancelled_tasks (statistics second.1)
     = BatchStatistics.cancelled_tasks (statistics s) + 1
  /\ BatchStatistics.total_tasks (statistics second.1)
     = BatchStatistics.total_tasks (statistics s) + 1.
Proof.
  intros Hh1 Hh2 Hne Hnew first second.
  assert (Hfresh : Runs.fresh env t1 d1 in1 out1 p1 m1 s).
  { unfold Runs.fresh. rewrite Hh1. cbn [default].
    rewrite bool_decide_eq_false_2 by exact Hnew. apply andb_false_r. }
  destruct (add_task_queued env t1 d1 in1 out1 p1 m1 s Hfresh)
    as (Hobj1 & _ & Hq1 & Htot1 & Hcan1 & _ & Hdup1).
  fold first in Hobj1, Hq1, Htot1, Hcan1, Hdup1.
  assert (Hseen : h ∈ duplicate_hashes first.1).
  { rewrite Hdup1, Hh1, (truthy_str_Some h Hne). cbn [default].
    apply elem_of_union. left. apply elem_of_singleton. reflexivity. }
  destruct (add_task_duplicate env t2 d2 in2 out2 p2 m2 first.1 h Hh2 Hne Hseen)
    as (Hobj2 & _ & Hq2 & Htot2 & Hcan2 & _).
  fold second in Hobj2, Hq2, Htot2, Hcan2.
  assert (Hr1 : first.2 = length (objects s)) by apply add_task_ref.
  assert (Hr2 : second.2 = S (length (objects s))).
  { unfold second. rewrite add_task_ref, Hobj1, length_app. simpl. lia. }
  split; [lia|].
  unfold status_of. rewrite Hobj2, Hobj1, Hr1, Hr2.
  split.
  { rewrite lookup_app_l by (rewrite length_app; simpl; lia).
    rewrite lookup_app_r by lia. rewrite Nat.sub_diag. reflexivity. }
  split.
  { rewrite lookup_app_r by (rewrite length_app; simpl; lia).
    rewrite length_app. simpl.
    replace (S (length (objects s)) - (length (objects s) + 1))%nat with 0%nat by lia.
    reflexivity. }
  split.
  { rewrite lookup_app_r by (rewrite length_app; simpl; lia).
    rewrite length_app. simpl.
    replace (S (length (objects s)) - (length (objects s) + 1))%nat with 0%nat by lia.
    reflexivity. }
  split; [rewrite Hq2, Hq1; reflexivity|].
  split; lia.
Qed.

(** On a processor just built, two files with the same first bytes:
    [total_tasks] is 1 where both tasks were to be counted. *)
Lemma duplicate_is_cancelled_but_not_in_total_witness :
  let s0 := init 4 false true false in
  let first := add_task Sample.world 1700000000000000 1700000000000100
                 Sample.small None NORMAL 3 s0 in
  let second := add_task Sample.world 1700000000050000 1700000000050100
                  Sample.copy None NORMAL 3 first.1 in
  status_of second.1 first.2 = Some QUEUED
  /\ status_of second.1 second.2 = Some CANCELLED
  /\ BatchStatistics.cancelled_tasks (statistics second.1) = 1
  /\ BatchStatistics.total_tasks (statistics second.1) = 1.
Proof.
  intros s0 first second.
  destruct (duplicate_is_cancelled_but_not_in_total Sample.world s0 "md5:%PDF small"
              1700000000000000 1700000000000100 Sample.small None NORMAL 3
              1700000000050000 1700000000050100 Sample.copy None NORMAL 3)
    as (_ & H1 & H2 & _ & _ & H3 & H4).
  - reflexivity.
  - reflexivity.
  - discriminate.
  - apply not_elem_of_empty.
  - split; [exact H1|]. split; [exact H2|]. split; [exact H3|exact H4].
Defined.

End add_task_claims.

Module add_files_claims.
Import BatchProcessor FilterSpec.

Lemma max_retries_unbound : load_int [] "max_retries" = Py.Raise (Py.NameError "max_retries").
Proof. reflexivity. Qed.

Lemma add_files_loop_first env clock i p ps dir prio created s :
  exists e,
    add_files_loop env clock i (p :: ps) dir prio created s = Py.Raise e
    /\ (dir = None \/ pathlib.name p <> ""%string -> e = Py.NameError "max_retries").
Proof.
  cbn [add_files_loop]. destruct dir as [d|].
  - unfold pathlib.with_suffix.
    destruct (String.eqb (pathlib.name p) "") eqn:E.
    + eexists. split; [reflexivity|].
      intros [H|H]; [discriminate|]. apply String.eqb_eq in E. contradiction.
    + eexists. split; [reflexivity|]. reflexivity.
  - eexists. split; [reflexivity|]. reflexivity.
Qed.

(** Without a path left, [add_files] returns the empty list and changes
    nothing. *)
Lemma add_files_nothing env clock ps dir flt prio s :
  survivors env flt ps = [] ->
  add_files env clock ps dir flt prio s = Py.Ok (s, []).
Proof.
  intros H. unfold add_files, survivors in *. destruct flt as [f|].
  - rewrite filter_facts.filter_files_filter. cbn. rewrite H. reflexivity.
  - cbn. rewrite H. reflexivity.
Qed.

(** C2 (what the code does).  As soon as one path is left after the
    filtering, [add_files] raises: the keyword argument
    [max_retries=max_retries] of its call of [add_task] reads a name that
    is bound nowhere, so the first round of the loop ends in a
    [NameError] before any task is created (a [ValueError] comes first
    when an output directory is given and the path has no name). *)
Theorem add_files_raises_on_first_path
    (env : Env) (clock : nat -> Z * Z) (ps : list Path) (dir : option Path)
    (flt : option FileFilter.t) (prio : TaskPriority) (s : t) (p : Path) (rest : list Path) :
  survivors env flt ps = p :: rest ->
  exists e,
    add_files env clock ps dir flt prio s = Py.Raise e
    /\ (dir = None \/ pathlib.name p <> ""%string -> e = Py.NameError "max_retries").
Proof.
  intros H. unfold add_files, survivors in *.
  destruct flt as [f|].
  - rewrite filter_facts.filter_files_filter. cbn [mbind result_bind Py.bind].
    rewrite H. apply add_files_loop_first.
  - cbn [mbind result_bind Py.bind mret result_ret]. rewrite H. apply add_files_loop_first.
Qed.

(** One existing file, an output directory, no filter. *)
Lemma add_files_raises_on_first_path_witness :
  add_files Sample.world (fun _ => (1700000000000000, 1700000000000100))
    [Sample.small] (Some (mkPath true ["out"%string])) None NORMAL Runs.fresh_processor
  = Py.Raise (Py.NameError "max_retries").
Proof.
  destruct (add_files_raises_on_first_path Sample.world
              (fun _ => (1700000000000000, 1700000000000100))
              [Sample.small] (Some (mkPath true ["out"%string])) None NORMAL
              Runs.fresh_processor Sample.small [] eq_refl) as (e & He & Hname).
  rewrite He. f_equal. apply Hname. right. discriminate.
Defined.

End add_files_claims.

Module identity_claims.
Import BatchProcessor.

(** Two identifiers are the same exactly when the clock was read in the
    same millisecond. *)
Lemma default_task_id_eq t1 t2 :
  BatchTask.default_task_id t1 = BatchTask.default_task_id t2
  <-> t1 `quot` 1000 = t2 `quot` 1000.
Proof.
  unfold BatchTask.default_task_id. split.
  - intros H. apply String.app_inj in H. apply pretty_Z_inj in H. exact H.
  - intros ->. reflexivity.
Qed.

(** The identifier of a new task is the one its default factory made
    from the clock. *)
Lemma new_task_id env time_time datetime_now input output prio retries :
  BatchTask.task_id (BatchTask.new env time_time datetime_now input output prio retries)
  = BatchTask.default_task_id time_time.
Proof.
  unfold BatchTask.new, BatchTask.post_init.
  destruct (fs_exists env _); [|reflexivity]. cbn [BatchTask.input_file].
  destruct (fs_read env input); reflexivity.
Qed.

(** C8 (what the code does).  Two different files added 333 microseconds
    apart are two tasks, both queued, with one and the same identifier;
    the task table, keyed by identifier, holds the second only. *)
Theorem task_ids_collide_within_a_millisecond :
  let s := Runs.same_millisecond in
  reachable Sample.world s
  /\ (BatchTask.input_file <$> objects s !! 0%nat) = Some Sample.small
  /\ (BatchTask.input_file <$> objects s !! 1%nat) = Some Sample.medium
  /\ status_of s 0 = Some QUEUED
  /\ status_of s 1 = Some QUEUED
  /\ task_id_of s 0 = "task_1700000000000"%string
  /\ task_id_of s 1 = "task_1700000000000"%string
  /\ tasks s !! "task_1700000000000"%string = Some 1%nat
  /\ size (tasks s) = 1%nat.
Proof.
  split.
  { unfold Runs.same_millisecond, Runs.add.
    eapply reachable_step; [eapply reachable_step; [apply reachable_init|]|];
      apply step_add_task. }
  vm_compute. repeat split; reflexivity.
Qed.

End identity_claims.

Module statistics_claims.
Import BatchProcessor.

(** C3 (what the code does).  Two states a processor reaches in which
    the settled tasks outnumber [total_tasks]: after a file and two
    duplicates of it were added (each duplicate is counted as cancelled
    but not in the total), and after a queued task was cancelled by
    [cancel_task] and then again by [cancel_all] (the task is still in
    the queue and is counted a second time). *)
Theorem settled_tasks_can_exceed_total :
  (reachable Sample.world Runs.three_duplicates
   /\ BatchStatistics.total_tasks (statistics Runs.three_duplicates) = 1
   /\ Runs.settled Runs.three_duplicates = 2)
  /\ (reachable Sample.world Runs.cancelled_twice
      /\ BatchStatistics.total_tasks (statistics Runs.cancelled_twice) = 1
      /\ Runs.settled Runs.cancelled_twice = 2).
Proof.
  split; split.
  - unfold Runs.three_duplicates, Runs.add.
    repeat (eapply reachable_step; [|apply step_add_task]).
    apply reachable_init.
  - split; reflexivity.
  - unfold Runs.cancelled_twice, Runs.add.
    eapply reachable_step; [|apply step_cancel_all].
    eapply reachable_step; [|apply step_cancel_task].
    eapply reachable_step; [|apply step_add_task].
    apply reachable_init.
  - split; reflexivity.
Qed.

(** [success_rate] is [0] while nothing was added. *)
Lemma success_rate_zero (st : BatchStatistics.t) :
  BatchStatistics.total_tasks st = 0 -> BatchStatistics.success_rate st = 0%Q.
Proof. intros H. unfold BatchStatistics.success_rate. rewrite H. reflexivity. Qed.

End statistics_claims.
(** * The scheduler: what every step preserves *)

Module frame.
Import BatchProcessor.

Lemma same_identity_refl x : same_identity x x.
Proof. repeat split. Qed.

Lemma same_identity_trans x y z : same_identity x y -> same_identity y z -> same_identity x z.
Proof. unfold same_identity. intros (?&?&?&?&?) (?&?&?&?&?). repeat split; congruence. Qed.

Lemma evolves_refl s : evolves s s.
Proof.
  split.
  - exists []. rewrite app_nil_r. split; [reflexivity|constructor].
  - lia.
  - intros r x H. exists x. split; [exact H|apply same_identity_refl].
Qed.

Lemma evolves_trans s1 s2 s3 : evolves s1 s2 -> evolves s2 s3 -> evolves s1 s3.
Proof.
  intros [(l1 & E1 & F1) T1 O1] [(l2 & E2 & F2) T2 O2]. split.
  - exists (l1 ++ l2). rewrite E2, E1, app_assoc. split; [reflexivity|].
    apply Forall_app. split; assumption.
  - lia.
  - intros r x H. destruct (O1 r x H) as (y & Hy & Ixy).
    destruct (O2 r y Hy) as (z & Hz & Iyz).
    exists z. split; [exact Hz|]. eapply same_identity_trans; eassumption.
Qed.

(** A change of anything but the events, the statistics and the objects *)
Lemma evolves_same s x y :
  evolves s x ->
  event_bus y = event_bus x -> statistics y = statistics x -> objects y = objects x ->
  evolves s y.
Proof.
  intros [E T O] He Hs Ho. split.
  - rewrite He. exact E.
  - rewrite Hs. exact T.
  - rewrite Ho. exact O.
Qed.

Lemma evolves_update_task s x r f :
  evolves s x -> (forall t, same_identity t (f t)) -> evolves s (update_task r f x).
Proof.
  intros H Hf. eapply evolves_trans; [exact H|]. split.
  - exists []. rewrite app_nil_r. split; [reflexivity|constructor].
  - cbn. lia.
  - intros r' t Ht. cbn [objects update_task set_objects].
    destruct (decide (r = r')) as [->|Hne].
    + exists (f t). rewrite list_lookup_alter_eq, Ht. split; [reflexivity|apply Hf].
    + exists t. rewrite list_lookup_alter_ne by exact Hne.
      split; [exact Ht|apply same_identity_refl].
Qed.

Lemma evolves_update_statistics s x f :
  evolves s x ->
  (forall st, BatchStatistics.total_tasks st <= BatchStatistics.total_tasks (f st)) ->
  evolves s (update_statistics f x).
Proof.
  intros [E T O] Hf. split; [exact E| |exact O].
  cbn. specialize (Hf (statistics x)). lia.
Qed.

Lemma evolves_emit s x ty d :
  evolves s x ->
  notification (mkEvent ty d (Some "BatchProcessor"%string)) ->
  evolves s (emit ty d x).
Proof.
  intros [(l & E & F) T O] Hty. split; [|exact T|exact O].
  exists (l ++ [mkEvent ty d (Some "BatchProcessor"%string)]).
  cbn. rewrite E, app_assoc. split; [reflexivity|].
  apply Forall_app. split; [exact F|]. constructor; [exact Hty|constructor].
Qed.

Lemma evolves_alloc s x task :
  evolves s x -> evolves s (set_objects (objects x ++ [task]) x).
Proof.
  intros [E T O]. split; [exact E|exact T|].
  intros r t Ht. destruct (O r t Ht) as (y & Hy & I).
  exists y. split; [|exact I]. cbn. apply lookup_app_l_Some. exact Hy.
Qed.

Lemma evolves_set_task_queue s x v : evolves s x -> evolves s (set_task_queue v x).
Proof. intros [E T O]. split; [exact E|exact T|exact O]. Qed.

Lemma evolves_set_executor s x v : evolves s x -> evolves s (set_executor v x).
Proof. intros [E T O]. split; [exact E|exact T|exact O]. Qed.

Lemma evolves_set_futures s x v : evolves s x -> evolves s (set_futures v x).
Proof. intros [E T O]. split; [exact E|exact T|exact O]. Qed.

Lemma evolves_set_async_tasks s x v : evolves s x -> evolves s (set_async_tasks v x).
Proof. intros [E T O]. split; [exact E|exact T|exact O]. Qed.

Lemma evolves_set_is_paused s x v : evolves s x -> evolves s (set_is_paused v x).
Proof. intros [E T O]. split; [exact E|exact T|exact O]. Qed.

Lemma evolves_set_is_cancelled s x v : evolves s x -> evolves s (set_is_cancelled v x).
Proof. intros [E T O]. split; [exact E|exact T|exact O]. Qed.

Lemma evolves_set_pause_event s x v : evolves s x -> evolves s (set_pause_event v x).
Proof. intros [E T O]. split; [exact E|exact T|exact O]. Qed.

Lemma evolves_set_tasks s x v : evolves s x -> evolves s (set_tasks v x).
Proof. intros [E T O]. split; [exact E|exact T|exact O]. Qed.

Lemma evolves_set_duplicate_hashes s x v : evolves s x -> evolves s (set_duplicate_hashes v x).
Proof. intros [E T O]. split; [exact E|exact T|exact O]. Qed.

Lemma evolves_set_async_loop s x v : evolves s x -> evolves s (set_async_loop v x).
Proof. intros [E T O]. split; [exact E|exact T|exact O]. Qed.

Lemma evolves_set_running s x v : evolves s x -> evolves s (set_running v x).
Proof. intros [E T O]. split; [exact E|exact T|exact O]. Qed.

Lemma evolves_set_future_objects s x v : evolves s x -> evolves s (set_future_objects v x).
Proof. intros [E T O]. split; [exact E|exact T|exact O]. Qed.

Lemma evolves_set_threads s x v : evolves s x -> evolves s (set_threads v x).
Proof. intros [E T O]. split; [exact E|exact T|exact O]. Qed.

Lemma evolves_let s v (b : t -> t) :
  evolves s v -> (forall z, evolves s z -> evolves s (b z)) ->
  evolves s (let z := v in b z).
Proof. intros Hv Hb. exact (Hb v Hv). Qed.

(** One tactic for the bodies of the methods: the state is peeled off
    update by update. *)
Ltac peel :=
  repeat first
    [ assumption
    | apply evolves_refl
    | match goal with
      | |- evolves ?s (let z := ?v in @?b z) =>
          apply (evolves_let s v b);
          [|let z := fresh "z" in let Hz := fresh "Hz" in intros z Hz]
      | |- evolves _ (update_task _ _ _) =>
          apply evolves_update_task; [|intros ?; repeat split; reflexivity]
      | |- evolves _ (update_statistics _ _) =>
          apply evolves_update_statistics; [|intros ?; cbn; lia]
      | |- evolves _ (emit _ _ _) =>
          apply evolves_emit; [|split; [cbn; tauto|eexists _, _; reflexivity]]
      | |- evolves _ (set_objects (objects ?x ++ _) ?x) => apply evolves_alloc
      | |- evolves _ (set_task_queue _ _) => apply evolves_set_task_queue
      | |- evolves _ (set_executor _ _) => apply evolves_set_executor
      | |- evolves _ (set_futures _ _) => apply evolves_set_futures
      | |- evolves _ (set_async_tasks _ _) => apply evolves_set_async_tasks
      | |- evolves _ (set_is_paused _ _) => apply evolves_set_is_paused
      | |- evolves _ (set_is_cancelled _ _) => apply evolves_set_is_cancelled
      | |- evolves _ (set_pause_event _ _) => apply evolves_set_pause_event
      | |- evolves _ (set_tasks _ _) => apply evolves_set_tasks
      | |- evolves _ (set_duplicate_hashes _ _) => apply evolves_set_duplicate_hashes
      | |- evolves _ (set_async_loop _ _) => apply evolves_set_async_loop
      | |- evolves _ (set_running _ _) => apply evolves_set_running
      | |- evolves _ (set_future_objects _ _) => apply evolves_set_future_objects
      | |- evolves _ (set_threads _ _) => apply evolves_set_threads
      | |- evolves _ (BatchProcessor.mark_cancelled _ _) => unfold BatchProcessor.mark_cancelled
      | |- evolves _ (BatchProcessor.processing_floor _) => unfold BatchProcessor.processing_floor
      | |- evolves _ (BatchProcessor.remove_thread _ _) => unfold BatchProcessor.remove_thread
      | |- evolves _ (if _ then _ else _) => case_match
      | |- evolves _ (match _ with _ => _ end) => case_match
      end ].

Lemma evolves_add_task env tt dn input output prio retries s x :
  evolves s x -> evolves s (add_task env tt dn input output prio retries x).1.
Proof. intros H. unfold add_task. case_match; cbn [fst]; peel. Qed.

Lemma evolves_start now s x : evolves s x -> evolves s (start now x).
Proof. intros H. unfold start. peel. Qed.

Lemma evolves_pause s x : evolves s x -> evolves s (pause x).
Proof. intros H. unfold pause. peel. Qed.

Lemma evolves_resume s x : evolves s x -> evolves s (resume x).
Proof. intros H. unfold resume. peel. Qed.

Lemma evolves_cancel_entry s x e : evolves s x -> evolves s (cancel_entry x e).
Proof. intros H. unfold cancel_entry. destruct e. peel. Qed.

Lemma evolves_cancel_entries s l : forall x,
  evolves s x -> evolves s (foldl cancel_entry x l).
Proof.
  induction l as [|e l IH]; intros x H; simpl; [exact H|].
  apply IH, evolves_cancel_entry, H.
Qed.

Lemma evolves_clear_queue s fuel : forall x,
  evolves s x -> evolves s (clear_queue fuel x).
Proof.
  induction fuel as [|fuel IH]; intros x H; simpl; [exact H|].
  repeat case_match; try exact H. apply IH. peel.
Qed.

Lemma evolves_cancel_all s x : evolves s x -> evolves s (cancel_all x).
Proof.
  intros H. unfold cancel_all. cbv zeta. apply evolves_clear_queue.
  repeat (progress (peel; try apply evolves_cancel_entries)).
Qed.

Lemma evolves_cancel_task s x task_id :
  evolves s x -> evolves s (cancel_task task_id x).1.
Proof.
  intros H. unfold cancel_task.
  destruct (live_future x (futures x) task_id) as [[fref fut]|].
  { cbv zeta. cbn [fst]. unfold cancel_registered. peel. }
  destruct (live_future x (async_tasks x) task_id) as [[fref fut]|].
  { cbv zeta. cbn [fst]. unfold cancel_registered. peel. }
  destruct (tasks x !! task_id) as [r|]; [|exact H].
  destruct (bool_decide _); cbn [fst]; peel.
Qed.

Lemma evolves_stop now s x : evolves s x -> evolves s (stop now x).
Proof.
  intros H. unfold stop. cbv zeta.
  apply evolves_update_statistics; [|intros ?; cbn; lia].
  apply evolves_cancel_all. peel.
Qed.

Lemma evolves_handle_task_result now r result s x :
  evolves s x -> evolves s (_handle_task_result now r result x).
Proof. intros H. unfold _handle_task_result. peel. Qed.

Lemma evolves_requeue r delay s x :
  evolves s x -> evolves s (requeue_after_delay r delay x).
Proof. intros H. unfold requeue_after_delay. cbv zeta. peel. Qed.

Lemma evolves_mark_failed now r e s x :
  evolves s x -> evolves s (mark_failed now r e x).
Proof. intros H. unfold mark_failed. peel. Qed.

Lemma evolves_monitor_body now r outcome s x :
  evolves s x -> evolves s (monitor_body now r outcome x).
Proof.
  intros H. unfold monitor_body. cbv zeta. apply evolves_set_futures.
  destruct outcome as [result|e]; [apply evolves_handle_task_result, H|].
  destruct (Py.is_Exception e); [apply evolves_mark_failed, H|exact H].
Qed.

Lemma evolves_monitor_future now r fref waited s x :
  evolves s x -> evolves s (monitor_future now r fref waited x).
Proof.
  intros H. unfold monitor_future.
  destruct (future_objects x !! fref) as [fut|]; [|exact H].
  destruct (Future.result _ fut _ waited) as [outcome|]; [|exact H].
  apply evolves_monitor_body. peel.
Qed.

Lemma evolves_on_complete_body now r outcome s x :
  evolves s x -> evolves s (on_complete_body now r outcome x).
Proof.
  intros H. unfold on_complete_body. cbv zeta. apply evolves_set_async_tasks.
  destruct outcome as [result|e]; [apply evolves_handle_task_result, H|].
  destruct e; try (apply evolves_mark_failed, H). peel.
Qed.

Lemma evolves_on_complete now ce r fref s x :
  evolves s x -> evolves s (on_complete now ce r fref x).
Proof.
  intros H. unfold on_complete.
  destruct (future_objects x !! fref) as [fut|]; [|exact H].
  destruct (Future.result ce fut None 0) as [outcome|]; [|exact H].
  apply evolves_on_complete_body. peel.
Qed.

Lemma evolves_worker_iteration now s x :
  evolves s x -> evolves s (worker_iteration now x).
Proof.
  intros H. unfold worker_iteration, submit. cbv beta iota.
  do 3 (case_match; [exact H|]).
  destruct (PriorityQueue.get _ _) as [[r q']|]; [|exact H].
  peel.
Qed.

Lemma evolves_executor_start fref s x :
  evolves s x -> evolves s (executor_start fref x).
Proof. intros H. unfold executor_start. repeat case_match; try exact H; peel. Qed.

Lemma evolves_executor_finish fref call s x :
  evolves s x -> evolves s (executor_finish fref call x).
Proof. intros H. unfold executor_finish. repeat case_match; try exact H; peel. Qed.

Lemma step_evolves env s s' : step env s s' -> evolves s s'.
Proof.
  destruct 1.
  - apply evolves_add_task, evolves_refl.
  - apply evolves_start, evolves_refl.
  - apply evolves_pause, evolves_refl.
  - apply evolves_resume, evolves_refl.
  - apply evolves_cancel_all, evolves_refl.
  - apply evolves_cancel_task, evolves_refl.
  - apply evolves_stop, evolves_refl.
  - apply evolves_worker_iteration, evolves_refl.
  - apply evolves_executor_start, evolves_refl.
  - apply evolves_executor_finish, evolves_refl.
  - apply evolves_monitor_future, evolves_refl.
  - apply evolves_on_complete, evolves_refl.
  - apply evolves_requeue, evolves_refl.
Qed.

(** Every reachable state comes after the state [__init__] built. *)
Lemma reachable_evolves env s :
  reachable env s ->
  exists max_workers use_processes conversion_func async_conversion_func,
    evolves (init max_workers use_processes conversion_func async_conversion_func) s.
Proof.
  induction 1 as [mw up cf af|s s' _ (mw & up & cf & af & IH) Hstep].
  - exists mw, up, cf, af. apply evolves_refl.
  - exists mw, up, cf, af. eapply evolves_trans; [exact IH|].
    eapply step_evolves. exact Hstep.
Qed.

(** *** Cancelling emits nothing *)

Lemma event_bus_mark_cancelled r x : event_bus (mark_cancelled r x) = event_bus x.
Proof. reflexivity. Qed.

Lemma event_bus_set_future_objects v x : event_bus (set_future_objects v x) = event_bus x.
Proof. reflexivity. Qed.

Lemma event_bus_set_task_queue v x : event_bus (set_task_queue v x) = event_bus x.
Proof. reflexivity. Qed.

Lemma event_bus_set_futures v x : event_bus (set_futures v x) = event_bus x.
Proof. reflexivity. Qed.

Lemma event_bus_set_async_tasks v x : event_bus (set_async_tasks v x) = event_bus x.
Proof. reflexivity. Qed.

Lemma event_bus_set_is_cancelled v x : event_bus (set_is_cancelled v x) = event_bus x.
Proof. reflexivity. Qed.

Lemma event_bus_processing_floor x : event_bus (processing_floor x) = event_bus x.
Proof. reflexivity. Qed.

Ltac same_events :=
  rewrite ?event_bus_mark_cancelled, ?event_bus_set_future_objects,
    ?event_bus_set_task_queue, ?event_bus_set_futures, ?event_bus_set_async_tasks,
    ?event_bus_set_is_cancelled, ?event_bus_processing_floor.

Lemma cancel_entry_events x e : event_bus (cancel_entry x e) = event_bus x.
Proof.
  unfold cancel_entry. destruct e as [task_id fref].
  destruct (future_objects x !! fref) as [fut|]; [|reflexivity].
  destruct (negb (Future.done fut)); [|reflexivity]. cbv zeta.
  destruct (tasks _ !! task_id); same_events; reflexivity.
Qed.

Lemma cancel_entries_events l : forall x, event_bus (foldl cancel_entry x l) = event_bus x.
Proof.
  induction l as [|e l IH]; intros x; simpl; [reflexivity|].
  rewrite IH. apply cancel_entry_events.
Qed.

Lemma clear_queue_events fuel : forall x, event_bus (clear_queue fuel x) = event_bus x.
Proof.
  induction fuel as [|fuel IH]; intros x; simpl; [reflexivity|].
  destruct (PriorityQueue.empty (task_queue x)); [reflexivity|].
  destruct (PriorityQueue.get _ _) as [[r q']|]; [|reflexivity].
  rewrite IH. same_events. reflexivity.
Qed.

Lemma cancel_all_events x : event_bus (cancel_all x) = event_bus x.
Proof.
  unfold cancel_all. cbv zeta. rewrite clear_queue_events. same_events.
  destruct (async_loop _); rewrite ?cancel_entries_events; same_events;
    rewrite ?cancel_entries_events; same_events; reflexivity.
Qed.

Lemma cancel_registered_events x task_id fref fut :
  event_bus (cancel_registered x task_id fref fut) = event_bus x.
Proof.
  unfold cancel_registered. cbv zeta.
  destruct (tasks _ !! task_id); same_events; reflexivity.
Qed.

Lemma cancel_task_events task_id x : event_bus (cancel_task task_id x).1 = event_bus x.
Proof.
  unfold cancel_task.
  destruct (live_future x (futures x) task_id) as [[fref fut]|].
  { cbv zeta. cbn [fst]. same_events. apply cancel_registered_events. }
  destruct (live_future x (async_tasks x) task_id) as [[fref fut]|].
  { cbv zeta. cbn [fst]. same_events. apply cancel_registered_events. }
  destruct (tasks x !! task_id) as [r|]; [|reflexivity].
  destruct (bool_decide _); reflexivity.
Qed.

Lemma on_complete_cancelled_events now r x :
  event_bus (on_complete_body now r (Py.Raise Py.CancelledError) x) = event_bus x.
Proof.
  unfold on_complete_body. cbv zeta. same_events. reflexivity.
Qed.

End frame.
(** * The scheduler: notifications, statistics and identity along a run *)

Module run_facts.
Import BatchProcessor frame.

(** [total_tasks] never decreases. *)
Lemma total_tasks_never_decreases env s s' :
  step env s s' ->
  BatchStatistics.total_tasks (statistics s) <= BatchStatistics.total_tasks (statistics s').
Proof. intros H. apply (ev_total _ _ (step_evolves env s s' H)). Qed.

(** A task keeps its identifier, its input, its priority, its creation
    time and its fingerprint. *)
Lemma identity_never_changes env s s' r x :
  step env s s' ->
  objects s !! r = Some x ->
  exists y, objects s' !! r = Some y /\ same_identity x y.
Proof. intros H. apply (ev_objects _ _ (step_evolves env s s' H)). Qed.

Lemma reachable_events env s : reachable env s -> Forall notification (event_bus s).
Proof.
  intros H. destruct (reachable_evolves env s H) as (mw & up & cf & af & [E _ _]).
  destruct E as (l & -> & Hl). exact Hl.
Qed.

End run_facts.

Module notification_claims.
Import BatchProcessor frame run_facts.

(** C7 (amended).  The scheduler emits three kinds of notification,
    task-started, task-completed and task-failed, each carrying the task
    id; no notification tells that a task was cancelled: [cancel_all],
    [cancel_task] and the cancellation observed by the completion callback
    leave the event bus as it is. *)
Theorem cancelling_emits_no_notification (env : Env) (s : t) :
  reachable env s ->
  Forall notification (event_bus s)
  /\ (forall task_id e, e ∈ event_bus s -> ~ cancel_notification task_id e)
  /\ event_bus (cancel_all s) = event_bus s
  /\ (forall task_id, event_bus (cancel_task task_id s).1 = event_bus s)
  /\ (forall now r,
        event_bus (on_complete_body now r (Py.Raise Py.CancelledError) s) = event_bus s).
Proof.
  intros H. pose proof (reachable_events env s H) as Hall.
  split; [exact Hall|]. split.
  - intros task_id e He [Hty _].
    rewrite Forall_forall in Hall. destruct (Hall e He) as [[K|[K|K]] _]; congruence.
  - split; [apply cancel_all_events|].
    split; [intros; apply cancel_task_events|].
    intros; apply on_complete_cancelled_events.
Qed.

Lemma cancelled_once_reachable : reachable Sample.world Runs.cancelled_once.
Proof.
  unfold Runs.cancelled_once, Runs.add.
  eapply reachable_step; [|apply step_cancel_task].
  eapply reachable_step; [|apply step_add_task].
  apply reachable_init.
Qed.

(** A queued task is cancelled: the one event on the bus is the one
    emitted when the task was added. *)
Lemma cancelling_emits_no_notification_witness :
  status_of Runs.cancelled_once 0 = Some CANCELLED
  /\ Forall notification (event_bus Runs.cancelled_once)
  /\ event_bus (cancel_all Runs.cancelled_once) = event_bus Runs.cancelled_once.
Proof.
  destruct (cancelling_emits_no_notification Sample.world Runs.cancelled_once
              cancelled_once_reachable) as (Hall & _ & Hcancel & _).
  split; [reflexivity|]. split; [exact Hall|exact Hcancel].
Defined.

(** C7 (as stated, refuted).  The task [task_1700000000000] was
    cancelled by [cancel_task] and has the status [CANCELLED], and no event
    on the bus tells so. *)
Lemma cancelled_task_without_notification :
  reachable Sample.world Runs.cancelled_once
  /\ status_of Runs.cancelled_once 0 = Some CANCELLED
  /\ task_id_of Runs.cancelled_once 0 = "task_1700000000000"%string
  /\ ~ exists e, e ∈ event_bus Runs.cancelled_once
                 /\ cancel_notification "task_1700000000000" e.
Proof.
  split; [apply cancelled_once_reachable|].
  split; [reflexivity|]. split; [reflexivity|].
  intros (e & He & Hty & _).
  assert (E : event_bus Runs.cancelled_once =
              [mkEvent CONVERSION_STARTED
                 [("task_id", Some "task_1700000000000");
                  ("input_file", Some "/data/small.pdf")]%string
                 (Some "BatchProcessor"%string)]) by reflexivity.
  rewrite E in He. apply list_elem_of_singleton in He. subst e. discriminate.
Qed.

End notification_claims.
(** * The scheduler: failures, retries and the five minute ceiling *)

Module completion_facts.
Import BatchProcessor.

(** The projections of a state after the updates of the source *)
Ltac state_simpl :=
  unfold status_of, task_id_of;
  cbn [max_workers use_processes has_conversion_func use_async task_queue executor
       futures async_tasks is_paused is_cancelled pause_event tasks statistics
       duplicate_hashes async_loop running objects future_objects event_bus threads
       set_task_queue set_executor set_futures set_async_tasks set_is_paused
       set_is_cancelled set_pause_event set_tasks set_statistics set_duplicate_hashes
       set_async_loop set_running set_objects set_future_objects set_event_bus
       set_threads update_task update_statistics emit mark_cancelled processing_floor
       remove_thread mark_failed fst snd].

Lemma lookup_alter_Some {A : Type} (f : A -> A) (l : list A) (r : nat) (x : A) :
  l !! r = Some x -> alter f r l !! r = Some (f x).
Proof. intros H. rewrite list_lookup_alter_eq, H. reflexivity. Qed.

Lemma not_done_result fut waited :
  Future.done fut = false ->
  result_timeout <= waited ->
  Future.result Py.FutureCancelledError fut (Some result_timeout) waited
  = Some (Py.Raise Py.TimeoutError).
Proof.
  intros Hdone Hw. unfold Future.result, Future.done in *.
  assert (E : (waited >=? result_timeout) = true) by (apply Z.geb_le; exact Hw).
  destruct (Future.st fut); try discriminate; rewrite E; reflexivity.
Qed.

Lemma not_done_blocked fut waited :
  Future.done fut = false ->
  waited < result_timeout ->
  Future.result Py.FutureCancelledError fut (Some result_timeout) waited = None.
Proof.
  intros Hdone Hw. unfold Future.result, Future.done in *.
  assert (E : (waited >=? result_timeout) = false).
  { destruct (waited >=? result_timeout) eqn:E; [|reflexivity].
    apply Z.geb_le in E. lia. }
  destruct (Future.st fut); try discriminate; rewrite E; reflexivity.
Qed.

Lemma remove_first_subset th l x : x ∈ remove_first th l -> x ∈ l.
Proof.
  induction l as [|y l IH]; simpl; [auto|].
  destruct (decide (y = th)).
  - intros H. right. exact H.
  - intros H. apply elem_of_cons in H as [->|H]; [left|right; auto].
Qed.

End completion_facts.

Module timeout_claims.
Import BatchProcessor completion_facts.

(** C6 (amended).  A unit of work of the pool that is not done after
    the five minutes its monitor thread waits is a failure that is not
    retried: whatever [retry_count] and [max_retries] are, the task goes
    to [FAILED] at once with the (empty) message of the timeout,
    [failed_tasks] grows by one, and the task is neither marked
    [RETRYING] nor put back into the queue, no timer is started for it and
    nothing is emitted. *)
Theorem timeout_fails_without_retry
    (now : Z) (r fref : nat) (waited : Z) (s : t) (task : BatchTask.t) (fut : Future.t) :
  objects s !! r = Some task ->
  future_objects s !! fref = Some fut ->
  Future.done fut = false ->
  result_timeout <= waited ->
  let s' := monitor_future now r fref waited s in
  objects s' !! r =
    Some (BatchTask.set_completed_at (Some now)
            (BatchTask.set_error_message (Some ""%string)
               (BatchTask.set_status FAILED task)))
  /\ status_of s' r = Some FAILED
  /\ BatchStatistics.failed_tasks (statistics s')
     = BatchStatistics.failed_tasks (statistics s) + 1
  /\ BatchStatistics.retry_count (statistics s') = BatchStatistics.retry_count (statistics s)
  /\ task_queue s' = task_queue s
  /\ (forall th, th ∈ threads s' -> th ∈ threads s)
  /\ event_bus s' = event_bus s.
Proof.
  intros Hobj Hfut Hdone Hwait s'. subst s'.
  unfold monitor_future. rewrite Hfut, (not_done_result fut waited Hdone Hwait).
  unfold monitor_body. cbn [Py.is_Exception]. cbv zeta. state_simpl.
  assert (E : alter (BatchTask.set_completed_at (Some now)) r
                (alter (BatchTask.set_error_message (Some (Py.str_exn Py.TimeoutError))) r
                   (alter (BatchTask.set_status FAILED) r (objects s))) !! r
              = Some (BatchTask.set_completed_at (Some now)
                        (BatchTask.set_error_message (Some ""%string)
                           (BatchTask.set_status FAILED task)))).
  { do 3 (apply lookup_alter_Some || idtac). exact Hobj. }
  split; [exact E|]. split; [rewrite E; reflexivity|].
  split; [reflexivity|]. split; [reflexivity|]. split; [reflexivity|].
  split; [|reflexivity].
  intros th. apply remove_first_subset.
Qed.

(** The task of the run [Runs.timed_out]: dispatched, its worker still
    running when the monitor has waited 300 seconds. *)
Lemma timeout_fails_without_retry_witness :
  let before :=
    executor_start 0
      (worker_iteration 1700000001000000
         (start 1700000000500000
            (Runs.add 1700000000000000 Sample.small Runs.fresh_processor))) in
  status_of before 0 = Some PROCESSING
  /\ status_of (monitor_future 1700000301000000 0 0 300 before) 0 = Some FAILED
  /\ task_queue (monitor_future 1700000301000000 0 0 300 before) = [].
Proof.
  intros before.
  destruct (timeout_fails_without_retry 1700000301000000 0 0 300 before
              (BatchTask.set_started_at (Some 1700000001000000)
                 (BatchTask.set_status PROCESSING
                    (BatchTask.set_status QUEUED
                       (BatchTask.new Sample.world 1700000000000000 1700000000000100
                          Sample.small None NORMAL 3))))
              (Future.mk Future.Running 0 Future.SyncWork))
    as (_ & Hstatus & _ & _ & Hqueue & _).
  - reflexivity.
  - reflexivity.
  - reflexivity.
  - unfold result_timeout. lia.
  - split; [reflexivity|]. split; [exact Hstatus|]. rewrite Hqueue. reflexivity.
Defined.

(** Before the five minutes are over the monitor thread is still
    waiting. *)
Lemma monitor_waits_five_minutes now r fref waited s fut :
  future_objects s !! fref = Some fut ->
  Future.done fut = false ->
  waited < result_timeout ->
  monitor_future now r fref waited s = s.
Proof.
  intros Hfut Hdone Hw. unfold monitor_future.
  rewrite Hfut, (not_done_blocked fut waited Hdone Hw). reflexivity.
Qed.

(** C6 (as stated, refuted).  The task of [Runs.timed_out] has used none
    of its three retries and the processor is not cancelled, and yet the
    timeout leaves it [FAILED], not [RETRYING], with an empty queue and no
    timer to put it back. *)
Lemma timed_out_task_is_not_retried :
  let s := Runs.timed_out in
  (BatchTask.retry_count <$> objects s !! 0%nat) = Some 0
  /\ (BatchTask.max_retries <$> objects s !! 0%nat) = Some 3
  /\ is_cancelled s = false
  /\ status_of s 0 = Some FAILED
  /\ status_of s 0 <> Some RETRYING
  /\ task_queue s = []
  /\ threads s = [].
Proof. vm_compute. repeat split; try reflexivity. discriminate. Qed.

End timeout_claims.

Module retry_claims.
Import BatchProcessor completion_facts.

Lemma retry_condition task s :
  (BatchTask.retry_count task <? BatchTask.max_retries task) && negb (is_cancelled s) = true
  <-> BatchTask.retry_count task < BatchTask.max_retries task /\ is_cancelled s = false.
Proof.
  rewrite andb_true_iff, Z.ltb_lt, negb_true_iff. reflexivity.
Qed.

(** A failed result with retries left: the task is [RETRYING] with one
    retry more, and a timer of [2 ^ retry_count] seconds is started. *)
Lemma handle_failure_retry now r result s task :
  objects s !! r = Some task ->
  ResultDict.success result = false ->
  BatchTask.retry_count task < BatchTask.max_retries task ->
  is_cancelled s = false ->
  let s' := _handle_task_result now r result s in
  objects s' !! r =
    Some (BatchTask.set_status RETRYING
            (BatchTask.set_retry_count (BatchTask.retry_count task + 1) task))
  /\ threads s' = threads s ++ [Requeue r (2 ^ (BatchTask.retry_count task + 1))]
  /\ BatchStatistics.retry_count (statistics s')
     = BatchStatistics.retry_count (statistics s) + 1
  /\ BatchStatistics.failed_tasks (statistics s') = BatchStatistics.failed_tasks (statistics s)
  /\ task_queue s' = task_queue s
  /\ event_bus s' = event_bus s
  /\ is_cancelled s' = false.
Proof.
  intros Hobj Hfail Hlt Hnc s'. subst s'. unfold _handle_task_result.
  rewrite Hobj, Hfail.
  destruct (retry_condition task s) as [_ Hc]. rewrite (Hc (conj Hlt Hnc)).
  cbv zeta. state_simpl.
  split; [do 2 apply lookup_alter_Some; exact Hobj|].
  repeat split; try reflexivity. exact Hnc.
Qed.

(** A failed result without retries left, or in a cancelled processor:
    the task is [FAILED] with the message of the failure, and the failure
    is notified. *)
Lemma handle_failure_final now r result s task :
  objects s !! r = Some task ->
  ResultDict.success result = false ->
  ~ (BatchTask.retry_count task < BatchTask.max_retries task /\ is_cancelled s = false) ->
  let s' := _handle_task_result now r result s in
  objects s' !! r =
    Some (BatchTask.set_completed_at (Some now)
            (BatchTask.set_error_message (ResultDict.error result)
               (BatchTask.set_status FAILED task)))
  /\ threads s' = threads s
  /\ task_queue s' = task_queue s
  /\ BatchStatistics.failed_tasks (statistics s')
     = BatchStatistics.failed_tasks (statistics s) + 1
  /\ BatchStatistics.retry_count (statistics s') = BatchStatistics.retry_count (statistics s)
  /\ event_bus s' =
       event_bus s ++ [mkEvent CONVERSION_FAILED
                         [("task_id", Some (BatchTask.task_id task));
                          ("error", ResultDict.error result)]%string
                         (Some "BatchProcessor"%string)].
Proof.
  intros Hobj Hfail Hno s'. subst s'. unfold _handle_task_result.
  rewrite Hobj, Hfail.
  destruct ((BatchTask.retry_count task <? BatchTask.max_retries task)
            && negb (is_cancelled s)) eqn:E.
  { apply retry_condition in E. contradiction. }
  cbv zeta. unfold emit. state_simpl.
  split; [do 3 apply lookup_alter_Some; exact Hobj|].
  repeat split; reflexivity.
Qed.

(** The timer of a task that is still [RETRYING], in a processor that
    is not cancelled, puts the task back into the queue as [QUEUED]. *)
Lemma requeue_puts_back r delay x task :
  objects x !! r = Some task ->
  BatchTask.status task = RETRYING ->
  is_cancelled x = false ->
  let x' := requeue_after_delay r delay x in
  objects x' !! r = Some (BatchTask.set_status QUEUED task)
  /\ task_queue x' ≡ₚ r :: task_queue x.
Proof.
  intros Hobj Hst Hnc x'. subst x'. unfold requeue_after_delay. cbv zeta.
  unfold remove_thread at 1 2. state_simpl.
  rewrite Hnc, Hobj. cbn [fmap option_fmap option_map negb andb]. rewrite Hst.
  rewrite bool_decide_eq_true_2 by reflexivity.
  state_simpl. split; [apply lookup_alter_Some; exact Hobj|].
  apply heap_facts.heappush_perm.
Qed.

(** C4.  When the result of a conversion signals a failure: with
    [retry_count < max_retries] in a processor that is not cancelled, the
    completion handler adds one to [retry_count], sets the status
    [RETRYING] and starts the timer that later puts the task back as
    [QUEUED]; otherwise it sets the status [FAILED] with the message of
    this last failure.  So a task with [max_retries = 2] whose conversion
    fails every time is [FAILED] after exactly 2 retries, that is 3
    attempts, with the message of the failure. *)
Theorem failed_conversion_is_retried_until_exhausted :
  (forall now r result s task,
     objects s !! r = Some task ->
     ResultDict.success result = false ->
     let s' := _handle_task_result now r result s in
     (BatchTask.retry_count task < BatchTask.max_retries task ->
      is_cancelled s = false ->
      let delay := 2 ^ (BatchTask.retry_count task + 1) in
      objects s' !! r =
        Some (BatchTask.set_status RETRYING
                (BatchTask.set_retry_count (BatchTask.retry_count task + 1) task))
      /\ threads s' = threads s ++ [Requeue r delay]
      /\ status_of (requeue_after_delay r delay s') r = Some QUEUED
      /\ task_queue (requeue_after_delay r delay s') ≡ₚ r :: task_queue s)
     /\ (~ (BatchTask.retry_count task < BatchTask.max_retries task
            /\ is_cancelled s = false) ->
         objects s' !! r =
           Some (BatchTask.set_completed_at (Some now)
                   (BatchTask.set_error_message (ResultDict.error result)
                      (BatchTask.set_status FAILED task)))
         /\ threads s' = threads s
         /\ task_queue s' = task_queue s))
  /\ (forall r delay x task,
        objects x !! r = Some task ->
        BatchTask.status task = RETRYING ->
        is_cancelled x = false ->
        status_of (requeue_after_delay r delay x) r = Some QUEUED
        /\ task_queue (requeue_after_delay r delay x) ≡ₚ r :: task_queue x)
  /\ (forall msg,
        let s := (Runs.always_failing msg).1 in
        (Runs.always_failing msg).2 = 3%nat
        /\ length (future_objects s) = 3%nat
        /\ status_of s 0 = Some FAILED
        /\ (BatchTask.retry_count <$> objects s !! 0%nat) = Some 2
        /\ (BatchTask.error_message <$> objects s !! 0%nat) = Some (Some msg)
        /\ BatchStatistics.retry_count (statistics s) = 2
        /\ BatchStatistics.failed_tasks (statistics s) = 1).
Proof.
  split; [|split].
  - intros now r result s task Hobj Hfail s'. split.
    + intros Hlt Hnc delay.
      destruct (handle_failure_retry now r result s task Hobj Hfail Hlt Hnc)
        as (Hobj' & Hth & _ & _ & Hq & _ & Hnc').
      fold s' in Hobj', Hth, Hq, Hnc'.
      split; [exact Hobj'|]. split; [exact Hth|].
      destruct (requeue_puts_back r delay s' _ Hobj' eq_refl Hnc') as [Ho Hp].
      unfold status_of. rewrite Ho. split; [reflexivity|].
      rewrite Hp, Hq. reflexivity.
    + intros Hno.
      destruct (handle_failure_final now r result s task Hobj Hfail Hno)
        as (Hobj' & Hth & Hq & _).
      split; [exact Hobj'|]. split; [exact Hth|exact Hq].
  - intros r delay x task Hobj Hst Hnc.
    destruct (requeue_puts_back r delay x task Hobj Hst Hnc) as [Ho Hp].
    unfold status_of. rewrite Ho. split; [reflexivity|exact Hp].
  - intros msg. vm_compute. repeat split; reflexivity.
Qed.

(** A first failure of a task with three retries: the task waits two
    seconds and is queued again. *)
Lemma failed_conversion_is_retried_until_exhausted_witness :
  let before :=
    worker_iteration 1700000001000000
      (start 1700000000500000
         (Runs.add 1700000000000000 Sample.small Runs.fresh_processor)) in
  let after := _handle_task_result 1700000002000000 0
                 (ResultDict.failure (Py.Exception "boom")) before in
  status_of after 0 = Some RETRYING
  /\ threads after = threads before ++ [Requeue 0 2]
  /\ status_of (requeue_after_delay 0 2 after) 0 = Some QUEUED
  /\ (Runs.always_failing "boom").2 = 3%nat.
Proof.
  intros before after.
  destruct failed_conversion_is_retried_until_exhausted as (Hhandle & _ & Hrun).
  destruct (Hhandle 1700000002000000 0%nat (ResultDict.failure (Py.Exception "boom")) before
              (BatchTask.set_started_at (Some 1700000001000000)
                 (BatchTask.set_status PROCESSING
                    (BatchTask.set_status QUEUED
                       (BatchTask.new Sample.world 1700000000000000 1700000000000100
                          Sample.small None NORMAL 3))))
              eq_refl eq_refl) as [Hretry _].
  destruct Hretry as (Hobj & Hth & Hst & _); [reflexivity|reflexivity|].
  fold after in Hobj, Hth, Hst.
  split; [unfold status_of; rewrite Hobj; reflexivity|].
  split; [exact Hth|]. split; [exact Hst|].
  apply (Hrun "boom"%string).
Defined.

(** A task put back after a failed attempt goes before a task of the
    same priority that was put into the queue while it was waiting: the
    queue holds the newer task only, then the retried task is put, and
    the dispatch loop takes the retried task. *)
Example retried_task_goes_first :
  task_queue Runs.retry_pending = [1%nat]
  /\ status_of Runs.retry_pending 0 = Some RETRYING
  /\ status_of Runs.retry_requeued 0 = Some QUEUED
  /\ status_of Runs.retry_requeued 1 = Some QUEUED
  /\ status_of (worker_iteration 1700000005000000 Runs.retry_requeued) 0 = Some PROCESSING
  /\ status_of (worker_iteration 1700000005000000 Runs.retry_requeued) 1 = Some QUEUED.
Proof. vm_compute. repeat split; reflexivity. Qed.

End retry_claims.
(** * The event bus *)

Module event_bus_facts.
Import EventBus.

Section Facts.

Context {K E C : Type} `{Countable K} `{EqDecision C}.
Context (value : K -> string) (type_of : E -> K) (run : C -> E -> option Py.exn).

Local Abbreviation bus := (@EventBus.t K E C _ _).

Lemma keep_last_length {A : Type} (n : nat) (l : list A) :
  (length (keep_last n l) <= n)%nat.
Proof. unfold keep_last. rewrite length_drop. lia. Qed.

Lemma keep_last_all {A : Type} (n : nat) (l : list A) :
  (length l <= n)%nat -> keep_last n l = l.
Proof.
  intros Hn. unfold keep_last. replace (length l - n)%nat with 0%nat by lia. reflexivity.
Qed.

Lemma keep_last_app {A : Type} (n : nat) (l l' : list A) :
  keep_last n (keep_last n l ++ l') = keep_last n (l ++ l').
Proof.
  unfold keep_last.
  rewrite length_app, length_drop, length_app.
  rewrite <- (drop_app_le l l' (length l - n)) by lia.
  rewrite drop_drop. f_equal. lia.
Qed.

Lemma emit_history (e : E) (b : bus) :
  _enabled b = true ->
  (Z.of_nat (length (_event_history b)) <= _max_history b) ->
  _event_history (emit type_of run e b).1.1
  = keep_last (Z.to_nat (_max_history b)) (_event_history b ++ [e])
  /\ _enabled (emit type_of run e b).1.1 = true
  /\ _max_history (emit type_of run e b).1.1 = _max_history b
  /\ _subscribers (emit type_of run e b).1.1 = _subscribers b
  /\ _global_subscribers (emit type_of run e b).1.1 = _global_subscribers b.
Proof.
  intros Hen Hlen. unfold emit. rewrite Hen. cbn [negb]. cbv zeta.
  set (h := if Z.of_nat (length (_event_history b ++ [e])) >? _max_history b
            then tail (_event_history b ++ [e]) else _event_history b ++ [e]).
  assert (Hh : h = keep_last (Z.to_nat (_max_history b)) (_event_history b ++ [e])).
  { subst h. rewrite length_app. cbn [length].
    destruct (Z.gtb_spec (Z.of_nat (length (_event_history b) + 1)) (_max_history b)).
    - unfold keep_last. rewrite length_app. cbn [length].
      replace (length (_event_history b) + 1 - Z.to_nat (_max_history b))%nat
        with 1%nat by lia.
      destruct (_event_history b ++ [e]); reflexivity.
    - symmetry. apply keep_last_all. rewrite length_app. cbn [length]. lia. }
  destruct (notify run _ e []) as [log [u|x]].
  - destruct (notify run _ e log) as [log' r]. cbn. rewrite <- Hh.
    repeat split; try reflexivity; assumption.
  - cbn. rewrite <- Hh. repeat split; try reflexivity; assumption.
Qed.

Lemma emit_all_history (es : list E) : forall b : bus,
  _enabled b = true ->
  (Z.of_nat (length (_event_history b)) <= _max_history b) ->
  _event_history (emit_all type_of run es b).1
  = keep_last (Z.to_nat (_max_history b)) (_event_history b ++ es).
Proof.
  induction es as [|e es IH]; intros b Hen Hlen.
  - cbn. rewrite app_nil_r. symmetry. apply keep_last_all. lia.
  - cbn [emit_all].
    destruct (emit_history e b Hen Hlen) as (Hh & Hen' & Hmax & _).
    destruct (emit type_of run e b) as [[b' log] r]. cbn [fst] in Hh, Hen', Hmax.
    specialize (IH b' Hen').
    destruct (emit_all type_of run es b') as [b'' log']. cbn [fst] in *.
    rewrite IH.
    + rewrite Hmax, Hh, keep_last_app, <- app_assoc. reflexivity.
    + rewrite Hmax, Hh. pose proof (keep_last_length (Z.to_nat (_max_history b))
                                     (_event_history b ++ [e])). lia.
Qed.

Lemma notify_tame (cbs : list C) (e : E) : forall log,
  Forall (fun cb => tame run cb e) cbs ->
  notify run cbs e log = (log ++ map (fun cb => (cb, e)) cbs, Py.Ok tt).
Proof.
  induction cbs as [|cb cbs IH]; intros log Hall.
  - cbn. rewrite app_nil_r. reflexivity.
  - inversion Hall as [|? ? Hcb Hrest]; subst. cbn [notify map].
    assert (Hcall : Py.try_except (call run cb e) (fun _ => Py.Ok tt) = Py.Ok tt).
    { unfold call, tame in *. destruct (run cb e) as [x|]; [|reflexivity].
      cbn. rewrite Hcb. reflexivity. }
    rewrite Hcall, (IH _ Hrest), <- app_assoc. reflexivity.
Qed.

Lemma notify_log (cbs : list C) (e : E) : forall log call,
  call ∈ (notify run cbs e log).1 -> call ∈ log \/ call.1 ∈ cbs.
Proof.
  induction cbs as [|cb cbs IH]; intros log c Hc; cbn [notify] in Hc.
  - left. exact Hc.
  - destruct (Py.try_except (call run cb e) (fun _ => Py.Ok tt)) as [u|x].
    + apply IH in Hc as [Hc|Hc]; [|right; right; exact Hc].
      apply elem_of_app in Hc as [Hc|Hc]; [left; exact Hc|].
      apply list_elem_of_singleton in Hc. subst c. right. left.
    + cbn [fst] in Hc. apply elem_of_app in Hc as [Hc|Hc]; [left; exact Hc|].
      apply list_elem_of_singleton in Hc. subst c. right. left.
Qed.

Lemma emit_log (e : E) (b : bus) call :
  call ∈ (emit type_of run e b).1.2 ->
  call.1 ∈ subscribers_of b (type_of e) \/ call.1 ∈ _global_subscribers b.
Proof.
  unfold emit. destruct (negb (_enabled b)); [cbn; intros Hc; inversion Hc|].
  cbv zeta. cbn [_subscribers _global_subscribers set_event_history].
  fold (subscribers_of b (type_of e)).
  destruct (notify run (subscribers_of b (type_of e)) e []) as [log r] eqn:Hn1.
  assert (Hlog : forall c, c ∈ log -> c.1 ∈ subscribers_of b (type_of e)).
  { intros c Hc. pose proof (notify_log (subscribers_of b (type_of e)) e [] c) as N.
    rewrite Hn1 in N. destruct (N Hc) as [N'|N']; [inversion N'|exact N']. }
  destruct r as [u|x].
  - destruct (notify run (_global_subscribers b) e log) as [log' r'] eqn:Hn2.
    cbn [fst snd]. intros Hc.
    pose proof (notify_log (_global_subscribers b) e log call) as N.
    rewrite Hn2 in N. destruct (N Hc) as [N'|N']; [left; auto|right; exact N'].
  - cbn [fst snd]. intros Hc. left. auto.
Qed.

Lemma list_remove_first_snoc (cb : C) (l : list C) :
  cb ∉ l -> list_remove_first cb (l ++ [cb]) = l.
Proof.
  induction l as [|y l IH]; intros Hnin; cbn.
  - rewrite decide_True by reflexivity. reflexivity.
  - apply not_elem_of_cons in Hnin as [Hne Hnin].
    rewrite decide_False by congruence. f_equal. apply IH, Hnin.
Qed.

Lemma list_remove_first_NoDup (cb : C) (l : list C) :
  NoDup l ->
  NoDup (list_remove_first cb l)
  /\ (cb ∉ list_remove_first cb l)
  /\ (forall x, x ∈ list_remove_first cb l -> x ∈ l).
Proof.
  induction 1 as [|y l Hy Hl IH]; cbn.
  - repeat split; [constructor|apply not_elem_of_nil|auto].
  - destruct (decide (y = cb)) as [->|Hne].
    + repeat split; [exact Hl|exact Hy|]. intros x Hx. right. exact Hx.
    + destruct IH as (IH1 & IH2 & IH3). repeat split.
      * constructor; [|exact IH1]. intros Hin. apply Hy, IH3, Hin.
      * apply not_elem_of_cons. split; [congruence|exact IH2].
      * intros x Hx. apply elem_of_cons in Hx as [->|Hx]; [left|right; auto].
Qed.

Lemma subscribers_of_getitem (b : bus) (ty : K) :
  (getitem (_subscribers b) ty).2 = subscribers_of b ty
  /\ forall k, default [] ((getitem (_subscribers b) ty).1 !! k) = subscribers_of b k.
Proof.
  unfold getitem, subscribers_of. destruct (_subscribers b !! ty) as [v|] eqn:Hty; cbn.
  - split; [reflexivity|auto].
  - split; [reflexivity|]. intros k. destruct (decide (ty = k)) as [->|Hne].
    + rewrite lookup_insert_eq, Hty. reflexivity.
    + rewrite lookup_insert_ne by exact Hne. reflexivity.
Qed.

Lemma subscribers_of_insert (d : gmap K (list C)) (b : bus) (ty k : K) (l : list C) :
  subscribers_of (set_subscribers (<[ty := l]> d) b) k
  = if decide (ty = k) then l else default [] (d !! k).
Proof.
  unfold subscribers_of. cbn. destruct (decide (ty = k)) as [->|Hne].
  - rewrite lookup_insert_eq. reflexivity.
  - rewrite lookup_insert_ne by exact Hne. reflexivity.
Qed.

(** What [subscribe] does to what the bus shows *)
Lemma subscribe_typed (ty : K) (cb : C) (b : bus) :
  (cb ∈ subscribers_of b ty ->
   subscribe value ty cb false b
   = Py.Raise (Py.ValueError ("Callback already subscribed to " +:+ value ty)))
  /\ (cb ∉ subscribers_of b ty ->
      exists b', subscribe value ty cb false b = Py.Ok b'
        /\ subscribers_of b' ty = subscribers_of b ty ++ [cb]
        /\ (forall k, k <> ty -> subscribers_of b' k = subscribers_of b k)
        /\ _global_subscribers b' = _global_subscribers b
        /\ _event_history b' = _event_history b
        /\ _enabled b' = _enabled b).
Proof.
  destruct (subscribers_of_getitem b ty) as [Hl Hd].
  unfold subscribe. destruct (getitem (_subscribers b) ty) as [d l]. cbn [fst snd] in Hl, Hd.
  subst l. split; intros Hin.
  - rewrite bool_decide_eq_true_2 by exact Hin. reflexivity.
  - rewrite bool_decide_eq_false_2 by exact Hin. eexists. split; [reflexivity|].
    split; [rewrite subscribers_of_insert, decide_True by reflexivity; reflexivity|].
    split; [|repeat split; reflexivity].
    intros k Hne. rewrite subscribers_of_insert, decide_False by congruence. apply Hd.
Qed.

Lemma unsubscribe_typed (ty : K) (cb : C) (b : bus) :
  subscribers_of (unsubscribe (Some ty) cb b) ty
  = (if bool_decide (cb ∈ subscribers_of b ty)
     then list_remove_first cb (subscribers_of b ty) else subscribers_of b ty)
  /\ (forall k, k <> ty -> subscribers_of (unsubscribe (Some ty) cb b) k = subscribers_of b k)
  /\ _global_subscribers (unsubscribe (Some ty) cb b) = _global_subscribers b
  /\ _event_history (unsubscribe (Some ty) cb b) = _event_history b
  /\ _enabled (unsubscribe (Some ty) cb b) = _enabled b.
Proof.
  destruct (subscribers_of_getitem b ty) as [Hl Hd].
  unfold unsubscribe. destruct (getitem (_subscribers b) ty) as [d l]. cbn [fst snd] in Hl, Hd.
  subst l. destruct (bool_decide (cb ∈ subscribers_of b ty)).
  - split; [rewrite subscribers_of_insert, decide_True by reflexivity; reflexivity|].
    split; [|repeat split; reflexivity].
    intros k Hne. rewrite subscribers_of_insert, decide_False by congruence. apply Hd.
  - split; [apply Hd|]. split; [intros; apply Hd|repeat split; reflexivity].
Qed.

(** The sum behind [subscriber_count] *)
Local Abbreviation listed d :=
  (map_fold (fun (_ : K) (callbacks : list C) acc => Z.of_nat (length callbacks) + acc) 0 d).

Lemma listed_insert (d : gmap K (list C)) (k : K) (l : list C) :
  listed (<[k := l]> d)
  = listed d - Z.of_nat (length (default [] (d !! k))) + Z.of_nat (length l).
Proof.
  assert (Hcomm : forall (m : gmap K (list C)) (j1 j2 : K) (z1 z2 : list C) (y : Z),
             j1 <> j2 -> m !! j1 = Some z1 -> m !! j2 = Some z2 ->
             Z.of_nat (length z1) + (Z.of_nat (length z2) + y)
             = Z.of_nat (length z2) + (Z.of_nat (length z1) + y)) by (intros; lia).
  destruct (d !! k) as [old|] eqn:Hk; cbn [default].
  - rewrite <- (insert_delete_eq d k l).
    rewrite map_fold_insert_L; [|apply Hcomm|apply lookup_delete_eq].
    rewrite (map_fold_delete_L _ 0 k old d); [|apply Hcomm|exact Hk].
    unfold id. lia.
  - rewrite map_fold_insert_L; [cbn; lia|apply Hcomm|exact Hk].
Qed.

End Facts.
End event_bus_facts.

Module event_bus_claims.
Import EventBus event_bus_facts.

Section Claims.

Context {K E C : Type} `{Countable K} `{EqDecision C}.
Context (value : K -> string) (type_of : E -> K) (run : C -> E -> option Py.exn).

Local Abbreviation bus := (@EventBus.t K E C _ _).

(** X1.  The history of an enabled bus is the last [_max_history]
    events emitted: after any number of [emit] it holds the events it held
    followed by the emitted ones, cut at the front to [_max_history]
    entries, so it never grows beyond that bound. *)
Theorem history_keeps_the_last_events (es : list E) (b : bus) :
  _enabled b = true ->
  Z.of_nat (length (_event_history b)) <= _max_history b ->
  _event_history (emit_all type_of run es b).1
  = keep_last (Z.to_nat (_max_history b)) (_event_history b ++ es)
  /\ Z.of_nat (length (_event_history (emit_all type_of run es b).1)) <= _max_history b.
Proof.
  intros Hen Hlen.
  pose proof (emit_all_history type_of run es b Hen Hlen) as Hh.
  split; [exact Hh|]. rewrite Hh.
  pose proof (keep_last_length (Z.to_nat (_max_history b)) (_event_history b ++ es)). lia.
Qed.

(** X2.  An enabled bus calls, for an event, the subscribers of its
    type in the order they subscribed and then the global subscribers
    in theirs, each once; a subscriber that raises an [Exception] does not
    keep the later ones from being called, and [emit] returns normally. *)
Theorem emit_calls_every_subscriber_in_order (e : E) (b : bus) :
  _enabled b = true ->
  Forall (fun cb => tame run cb e) (subscribers_of b (type_of e) ++ _global_subscribers b) ->
  (emit type_of run e b).1.2
  = map (fun cb => (cb, e)) (subscribers_of b (type_of e) ++ _global_subscribers b)
  /\ (emit type_of run e b).2 = Py.Ok tt.
Proof.
  intros Hen Hall. apply Forall_app in Hall as [Hs Hg].
  unfold emit. rewrite Hen. cbn [negb]. cbv zeta.
  cbn [_subscribers _global_subscribers set_event_history].
  fold (subscribers_of b (type_of e)).
  rewrite (notify_tame run _ e [] Hs). cbn [app].
  rewrite (notify_tame run _ e _ Hg). cbn [fst snd].
  rewrite map_app. split; reflexivity.
Qed.

(** X3.  A disabled bus ignores what is emitted: nothing is called and
    the bus, history included, stays as it is. *)
Theorem disabled_bus_ignores_events (es : list E) (b : bus) :
  emit_all type_of run es (disable b) = (disable b, []).
Proof.
  induction es as [|e es IH]; [reflexivity|].
  cbn [emit_all]. unfold emit at 1. cbn [_enabled disable set_enabled negb].
  rewrite IH. reflexivity.
Qed.

(** X4.  A callback is subscribed to a type at most once: the first
    [subscribe] puts it at the end of the subscribers of that type and
    changes nothing else; a second one raises [ValueError] and changes
    nothing. *)
Theorem subscribe_refuses_duplicates (ty : K) (cb : C) (b : bus) :
  cb ∉ subscribers_of b ty ->
  exists b',
    subscribe value ty cb false b = Py.Ok b'
    /\ subscribers_of b' ty = subscribers_of b ty ++ [cb]
    /\ (forall k, k <> ty -> subscribers_of b' k = subscribers_of b k)
    /\ _global_subscribers b' = _global_subscribers b
    /\ subscribe value ty cb false b'
       = Py.Raise (Py.ValueError ("Callback already subscribed to " +:+ value ty)).
Proof.
  intros Hnin. destruct (subscribe_typed value ty cb b) as [_ Hok].
  destruct (Hok Hnin) as (b' & Hs & Hty & Hother & Hg & _).
  exists b'. split; [exact Hs|]. split; [exact Hty|]. split; [exact Hother|].
  split; [exact Hg|].
  apply (subscribe_typed value ty cb b'). rewrite Hty. apply elem_of_app. right. left.
Qed.

(** X5.  [unsubscribe] undoes [subscribe]: after a successful
    [subscribe] of a callback to a type, unsubscribing it gives every
    type the subscribers it had before, and leaves the global
    subscribers and the history alone. *)
Theorem unsubscribe_undoes_subscribe (ty : K) (cb : C) (b b' : bus) :
  subscribe value ty cb false b = Py.Ok b' ->
  (forall k, subscribers_of (unsubscribe (Some ty) cb b') k = subscribers_of b k)
  /\ _global_subscribers (unsubscribe (Some ty) cb b') = _global_subscribers b
  /\ _event_history (unsubscribe (Some ty) cb b') = _event_history b.
Proof.
  intros Hsub.
  destruct (decide (cb ∈ subscribers_of b ty)) as [Hin|Hnin].
  { destruct (subscribe_typed value ty cb b) as [Hraise _]. rewrite (Hraise Hin) in Hsub.
    discriminate. }
  destruct (subscribe_typed value ty cb b) as [_ Hok].
  destruct (Hok Hnin) as (b2 & Hs & Hty & Hother & Hg & Hh & _).
  rewrite Hsub in Hs. injection Hs as <-.
  destruct (unsubscribe_typed ty cb b') as (Uty & Uother & Ug & Uh & _).
  split; [|split; congruence].
  intros k. destruct (decide (k = ty)) as [->|Hne].
  - rewrite Uty, Hty.
    rewrite bool_decide_eq_true_2 by (apply elem_of_app; right; left).
    apply list_remove_first_snoc, Hnin.
  - rewrite (Uother k Hne). apply Hother, Hne.
Qed.

(** X6.  On a bus where no callback is subscribed twice to a type, a
    callback that was unsubscribed from a type is not called any more
    for an event of that type, unless it is a global subscriber. *)
Theorem unsubscribed_callback_is_not_called (cb : C) (e : E) (b : bus) :
  NoDup (subscribers_of b (type_of e)) ->
  cb ∉ _global_subscribers b ->
  forall c, c ∈ (emit type_of run e (unsubscribe (Some (type_of e)) cb b)).1.2 -> c.1 <> cb.
Proof.
  intros Hnd Hg c Hc Heq. apply emit_log in Hc.
  destruct (unsubscribe_typed (type_of e) cb b) as (Uty & _ & Ug & _).
  rewrite Uty, Ug, Heq in Hc. destruct Hc as [Hc|Hc]; [|contradiction].
  destruct (list_remove_first_NoDup cb _ Hnd) as (_ & Hgone & _).
  destruct (bool_decide (cb ∈ subscribers_of b (type_of e))) eqn:Hb.
  - contradiction.
  - apply bool_decide_eq_false in Hb. contradiction.
Qed.

(** X7.  [get_history] returns the most recent events of the asked
    type: the last [limit] of them for a positive [limit]; with
    [limit = 0] it returns all of them, not none, and a negative [limit]
    drops that many of the oldest. *)
Theorem get_history_limit (ty : option K) (limit : Z) (b : bus) :
  let events := get_history type_of ty 0 b in
  (ty = None -> events = _event_history b)
  /\ (forall k, ty = Some k ->
        events = List.filter (fun e => bool_decide (type_of e = k)) (_event_history b))
  /\ (0 < limit ->
      get_history type_of ty limit b = keep_last (Z.to_nat limit) events
      /\ Z.of_nat (length (get_history type_of ty limit b)) <= limit)
  /\ (limit < 0 -> get_history type_of ty limit b = drop (Z.to_nat (- limit)) events).
Proof.
  intros events. subst events. unfold get_history.
  set (l := match ty with
            | Some k => List.filter (fun e => bool_decide (type_of e = k)) (_event_history b)
            | None => _event_history b
            end).
  assert (H0 : slice_from (- 0) l = l).
  { unfold slice_from. replace (- 0) with 0 by lia.
    destruct (Z.ltb_spec 0 0); [lia|].
    replace (Z.to_nat (Z.min 0 (Z.of_nat (length l)))) with 0%nat by lia. reflexivity. }
  rewrite H0.
  split; [intros ->; reflexivity|]. split; [intros k ->; reflexivity|]. split.
  - intros Hpos.
    assert (Hs : slice_from (- limit) l = keep_last (Z.to_nat limit) l).
    { unfold slice_from, keep_last.
      destruct (Z.ltb_spec (- limit) 0); [|lia]. f_equal. lia. }
    rewrite Hs. split; [reflexivity|].
    pose proof (keep_last_length (Z.to_nat limit) l). lia.
  - intros Hneg. unfold slice_from.
    destruct (Z.ltb_spec (- limit) 0); [lia|].
    destruct (Z.min_spec (- limit) (Z.of_nat (length l))) as [[_ ->]|[Hle ->]];
      [reflexivity|].
    rewrite Nat2Z.id.
    rewrite drop_all. symmetry. apply drop_ge. lia.
Qed.

(** X8.  [subscriber_count] counts the subscriptions: a successful
    [subscribe], to a type or as a global subscriber, adds one to it, and
    [clear_subscribers()] brings it to [0]. *)
Theorem subscriber_count_counts (ty : K) (cb : C) (g : bool) (b b' : bus) :
  subscribe value ty cb g b = Py.Ok b' ->
  subscriber_count b' = subscriber_count b + 1
  /\ subscriber_count (clear_subscribers None b') = 0.
Proof.
  intros Hsub. split; [|reflexivity].
  unfold subscribe in Hsub. destruct g.
  - destruct (bool_decide (cb ∈ _global_subscribers b)); [discriminate|].
    injection Hsub as <-. unfold subscriber_count. cbn.
    rewrite length_app. cbn. lia.
  - unfold getitem in Hsub. unfold subscriber_count.
    destruct (_subscribers b !! ty) as [l|] eqn:Hl.
    + destruct (bool_decide (cb ∈ l)); [discriminate|].
      injection Hsub as <-. cbn [_subscribers _global_subscribers set_subscribers].
      rewrite listed_insert, Hl. cbn [default]. rewrite length_app. cbn. unfold id. lia.
    + rewrite bool_decide_eq_false_2 in Hsub by apply not_elem_of_nil.
      injection Hsub as <-. cbn [_subscribers _global_subscribers set_subscribers].
      rewrite insert_insert_eq, listed_insert, Hl. cbn. lia.
Qed.

End Claims.

(** Three events emitted on a bus that keeps three and holds one *)
Lemma history_keeps_the_last_events_witness :
  let b : SampleBus.bus := EventBus.set_event_history [SampleBus.started "t0"]
                             (EventBus.mk ∅ [] [] 3 true) in
  let es := [SampleBus.started "t1"; SampleBus.failed "t1"; SampleBus.started "t2"] in
  _event_history (emit_all event_type SampleBus.run es b).1
  = [SampleBus.started "t1"; SampleBus.failed "t1"; SampleBus.started "t2"].
Proof.
  intros b es.
  destruct (history_keeps_the_last_events event_type SampleBus.run es b) as [Hh _].
  - reflexivity.
  - cbn. lia.
  - rewrite Hh. reflexivity.
Defined.

Lemma emit_calls_every_subscriber_in_order_witness :
  (emit event_type SampleBus.run (SampleBus.started "t1") SampleBus.three_subscribers).1.2
  = [("broken"%string, SampleBus.started "t1");
     ("progress_bar"%string, SampleBus.started "t1");
     ("audit"%string, SampleBus.started "t1")].
Proof.
  destruct (emit_calls_every_subscriber_in_order event_type SampleBus.run
              (SampleBus.started "t1") SampleBus.three_subscribers) as [Hcalls _].
  - reflexivity.
  - repeat constructor.
  - rewrite Hcalls. reflexivity.
Defined.

Lemma subscribe_refuses_duplicates_witness :
  exists b' : SampleBus.bus,
    subscribe EventType_value CONVERSION_FAILED "audit"%string false
      SampleBus.three_subscribers = Py.Ok b'
    /\ subscribe EventType_value CONVERSION_FAILED "audit"%string false b'
       = Py.Raise (Py.ValueError "Callback already subscribed to conversion.failed").
Proof.
  destruct (subscribe_refuses_duplicates EventType_value CONVERSION_FAILED "audit"%string
              SampleBus.three_subscribers) as (b' & Hok & _ & _ & _ & Hdup).
  - vm_compute. intros Hin. inversion Hin.
  - exists b'. split; [exact Hok|exact Hdup].
Defined.

Lemma unsubscribe_undoes_subscribe_witness :
  subscribers_of
    (unsubscribe (Some CONVERSION_STARTED) "late"%string
       (SampleBus.subscribed CONVERSION_STARTED "late" false SampleBus.three_subscribers))
    CONVERSION_STARTED
  = ["broken"; "progress_bar"]%string.
Proof.
  destruct (unsubscribe_undoes_subscribe EventType_value CONVERSION_STARTED "late"%string
              SampleBus.three_subscribers
              (SampleBus.subscribed CONVERSION_STARTED "late" false SampleBus.three_subscribers))
    as [Hsubs _].
  - vm_compute. reflexivity.
  - rewrite Hsubs. reflexivity.
Defined.

Lemma unsubscribed_callback_is_not_called_witness :
  Forall (fun c : string * Event => c.1 <> "progress_bar"%string)
    (emit event_type SampleBus.run (SampleBus.started "t1")
       (unsubscribe (Some CONVERSION_STARTED) "progress_bar"%string
          SampleBus.three_subscribers)).1.2.
Proof.
  apply Forall_forall.
  apply (unsubscribed_callback_is_not_called event_type SampleBus.run
           "progress_bar"%string (SampleBus.started "t1") SampleBus.three_subscribers).
  - vm_compute. repeat constructor; intros Hin; inversion Hin; subst.
    all: match goal with H : _ ∈ _ |- _ => inversion H end.
  - vm_compute. intros Hin. inversion Hin; subst.
    match goal with H : _ ∈ [] |- _ => inversion H end.
Defined.

Lemma get_history_limit_witness :
  let b : SampleBus.bus :=
    EventBus.set_event_history
      [SampleBus.started "t1"; SampleBus.failed "t1"; SampleBus.started "t2"]
      SampleBus.empty in
  get_history event_type (Some CONVERSION_STARTED) 1 b = [SampleBus.started "t2"]
  /\ get_history event_type None 0 b
     = [SampleBus.started "t1"; SampleBus.failed "t1"; SampleBus.started "t2"].
Proof.
  intros b.
  destruct (get_history_limit event_type (Some CONVERSION_STARTED) 1 b)
    as (_ & _ & Hpos & _).
  destruct (Hpos ltac:(lia)) as [Hlast _].
  split; [rewrite Hlast; reflexivity|].
  destruct (get_history_limit event_type None 0 b) as (Hall & _).
  apply (Hall eq_refl).
Defined.

Lemma subscriber_count_counts_witness :
  subscriber_count (SampleBus.subscribed CONVERSION_FAILED "audit" false
                      SampleBus.three_subscribers) = 4.
Proof.
  destruct (subscriber_count_counts EventType_value CONVERSION_FAILED "audit"%string false
              SampleBus.three_subscribers
              (SampleBus.subscribed CONVERSION_FAILED "audit" false
                 SampleBus.three_subscribers)) as [Hcount _].
  - vm_compute. reflexivity.
  - rewrite Hcount. reflexivity.
Defined.

End event_bus_claims.
(** * The scheduler: pausing, cancelling and looking tasks up *)

Module scheduler_facts.
Import BatchProcessor Books completion_facts.

Lemma lt_ref_asym objs a b : lt_ref objs a b = true -> lt_ref objs b a = false.
Proof.
  unfold lt_ref. destruct (objs !! a), (objs !! b); try discriminate.
  apply queue_facts.task_lt_asym.
Qed.

(** [get] takes one item out of the queue, whatever the order of the
    queue was. *)
Lemma get_perm objs q r q' :
  PriorityQueue.get (lt_ref objs) q = Some (r, q') -> q ≡ₚ r :: q'.
Proof.
  unfold PriorityQueue.get. intros Hget.
  destruct (heap_facts.list_snoc_cases q) as [->|(h & y & ->)]; [discriminate|].
  rewrite heap_facts.heappop_snoc in Hget.
  destruct h as [|x h].
  - injection Hget as <- <-. reflexivity.
  - injection Hget as <- <-.
    rewrite (heap_facts.siftup_perm _ (lt_ref_asym objs) _ y) by reflexivity.
    simpl. apply perm_skip. symmetry. apply Permutation_cons_append.
Qed.

Lemma get_length objs q r q' :
  PriorityQueue.get (lt_ref objs) q = Some (r, q') -> length q = S (length q').
Proof. intros H. apply get_perm in H. rewrite H. reflexivity. Qed.

Lemma put_length objs q r : length (PriorityQueue.put (lt_ref objs) q r) = S (length q).
Proof.
  unfold PriorityQueue.put. rewrite (heap_facts.heappush_perm (lt_ref objs) q r).
  reflexivity.
Qed.

Lemma get_empty objs : PriorityQueue.get (lt_ref objs) [] = None.
Proof. reflexivity. Qed.

Lemma cancelled_twice task :
  BatchTask.set_status CANCELLED (BatchTask.set_status CANCELLED task)
  = BatchTask.set_status CANCELLED task.
Proof. reflexivity. Qed.

(** *** Sweeps of cancellations *)

Lemma swept_refl s : swept s s.
Proof. split; try reflexivity. intros r task H. left. exact H. Qed.

Lemma swept_trans s1 s2 s3 : swept s1 s2 -> swept s2 s3 -> swept s1 s3.
Proof.
  intros A B. split;
    try (etransitivity; [apply B|apply A]).
  - etransitivity; [apply A|apply B].
  - intros r task H.
    destruct (sw_objects _ _ A r task H) as [H2|H2];
      destruct (sw_objects _ _ B r _ H2) as [H3|H3]; auto.
Qed.

Lemma swept_mark_cancelled r s : swept s (mark_cancelled r s).
Proof.
  split; try reflexivity.
  - cbn. lia.
  - intros r' task H. state_simpl.
    destruct (decide (r = r')) as [->|Hne].
    + right. rewrite list_lookup_alter_eq, H. reflexivity.
    + left. rewrite list_lookup_alter_ne by exact Hne. exact H.
Qed.

Lemma swept_set_future_objects v s : swept s (set_future_objects v s).
Proof. split; try reflexivity. intros r task H. left. exact H. Qed.

Lemma swept_set_task_queue v s :
  (length v <= length (task_queue s))%nat -> swept s (set_task_queue v s).
Proof. intros Hv. split; try reflexivity; [exact Hv|]. intros r task H. left. exact H. Qed.

Lemma swept_cancel_entry s e : swept s (cancel_entry s e).
Proof.
  unfold cancel_entry. destruct e as [task_id fref].
  destruct (future_objects s !! fref) as [fut|]; [|apply swept_refl].
  destruct (negb (Future.done fut)); [|apply swept_refl].
  cbv zeta.
  eapply swept_trans; [apply swept_set_future_objects|].
  state_simpl.
  destruct (tasks s !! task_id) as [r|]; [apply swept_mark_cancelled|apply swept_refl].
Qed.

Lemma swept_cancel_entries l : forall s, swept s (foldl cancel_entry s l).
Proof.
  induction l as [|e l IH]; intros s; simpl; [apply swept_refl|].
  eapply swept_trans; [apply swept_cancel_entry|apply IH].
Qed.

Lemma cancel_entries_queue l s : task_queue (foldl cancel_entry s l) = task_queue s.
Proof.
  revert s. induction l as [|e l IH]; intros s; simpl; [reflexivity|].
  rewrite IH. unfold cancel_entry. destruct e as [task_id fref].
  destruct (future_objects s !! fref) as [fut|]; [|reflexivity].
  destruct (negb (Future.done fut)); [|reflexivity].
  cbv zeta. state_simpl. destruct (tasks s !! task_id); reflexivity.
Qed.

(** The loop that clears the queue marks every task it takes out. *)
Lemma clear_queue_spec fuel : forall s,
  (length (task_queue s) <= fuel)%nat ->
  swept s (clear_queue fuel s)
  /\ task_queue (clear_queue fuel s) = []
  /\ forall r task, r ∈ task_queue s -> objects s !! r = Some task ->
       objects (clear_queue fuel s) !! r = Some (BatchTask.set_status CANCELLED task).
Proof.
  induction fuel as [|fuel IH]; intros s Hlen.
  - destruct (task_queue s) eqn:Hq; [|simpl in Hlen; lia].
    simpl. split; [apply swept_refl|]. split; [exact Hq|].
    intros r task Hin. inversion Hin.
  - simpl. destruct (task_queue s) as [|a q] eqn:Hq.
    { simpl. split; [apply swept_refl|]. split; [exact Hq|].
      intros r task Hin. inversion Hin. }
    cbn [PriorityQueue.empty].
    destruct (PriorityQueue.get (lt_ref (objects s)) (a :: q)) as [[r0 q']|] eqn:Hget.
    2:{ apply queue_facts.get_None in Hget. discriminate. }
    pose proof (get_perm _ _ _ _ Hget) as Hperm.
    pose proof (get_length _ _ _ _ Hget) as Hl.
    set (s1 := mark_cancelled r0 (set_task_queue q' s)).
    assert (Hs1 : swept s s1).
    { eapply swept_trans; [apply (swept_set_task_queue q')|apply swept_mark_cancelled].
      rewrite Hq, Hl. lia. }
    destruct (IH s1) as (Hsw & Hnil & Hobj).
    { subst s1. state_simpl. simpl in Hlen, Hl. lia. }
    split; [eapply swept_trans; eassumption|]. split; [exact Hnil|].
    intros r task Hin Hr.
    rewrite Hperm in Hin. apply elem_of_cons in Hin as [->|Hin].
    + assert (H1 : objects s1 !! r0 = Some (BatchTask.set_status CANCELLED task)).
      { subst s1. state_simpl. rewrite list_lookup_alter_eq, Hr. reflexivity. }
      destruct (sw_objects _ _ Hsw r0 _ H1) as [H|H]; exact H.
    + destruct (sw_objects _ _ Hs1 r task Hr) as [H1|H1].
      * apply (Hobj r task); [subst s1; state_simpl; exact Hin|exact H1].
      * destruct (sw_objects _ _ Hsw r _ H1) as [H|H]; exact H.
Qed.

(** The states between the statements of [cancel_all] *)
Lemma cancel_all_unfold s :
  cancel_all s =
  let s1 := foldl cancel_entry (set_is_cancelled true s)
                  (map_to_list (futures (set_is_cancelled true s))) in
  let s2 := set_futures ∅ s1 in
  let s3 := if async_loop s2
            then foldl cancel_entry s2 (map_to_list (async_tasks s2)) else s2 in
  let s4 := set_async_tasks ∅ s3 in
  clear_queue (length (task_queue s4)) s4.
Proof. reflexivity. Qed.

Lemma swept_under_set_futures v a b :
  swept a b -> swept (set_futures v a) (set_futures v b).
Proof. intros []. split; try assumption. reflexivity. Qed.

Lemma swept_under_set_async_tasks v a b :
  swept a b -> swept (set_async_tasks v a) (set_async_tasks v b).
Proof. intros []. split; try assumption. reflexivity. Qed.

(** [cancel_all] sets the flag, empties the two tables and the queue,
    and is a sweep otherwise. *)
Lemma cancel_all_spec s :
  swept (set_async_tasks ∅ (set_futures ∅ (set_is_cancelled true s))) (cancel_all s)
  /\ task_queue (cancel_all s) = []
  /\ forall r task, r ∈ task_queue s -> objects s !! r = Some task ->
       objects (cancel_all s) !! r = Some (BatchTask.set_status CANCELLED task).
Proof.
  rewrite cancel_all_unfold. cbv zeta.
  set (a0 := set_is_cancelled true s).
  set (s1 := foldl cancel_entry a0 (map_to_list (futures a0))).
  set (s2 := set_futures ∅ s1).
  set (s3 := if async_loop s2 then foldl cancel_entry s2 (map_to_list (async_tasks s2))
             else s2).
  set (s4 := set_async_tasks ∅ s3).
  assert (H1 : swept a0 s1) by apply swept_cancel_entries.
  assert (H3 : swept s2 s3).
  { subst s3. destruct (async_loop s2); [apply swept_cancel_entries|apply swept_refl]. }
  assert (H4 : swept (set_async_tasks ∅ (set_futures ∅ a0)) s4).
  { apply swept_under_set_async_tasks.
    eapply swept_trans; [apply swept_under_set_futures, H1|exact H3]. }
  destruct (clear_queue_spec (length (task_queue s4)) s4) as (H5 & Hnil & Hobj); [lia|].
  split; [eapply swept_trans; eassumption|]. split; [exact Hnil|].
  intros r task Hin Hr.
  assert (Hin4 : r ∈ task_queue s4).
  { subst s4. state_simpl.
    assert (E3 : task_queue s3 = task_queue s2).
    { subst s3. destruct (async_loop s2); [|reflexivity]. apply cancel_entries_queue. }
    rewrite E3. subst s2. state_simpl. subst s1.
    rewrite cancel_entries_queue. exact Hin. }
  destruct (sw_objects _ _ H4 r task Hr) as [H|H].
  - apply (Hobj r task Hin4 H).
  - apply (Hobj r _ Hin4 H).
Qed.




End scheduler_facts.

Module control_claims.
Import BatchProcessor Books completion_facts scheduler_facts.







(** X12.  A task waiting in the queue is cancelled by its identifier:
    [cancel_task] answers [True], marks the task and counts it, and
    leaves it in the queue; when the dispatch loop takes it out it is
    dropped without being submitted; cancelling it again answers [False]
    and changes nothing. *)
Theorem queued_task_cancelled_by_id_is_skipped
    (now : Z) (task_id : string) (r : nat) (q' : list nat) (s : t) :
  live_future s (futures s) task_id = None ->
  live_future s (async_tasks s) task_id = None ->
  tasks s !! task_id = Some r ->
  status_of s r = Some QUEUED ->
  let c := (cancel_task task_id s).1 in
  (cancel_task task_id s).2 = true
  /\ status_of c r = Some CANCELLED
  /\ task_queue c = task_queue s
  /\ BatchStatistics.cancelled_tasks (statistics c)
     = BatchStatistics.cancelled_tasks (statistics s) + 1
  /\ cancel_task task_id c = (c, false)
  /\ (running s = true -> pause_event s = true -> is_cancelled s = false ->
      PriorityQueue.get (lt_ref (objects c)) (task_queue c) = Some (r, q') ->
      worker_iteration now c = set_task_queue q' c).
Proof.
  intros Hf Ha Ht Hst c.
  assert (E : cancel_task task_id s = (mark_cancelled r s, true)).
  { unfold cancel_task. rewrite Hf, Ha, Ht, Hst.
    rewrite bool_decide_eq_true_2 by reflexivity. reflexivity. }
  subst c. rewrite E. cbn [fst snd].
  unfold status_of in Hst.
  destruct (objects s !! r) as [task|] eqn:Hobj; [|discriminate].
  assert (Hc : status_of (mark_cancelled r s) r = Some CANCELLED).
  { state_simpl. rewrite list_lookup_alter_eq, Hobj. reflexivity. }
  split; [reflexivity|]. split; [exact Hc|]. split; [reflexivity|].
  split; [reflexivity|]. split.
  - unfold cancel_task.
    assert (Hf' : live_future (mark_cancelled r s) (futures (mark_cancelled r s)) task_id
                  = None) by exact Hf.
    assert (Ha' : live_future (mark_cancelled r s) (async_tasks (mark_cancelled r s)) task_id
                  = None) by exact Ha.
    rewrite Hf', Ha'.
    assert (Ht' : tasks (mark_cancelled r s) !! task_id = Some r) by exact Ht.
    rewrite Ht', Hc. reflexivity.
  - intros Hrun Hpause Hcan Hget. unfold worker_iteration.
    assert (R1 : running (mark_cancelled r s) = true) by exact Hrun.
    assert (R2 : pause_event (mark_cancelled r s) = true) by exact Hpause.
    assert (R3 : is_cancelled (mark_cancelled r s) = false) by exact Hcan.
    rewrite R1, R2, R3. cbn [negb]. rewrite Hget. cbv zeta.
    assert (R4 : status_of (set_task_queue q' (mark_cancelled r s)) r = Some CANCELLED)
      by exact Hc.
    rewrite R4.
    assert (R5 : is_cancelled (set_task_queue q' (mark_cancelled r s)) = false) by exact Hcan.
    rewrite R5. reflexivity.
Qed.

(** The queued task of a started processor *)
Lemma queued_task_cancelled_by_id_is_skipped_witness :
  let s := start 1700000000500000
             (Runs.add 1700000000000000 Sample.small Runs.fresh_processor) in
  let c := (cancel_task "task_1700000000000" s).1 in
  (cancel_task "task_1700000000000" s).2 = true
  /\ status_of c 0 = Some CANCELLED
  /\ task_queue c = [0%nat]
  /\ worker_iteration 1700000001000000 c = set_task_queue [] c.
Proof.
  intros s c.
  destruct (queued_task_cancelled_by_id_is_skipped 1700000001000000
              "task_1700000000000" 0 [] s)
    as (Hans & Hst & Hq & _ & _ & Hskip);
    [vm_compute; reflexivity|vm_compute; reflexivity|vm_compute; reflexivity|reflexivity|].
  split; [exact Hans|]. split; [exact Hst|]. split; [exact Hq|].
  apply Hskip; reflexivity.
Defined.


End control_claims.
(** * The scheduler: from the queue to the result *)

Module pipeline_facts.
Import BatchProcessor Books completion_facts scheduler_facts.

Lemma lookup_snoc_length {A : Type} (l : list A) (x : A) : (l ++ [x]) !! length l = Some x.
Proof. apply list_lookup_middle. reflexivity. Qed.

Lemma insert_snoc_length {A : Type} (l : list A) (x y : A) :
  <[length l := y]> (l ++ [x]) = l ++ [y].
Proof.
  induction l as [|a l IH]; simpl; [reflexivity|]. f_equal. exact IH.
Qed.

(** A worker of the pool picks a pending future up. *)
Lemma executor_start_pending fref r k s :
  future_objects s !! fref = Some (Future.mk Future.Pending r k) ->
  k <> Future.AsyncWork ->
  executor_start fref s
  = set_future_objects (<[fref := Future.mk Future.Running r k]> (future_objects s)) s.
Proof.
  intros Hf Hk. unfold executor_start. rewrite Hf. cbn [Future.st Future.kind Future.task].
  destruct k; [reflexivity|reflexivity|contradiction].
Qed.

(** The work of a running pool future comes to its end. *)
Lemma executor_finish_running fref r k call s :
  future_objects s !! fref = Some (Future.mk Future.Running r k) ->
  k <> Future.AsyncWork ->
  executor_finish fref call s
  = set_future_objects
      (<[fref := Future.mk (Future.Finished (run_work s (Future.mk Future.Running r k) call))
                           r k]> (future_objects s)) s.
Proof.
  intros Hf Hk. unfold executor_finish. rewrite Hf. cbn [Future.st Future.kind Future.task].
  destruct k; [reflexivity|reflexivity|contradiction].
Qed.

(** The monitor thread of a future that is done *)
Lemma monitor_finished now r fref waited o k s :
  future_objects s !! fref = Some (Future.mk (Future.Finished o) r k) ->
  monitor_future now r fref waited s
  = monitor_body now r o (remove_thread (Monitor r fref) s).
Proof. intros Hf. unfold monitor_future. rewrite Hf. reflexivity. Qed.

Lemma monitor_cancelled now r fref waited k s :
  future_objects s !! fref = Some (Future.mk Future.Cancelled r k) ->
  monitor_future now r fref waited s
  = monitor_body now r (Py.Raise Py.FutureCancelledError) (remove_thread (Monitor r fref) s).
Proof. intros Hf. unfold monitor_future. rewrite Hf. reflexivity. Qed.

(** The three updates of a task by one handler *)
Lemma lookup_alter3 (f g h : BatchTask.t -> BatchTask.t) (l : list BatchTask.t) r task :
  l !! r = Some task ->
  alter h r (alter g r (alter f r l)) !! r = Some (h (g (f task))).
Proof. intros H. do 3 (apply lookup_alter_Some || idtac). exact H. Qed.

(** What [_handle_task_result] does with a success *)
Lemma handle_success now r result s task :
  objects s !! r = Some task ->
  ResultDict.success result = true ->
  let s' := _handle_task_result now r result s in
  objects s' !! r =
    Some (BatchTask.set_completed_at (Some now)
            (BatchTask.set_result_text (ResultDict.result_text result)
               (BatchTask.set_status COMPLETED task)))
  /\ BatchStatistics.completed_tasks (statistics s')
     = BatchStatistics.completed_tasks (statistics s) + 1
  /\ BatchStatistics.failed_tasks (statistics s') = BatchStatistics.failed_tasks (statistics s)
  /\ BatchStatistics.cancelled_tasks (statistics s')
     = BatchStatistics.cancelled_tasks (statistics s)
  /\ BatchStatistics.retry_count (statistics s') = BatchStatistics.retry_count (statistics s)
  /\ BatchStatistics.total_tasks (statistics s') = BatchStatistics.total_tasks (statistics s)
  /\ event_bus s' =
       event_bus s ++ [mkEvent CONVERSION_COMPLETED
                         [("task_id", Some (BatchTask.task_id task));
                          ("input_file", Some (pathlib.str (BatchTask.input_file task)))]%string
                         (Some "BatchProcessor"%string)]
  /\ task_queue s' = task_queue s /\ threads s' = threads s
  /\ futures s' = futures s /\ async_tasks s' = async_tasks s.
Proof.
  intros Hobj Hok s'. subst s'. unfold _handle_task_result. rewrite Hobj, Hok.
  cbv zeta. state_simpl.
  split; [apply lookup_alter3; exact Hobj|].
  repeat split; reflexivity.
Qed.

(** What the [except Exception] branch of a completion handler does *)
Lemma mark_failed_spec now r e s task :
  objects s !! r = Some task ->
  let s' := mark_failed now r e s in
  objects s' !! r =
    Some (BatchTask.set_completed_at (Some now)
            (BatchTask.set_error_message (Some (Py.str_exn e))
               (BatchTask.set_status FAILED task)))
  /\ BatchStatistics.failed_tasks (statistics s')
     = BatchStatistics.failed_tasks (statistics s) + 1
  /\ BatchStatistics.completed_tasks (statistics s')
     = BatchStatistics.completed_tasks (statistics s)
  /\ BatchStatistics.cancelled_tasks (statistics s')
     = BatchStatistics.cancelled_tasks (statistics s)
  /\ BatchStatistics.retry_count (statistics s') = BatchStatistics.retry_count (statistics s)
  /\ BatchStatistics.total_tasks (statistics s') = BatchStatistics.total_tasks (statistics s)
  /\ event_bus s' = event_bus s
  /\ task_queue s' = task_queue s /\ threads s' = threads s
  /\ futures s' = futures s /\ async_tasks s' = async_tasks s.
Proof.
  intros Hobj s'. subst s'. state_simpl.
  split; [apply lookup_alter3; exact Hobj|].
  repeat split; reflexivity.
Qed.

Lemma task_id_of_lookup s r task :
  objects s !! r = Some task -> task_id_of s r = BatchTask.task_id task.
Proof. intros H. unfold task_id_of. rewrite H. reflexivity. Qed.

Lemma set_future_objects_twice v w s :
  set_future_objects v (set_future_objects w s) = set_future_objects v s.
Proof. reflexivity. Qed.

(** A worker of the pool takes a pending future and runs its work to
    the end. *)
Lemma pool_round fref r k call s :
  future_objects s !! fref = Some (Future.mk Future.Pending r k) ->
  k <> Future.AsyncWork ->
  executor_finish fref call (executor_start fref s)
  = set_future_objects
      (<[fref := Future.mk (Future.Finished (run_work s (Future.mk Future.Running r k) call))
                           r k]> (future_objects s)) s.
Proof.
  intros Hf Hk.
  assert (Hlt : (fref < length (future_objects s))%nat) by (eapply lookup_lt_Some; eauto).
  rewrite (executor_start_pending fref r k s Hf Hk).
  rewrite (executor_finish_running fref r k call).
  - state_simpl. rewrite list_insert_insert_eq. reflexivity.
  - state_simpl. apply list_lookup_insert_eq. exact Hlt.
  - exact Hk.
Qed.

(** The monitor thread after such a round *)
Lemma pool_round_monitored now fref r k call waited s :
  future_objects s !! fref = Some (Future.mk Future.Pending r k) ->
  k <> Future.AsyncWork ->
  monitor_future now r fref waited (executor_finish fref call (executor_start fref s))
  = monitor_body now r (run_work s (Future.mk Future.Running r k) call)
      (remove_thread (Monitor r fref)
         (set_future_objects
            (<[fref := Future.mk
                         (Future.Finished (run_work s (Future.mk Future.Running r k) call))
                         r k]> (future_objects s)) s)).
Proof.
  intros Hf Hk.
  assert (Hlt : (fref < length (future_objects s))%nat) by (eapply lookup_lt_Some; eauto).
  rewrite (pool_round fref r k call s Hf Hk).
  apply (monitor_finished now r fref waited _ k).
  state_simpl. apply list_lookup_insert_eq. exact Hlt.
Qed.

(** The state a monitor thread works on: its future was filled in, the
    thread itself is off the list. *)
Lemma monitored_frame th v s :
  let x := remove_thread th (set_future_objects v s) in
  objects x = objects s
  /\ statistics x = statistics s
  /\ event_bus x = event_bus s
  /\ task_queue x = task_queue s
  /\ threads x = remove_first th (threads s)
  /\ futures x = futures s.
Proof. repeat split; reflexivity. Qed.

End pipeline_facts.

Module work_claims.
Import BatchProcessor Books completion_facts scheduler_facts pipeline_facts.

(** X13.  One round of the dispatch loop of a processor that is
    running, neither paused nor cancelled, whose queue gives a task that
    is not [CANCELLED]: the task is [PROCESSING] with its start time, one
    pending future is created for it, for the event loop when there is an
    asynchronous callback and the loop exists, for the pool otherwise (the
    process pool when [use_processes] is set); the future is registered
    under the identifier of the task in the table of its kind, with its
    completion handler; nothing is emitted and no counter of finished
    tasks moves. *)
Theorem dispatch_submits_one_future
    (now : Z) (r : nat) (q' : list nat) (s : t) (task : BatchTask.t) :
  running s = true -> pause_event s = true -> is_cancelled s = false ->
  PriorityQueue.get (lt_ref (objects s)) (task_queue s) = Some (r, q') ->
  objects s !! r = Some task ->
  BatchTask.status task <> CANCELLED ->
  let s' := worker_iteration now s in
  let fref := length (future_objects s) in
  let on_loop := use_async s && async_loop s in
  let kind := if on_loop then Future.AsyncWork
              else if use_processes s then Future.CpuWork else Future.SyncWork in
  task_queue s' = q'
  /\ objects s' !! r =
       Some (BatchTask.set_started_at (Some now) (BatchTask.set_status PROCESSING task))
  /\ future_objects s' = future_objects s ++ [Future.mk Future.Pending r kind]
  /\ futures s' =
       (if on_loop then futures s else <[BatchTask.task_id task := fref]> (futures s))
  /\ async_tasks s' =
       (if on_loop then <[BatchTask.task_id task := fref]> (async_tasks s)
        else async_tasks s)
  /\ threads s' = threads s ++ [if on_loop then DoneCallback r fref else Monitor r fref]
  /\ event_bus s' = event_bus s
  /\ BatchStatistics.total_tasks (statistics s') = BatchStatistics.total_tasks (statistics s)
  /\ BatchStatistics.completed_tasks (statistics s')
     = BatchStatistics.completed_tasks (statistics s)
  /\ BatchStatistics.failed_tasks (statistics s') = BatchStatistics.failed_tasks (statistics s)
  /\ BatchStatistics.cancelled_tasks (statistics s')
     = BatchStatistics.cancelled_tasks (statistics s).
Proof.
  intros Hrun Hpause Hcan Hget Hobj Hst s' fref on_loop kind.
  subst s' fref on_loop kind. unfold worker_iteration.
  rewrite Hrun, Hpause, Hcan. cbn [negb]. rewrite Hget. cbv zeta.
  assert (C1 : is_cancelled (set_task_queue q' s) = false) by exact Hcan.
  assert (C2 : status_of (set_task_queue q' s) r = Some (BatchTask.status task)).
  { state_simpl. rewrite Hobj. reflexivity. }
  rewrite C1, C2. rewrite bool_decide_eq_false_2 by (intros [=]; contradiction).
  cbn [orb]. unfold submit. state_simpl.
  assert (E : forall l : list Future.t,
            default ""%string
              (BatchTask.task_id <$>
                 alter (BatchTask.set_started_at (Some now)) r
                   (alter (BatchTask.set_status PROCESSING) r (objects s)) !! r)
            = BatchTask.task_id task).
  { intros _. do 2 rewrite list_lookup_alter_eq. rewrite Hobj. reflexivity. }
  assert (O : alter (BatchTask.set_started_at (Some now)) r
                (alter (BatchTask.set_status PROCESSING) r (objects s)) !! r
              = Some (BatchTask.set_started_at (Some now)
                        (BatchTask.set_status PROCESSING task))).
  { do 2 rewrite list_lookup_alter_eq. rewrite Hobj. reflexivity. }
  destruct (use_async s && async_loop s); state_simpl;
    rewrite (E []); (split; [reflexivity|]); (split; [exact O|]);
    repeat split; reflexivity.
Qed.

(** The task of the run [MoreRuns.running_task], at its dispatch *)
Lemma dispatch_submits_one_future_witness :
  let s := start 1700000000500000
             (Runs.add 1700000000000000 Sample.small Runs.fresh_processor) in
  let s' := worker_iteration 1700000001000000 s in
  status_of s 0 = Some QUEUED
  /\ status_of s' 0 = Some PROCESSING
  /\ future_objects s' = [Future.mk Future.Pending 0 Future.SyncWork]
  /\ threads s' = [Monitor 0 0].
Proof.
  intros s s'.
  destruct (dispatch_submits_one_future 1700000001000000 0 [] s
              (BatchTask.set_status QUEUED
                 (BatchTask.new Sample.world 1700000000000000 1700000000000100
                    Sample.small None NORMAL 3)))
    as (_ & Hobj & Hfut & _ & _ & Hth & _);
    [reflexivity|reflexivity|reflexivity|reflexivity|reflexivity|discriminate|].
  split; [reflexivity|].
  split; [unfold status_of; subst s'; rewrite Hobj; reflexivity|].
  split; [exact Hfut|exact Hth].
Defined.

(** X14.  A pending future of the thread pool whose conversion
    succeeds: once a worker has run it and its monitor thread has seen
    the result, the task is [COMPLETED] with the text of the result and
    its completion time, [completed_tasks] has grown by one, one
    [CONVERSION_COMPLETED] notification with the identifier and the input
    file of the task was emitted, the future is no longer registered, and
    the task is neither retried nor put back into the queue. *)
Theorem successful_conversion_completes_task
    (now : Z) (r fref : nat) (waited : Z) (v : ConvValue) (s : t) (task : BatchTask.t) :
  objects s !! r = Some task ->
  BatchTask.status task <> CANCELLED ->
  future_objects s !! fref = Some (Future.mk Future.Pending r Future.SyncWork) ->
  has_conversion_func s = true ->
  is_cancelled s = false ->
  let s' := monitor_future now r fref waited
              (executor_finish fref (Py.Ok v) (executor_start fref s)) in
  objects s' !! r =
    Some (BatchTask.set_completed_at (Some now)
            (BatchTask.set_result_text (Some (result_text_of v))
               (BatchTask.set_status COMPLETED task)))
  /\ BatchStatistics.completed_tasks (statistics s')
     = BatchStatistics.completed_tasks (statistics s) + 1
  /\ BatchStatistics.failed_tasks (statistics s') = BatchStatistics.failed_tasks (statistics s)
  /\ BatchStatistics.retry_count (statistics s') = BatchStatistics.retry_count (statistics s)
  /\ event_bus s' =
       event_bus s ++ [mkEvent CONVERSION_COMPLETED
                         [("task_id", Some (BatchTask.task_id task));
                          ("input_file", Some (pathlib.str (BatchTask.input_file task)))]%string
                         (Some "BatchProcessor"%string)]
  /\ futures s' = delete (BatchTask.task_id task) (futures s)
  /\ task_queue s' = task_queue s
  /\ (forall th, th ∈ threads s' -> th ∈ threads s).
Proof.
  intros Hobj Hst Hfut Hconv Hcan s'. subst s'.
  rewrite (pool_round_monitored now fref r Future.SyncWork (Py.Ok v) waited s Hfut)
    by discriminate.
  assert (Hwork : run_work s (Future.mk Future.Running r Future.SyncWork) (Py.Ok v)
                  = Py.Ok (ResultDict.ok (result_text_of v))).
  { unfold run_work. cbn [Future.task Future.kind]. rewrite Hobj.
    unfold _process_task. rewrite Hconv, Hcan. cbn [negb orb].
    rewrite bool_decide_eq_false_2 by exact Hst. reflexivity. }
  rewrite Hwork. unfold monitor_body.
  pose proof (monitored_frame (Monitor r fref)
                (<[fref := Future.mk
                             (Future.Finished (Py.Ok (ResultDict.ok (result_text_of v))))
                             r Future.SyncWork]> (future_objects s)) s)
    as (X0 & X1 & X2 & X3 & X4 & X5).
  rewrite <- X0 in Hobj.
  revert Hobj X1 X2 X3 X4 X5. generalize (remove_thread (Monitor r fref)
    (set_future_objects
       (<[fref := Future.mk (Future.Finished (Py.Ok (ResultDict.ok (result_text_of v))))
                            r Future.SyncWork]> (future_objects s)) s)).
  intros x Hx X1 X2 X3 X4 X5.
  pose proof (handle_success now r (ResultDict.ok (result_text_of v)) x task Hx eq_refl)
    as H. cbv zeta in H. destruct H as (H1 & H2 & H3 & _ & H5 & _ & H7 & H8 & H9 & H10 & _).
  revert H1 H2 H3 H5 H7 H8 H9 H10.
  generalize (_handle_task_result now r (ResultDict.ok (result_text_of v)) x).
  intros y H1 H2 H3 H5 H7 H8 H9 H10.
  cbv zeta. cbn [objects statistics event_bus task_queue threads futures set_futures].
  rewrite <- X1, <- X2, <- X3, <- X5.
  split; [exact H1|]. split; [exact H2|]. split; [exact H3|]. split; [exact H5|].
  split; [exact H7|]. split.
  - rewrite H10. unfold task_id_of. rewrite H1. reflexivity.
  - split; [exact H8|]. intros th. rewrite H9, X4.
    apply remove_first_subset.
Qed.

(** The task of [MoreRuns.converted]: dispatched, converted to the text
    of its file *)
Lemma successful_conversion_completes_task_witness :
  let before := worker_iteration 1700000001000000
                  (start 1700000000500000
                     (Runs.add 1700000000000000 Sample.small Runs.fresh_processor)) in
  let s' := MoreRuns.converted "# small" in
  status_of before 0 = Some PROCESSING
  /\ status_of s' 0 = Some COMPLETED
  /\ BatchStatistics.completed_tasks (statistics s')
     = BatchStatistics.completed_tasks (statistics before) + 1.
Proof.
  intros before s'.
  destruct (successful_conversion_completes_task 1700000002000000 0 0 1
              (ConvObject "# small") before
              (BatchTask.set_started_at (Some 1700000001000000)
                 (BatchTask.set_status PROCESSING
                    (BatchTask.set_status QUEUED
                       (BatchTask.new Sample.world 1700000000000000 1700000000000100
                          Sample.small None NORMAL 3)))))
    as (Hobj & Hdone & _);
    [reflexivity|discriminate|reflexivity|reflexivity|reflexivity|].
  subst s' before. unfold MoreRuns.converted, MoreRuns.running_task.
  split; [reflexivity|].
  split; [unfold status_of; rewrite Hobj; reflexivity|exact Hdone].
Defined.

(** X15.  A task whose future still waits in the pool is cancelled by
    its identifier: [cancel_task] answers [True], cancels the future,
    marks the task [CANCELLED] and counts it; the monitor thread of the
    future then gets the [CancelledError] of [concurrent.futures], an
    [Exception], and marks the same task [FAILED] with an empty message
    and counts it as failed too; nothing is emitted for it. *)
Theorem cancelled_pending_future_ends_failed
    (now : Z) (task_id : string) (r fref : nat) (waited : Z) (k : Future.work)
    (s : t) (task : BatchTask.t) :
  futures s !! task_id = Some fref ->
  future_objects s !! fref = Some (Future.mk Future.Pending r k) ->
  tasks s !! task_id = Some r ->
  objects s !! r = Some task ->
  let c := (cancel_task task_id s).1 in
  let s' := monitor_future now r fref waited c in
  (cancel_task task_id s).2 = true
  /\ status_of c r = Some CANCELLED
  /\ future_objects c !! fref = Some (Future.mk Future.Cancelled r k)
  /\ futures c = delete task_id (futures s)
  /\ objects s' !! r =
       Some (BatchTask.set_completed_at (Some now)
               (BatchTask.set_error_message (Some ""%string)
                  (BatchTask.set_status FAILED (BatchTask.set_status CANCELLED task))))
  /\ BatchStatistics.cancelled_tasks (statistics s')
     = BatchStatistics.cancelled_tasks (statistics s) + 1
  /\ BatchStatistics.failed_tasks (statistics s')
     = BatchStatistics.failed_tasks (statistics s) + 1
  /\ BatchStatistics.total_tasks (statistics s') = BatchStatistics.total_tasks (statistics s)
  /\ event_bus s' = event_bus s.
Proof.
  intros Hreg Hfut Htask Hobj c s'.
  assert (Hlt : (fref < length (future_objects s))%nat) by (eapply lookup_lt_Some; eauto).
  assert (E : cancel_task task_id s
              = (set_futures (delete task_id (futures s))
                   (mark_cancelled r
                      (set_future_objects
                         (<[fref := Future.mk Future.Cancelled r k]> (future_objects s)) s)),
                 true)).
  { unfold cancel_task, live_future. rewrite Hreg. cbn [mbind option_bind].
    rewrite Hfut. cbn [mbind option_bind Future.done Future.st].
    unfold cancel_registered. cbv zeta. state_simpl. rewrite Htask. reflexivity. }
  subst s' c. rewrite E. cbn [fst snd].
  set (c := set_futures _ _).
  assert (Hc : objects c !! r = Some (BatchTask.set_status CANCELLED task)).
  { subst c. state_simpl. rewrite list_lookup_alter_eq, Hobj. reflexivity. }
  assert (Hfc : future_objects c !! fref = Some (Future.mk Future.Cancelled r k)).
  { subst c. state_simpl. apply list_lookup_insert_eq. exact Hlt. }
  split; [reflexivity|].
  split; [unfold status_of; rewrite Hc; reflexivity|].
  split; [exact Hfc|]. split; [reflexivity|].
  rewrite (monitor_cancelled now r fref waited k c Hfc).
  unfold monitor_body. cbn [Py.is_Exception]. cbv zeta.
  assert (Hx : objects (remove_thread (Monitor r fref) c) !! r
               = Some (BatchTask.set_status CANCELLED task)) by exact Hc.
  assert (X1 : BatchStatistics.cancelled_tasks (statistics (remove_thread (Monitor r fref) c))
               = BatchStatistics.cancelled_tasks (statistics s) + 1) by reflexivity.
  assert (X2 : BatchStatistics.failed_tasks (statistics (remove_thread (Monitor r fref) c))
               = BatchStatistics.failed_tasks (statistics s)) by reflexivity.
  assert (X3 : BatchStatistics.total_tasks (statistics (remove_thread (Monitor r fref) c))
               = BatchStatistics.total_tasks (statistics s)) by reflexivity.
  assert (X4 : event_bus (remove_thread (Monitor r fref) c) = event_bus s) by reflexivity.
  revert Hx X1 X2 X3 X4. generalize (remove_thread (Monitor r fref) c).
  clear c Hc Hfc. intros x Hx X1 X2 X3 X4.
  pose proof (mark_failed_spec now r Py.FutureCancelledError x _ Hx) as H.
  cbv zeta in H. destruct H as (H1 & H2 & _ & H4 & _ & H6 & H7 & _).
  revert H1 H2 H4 H6 H7. generalize (mark_failed now r Py.FutureCancelledError x).
  intros y H1 H2 H4 H6 H7.
  cbn [objects statistics event_bus task_queue threads set_futures].
  split; [exact H1|]. split; [congruence|].
  split; [congruence|]. split; congruence.
Qed.

(** The dispatched task of [MoreRuns.running_task] before a worker has
    picked it up *)
Lemma cancelled_pending_future_ends_failed_witness :
  let s := worker_iteration 1700000001000000
             (start 1700000000500000
                (Runs.add 1700000000000000 Sample.small Runs.fresh_processor)) in
  let c := (cancel_task "task_1700000000000" s).1 in
  let s' := monitor_future 1700000002000000 0 0 0 c in
  status_of s 0 = Some PROCESSING
  /\ (cancel_task "task_1700000000000" s).2 = true
  /\ status_of c 0 = Some CANCELLED
  /\ BatchStatistics.cancelled_tasks (statistics s')
     = BatchStatistics.cancelled_tasks (statistics s) + 1
  /\ BatchStatistics.failed_tasks (statistics s')
     = BatchStatistics.failed_tasks (statistics s) + 1.
Proof.
  intros s c s'.
  destruct (cancelled_pending_future_ends_failed 1700000002000000
              "task_1700000000000" 0 0 0 Future.SyncWork s
              (BatchTask.set_started_at (Some 1700000001000000)
                 (BatchTask.set_status PROCESSING
                    (BatchTask.set_status QUEUED
                       (BatchTask.new Sample.world 1700000000000000 1700000000000100
                          Sample.small None NORMAL 3)))))
    as (Hans & Hst & _ & _ & _ & Hcan & Hfail & _);
    [vm_compute; reflexivity|reflexivity|vm_compute; reflexivity|reflexivity|].
  split; [reflexivity|]. split; [exact Hans|]. split; [exact Hst|].
  split; [exact Hcan|exact Hfail].
Defined.

(** X16.  [cancel_task] answers [False] exactly when no live future is
    registered under the identifier and the identifier is unknown or its
    task is not [QUEUED]; the processor is then left as it was.  So a
    task waiting for its retry cannot be cancelled by its identifier. *)
Theorem cancel_task_refused_changes_nothing (task_id : string) (s : t) :
  ((cancel_task task_id s).2 = false
   <-> live_future s (futures s) task_id = None
       /\ live_future s (async_tasks s) task_id = None
       /\ forall r, tasks s !! task_id = Some r -> status_of s r <> Some QUEUED)
  /\ ((cancel_task task_id s).2 = false -> (cancel_task task_id s).1 = s).
Proof.
  unfold cancel_task.
  destruct (live_future s (futures s) task_id) as [[fref fut]|].
  { cbn [fst snd]. split; [|discriminate]. split; [discriminate|].
    intros (H & _). discriminate. }
  destruct (live_future s (async_tasks s) task_id) as [[fref fut]|].
  { cbn [fst snd]. split; [|discriminate]. split; [discriminate|].
    intros (_ & H & _). discriminate. }
  destruct (tasks s !! task_id) as [r|].
  - destruct (bool_decide (status_of s r = Some QUEUED)) eqn:Hq; cbn [fst snd].
    + apply bool_decide_eq_true_1 in Hq.
      split; [|discriminate]. split; [discriminate|].
      intros (_ & _ & H). exfalso. exact (H r eq_refl Hq).
    + apply bool_decide_eq_false_1 in Hq.
      split; [|reflexivity]. split; [|reflexivity].
      intros _. repeat split. intros r' [= <-]. exact Hq.
  - cbn [fst snd]. split; [|reflexivity]. split; [|reflexivity].
    intros _. repeat split. intros r' [=].
Qed.

(** The task of the run [Runs.retry_pending], waiting for its timer *)
Lemma cancel_task_refused_changes_nothing_witness :
  status_of Runs.retry_pending 0 = Some RETRYING
  /\ cancel_task "task_1700000000000" Runs.retry_pending = (Runs.retry_pending, false)
  /\ status_of Runs.retry_requeued 0 = Some QUEUED.
Proof.
  destruct (cancel_task_refused_changes_nothing "task_1700000000000" Runs.retry_pending)
    as (_ & Hsame).
  split; [reflexivity|]. split; [|reflexivity].
  rewrite (surjective_pairing (cancel_task "task_1700000000000" Runs.retry_pending)).
  assert (Hno : (cancel_task "task_1700000000000" Runs.retry_pending).2 = false)
    by (vm_compute; reflexivity).
  rewrite (Hsame Hno), Hno. reflexivity.
Defined.

(** X17.  A processor built without a conversion function starts and
    dispatches all the same; the work of the future then raises the
    [ValueError] of [_process_task], which its monitor thread turns into
    a failure: the task is [FAILED] at once with the message of the
    error, whatever [max_retries] is; it is not retried and no
    [CONVERSION_FAILED] notification is emitted. *)
Theorem missing_conversion_function_fails_task_silently
    (now : Z) (r fref : nat) (waited : Z) (call : Py.result ConvValue)
    (s : t) (task : BatchTask.t) :
  has_conversion_func s = false ->
  objects s !! r = Some task ->
  future_objects s !! fref = Some (Future.mk Future.Pending r Future.SyncWork) ->
  let s' := monitor_future now r fref waited
              (executor_finish fref call (executor_start fref s)) in
  objects s' !! r =
    Some (BatchTask.set_completed_at (Some now)
            (BatchTask.set_error_message (Some "No conversion function provided"%string)
               (BatchTask.set_status FAILED task)))
  /\ BatchStatistics.failed_tasks (statistics s')
     = BatchStatistics.failed_tasks (statistics s) + 1
  /\ BatchStatistics.retry_count (statistics s') = BatchStatistics.retry_count (statistics s)
  /\ event_bus s' = event_bus s
  /\ task_queue s' = task_queue s
  /\ (forall th, th ∈ threads s' -> th ∈ threads s).
Proof.
  intros Hconv Hobj Hfut s'. subst s'.
  rewrite (pool_round_monitored now fref r Future.SyncWork call waited s Hfut)
    by discriminate.
  assert (Hwork : run_work s (Future.mk Future.Running r Future.SyncWork) call
                  = Py.Raise (Py.ValueError "No conversion function provided")).
  { unfold run_work. cbn [Future.task Future.kind]. rewrite Hobj.
    unfold _process_task. rewrite Hconv. reflexivity. }
  rewrite Hwork. unfold monitor_body. cbn [Py.is_Exception]. cbv zeta.
  pose proof (monitored_frame (Monitor r fref)
                (<[fref := Future.mk
                             (Future.Finished
                                (Py.Raise (Py.ValueError "No conversion function provided")))
                             r Future.SyncWork]> (future_objects s)) s)
    as (X0 & X1 & X2 & X3 & X4 & _).
  rewrite <- X0 in Hobj.
  revert Hobj X1 X2 X3 X4. generalize (remove_thread (Monitor r fref)
    (set_future_objects
       (<[fref := Future.mk
                    (Future.Finished
                       (Py.Raise (Py.ValueError "No conversion function provided")))
                    r Future.SyncWork]> (future_objects s)) s)).
  intros x Hx X1 X2 X3 X4.
  pose proof (mark_failed_spec now r (Py.ValueError "No conversion function provided")
                x _ Hx) as H.
  cbv zeta in H. destruct H as (H1 & H2 & _ & _ & H5 & _ & H7 & H8 & H9 & _).
  revert H1 H2 H5 H7 H8 H9.
  generalize (mark_failed now r (Py.ValueError "No conversion function provided") x).
  intros y H1 H2 H5 H7 H8 H9.
  cbn [objects statistics event_bus task_queue threads set_futures].
  rewrite <- X1.
  split; [exact H1|]. split; [exact H2|]. split; [exact H5|]. split; [congruence|].
  split; [congruence|]. intros th. rewrite H9, X4.
  apply remove_first_subset.
Qed.

(** A processor built without callbacks, one task with three retries *)
Lemma missing_conversion_function_fails_task_silently_witness :
  let s := worker_iteration 1700000001000000
             (start 1700000000500000
                (Runs.add 1700000000000000 Sample.small (init 4 false false false))) in
  let s' := monitor_future 1700000002000000 0 0 1
              (executor_finish 0 (Py.Ok (ConvObject "# small")) (executor_start 0 s)) in
  status_of s 0 = Some PROCESSING
  /\ status_of s' 0 = Some FAILED
  /\ event_bus s' = event_bus s
  /\ task_queue s' = task_queue s.
Proof.
  intros s s'.
  destruct (missing_conversion_function_fails_task_silently 1700000002000000 0 0 1
              (Py.Ok (ConvObject "# small")) s
              (BatchTask.set_started_at (Some 1700000001000000)
                 (BatchTask.set_status PROCESSING
                    (BatchTask.set_status QUEUED
                       (BatchTask.new Sample.world 1700000000000000 1700000000000100
                          Sample.small None NORMAL 3)))))
    as (Hobj & _ & _ & Hev & Hq & _);
    [reflexivity|reflexivity|reflexivity|].
  split; [reflexivity|].
  split; [unfold status_of; subst s'; rewrite Hobj; reflexivity|].
  split; [exact Hev|exact Hq].
Defined.



End work_claims.
(** * The scheduler: fingerprints and the table of tasks *)

Module fingerprint_facts.
Import BatchProcessor.

Lemma read_prefix_app (pre rest : list Byte.byte) :
  read_prefix (N.of_nat (length pre)) (pre ++ rest) = pre.
Proof.
  induction pre as [|b pre IH]; simpl length.
  - destruct rest; reflexivity.
  - cbn [app read_prefix].
    destruct (N.eqb_spec (N.of_nat (S (length pre))) 0) as [E|_]; [lia|].
    replace (N.pred (N.of_nat (S (length pre)))) with (N.of_nat (length pre)) by lia.
    rewrite IH. reflexivity.
Qed.

(** The fingerprint of a file that exists and can be read *)
Lemma file_hash_readable env tt dn input output prio retries content :
  fs_exists env input = true ->
  fs_read env input = Some content ->
  BatchTask.file_hash (BatchTask.new env tt dn input output prio retries)
  = Some (md5_hexdigest env (read_prefix (1024 * 1024) content)).
Proof.
  intros He Hr. unfold BatchTask.new, BatchTask.post_init.
  cbn [BatchTask.input_file]. rewrite He, Hr. reflexivity.
Qed.

(** A file that is missing or cannot be read has no fingerprint. *)
Lemma file_hash_unreadable env tt dn input output prio retries :
  fs_exists env input = false \/ fs_read env input = None ->
  BatchTask.file_hash (BatchTask.new env tt dn input output prio retries) = None.
Proof.
  intros H. unfold BatchTask.new, BatchTask.post_init. cbn [BatchTask.input_file].
  destruct (fs_exists env input); [|reflexivity].
  destruct H as [H|H]; [discriminate|]. rewrite H. reflexivity.
Qed.

(** Whether its task is admitted or refused, the fingerprint of an added
    file is among the fingerprints seen. *)
Lemma add_task_records_hash env tt dn input output prio retries s h :
  BatchTask.file_hash (BatchTask.new env tt dn input output prio retries) = Some h ->
  h <> ""%string ->
  h ∈ duplicate_hashes (add_task env tt dn input output prio retries s).1.
Proof.
  intros Hh Hne.
  destruct (decide (h ∈ duplicate_hashes s)) as [Hin|Hnin].
  - destruct (add_task_facts.add_task_duplicate env tt dn input output prio retries s h
                Hh Hne Hin) as (_ & _ & _ & _ & _ & _ & Hd).
    rewrite Hd. exact Hin.
  - assert (Hfresh : Runs.fresh env tt dn input output prio retries s).
    { unfold Runs.fresh. rewrite Hh. cbn [default].
      rewrite bool_decide_eq_false_2 by exact Hnin. apply andb_false_r. }
    destruct (add_task_facts.add_task_queued env tt dn input output prio retries s Hfresh)
      as (_ & _ & _ & _ & _ & _ & Hd).
    rewrite Hd, Hh, (add_task_facts.truthy_str_Some h Hne). cbn [default].
    apply elem_of_union. left. apply elem_of_singleton. reflexivity.
Qed.

Lemma mebibyte_length : N.of_nat (length LongFiles.mebibyte) = (1024 * 1024)%N.
Proof. unfold LongFiles.mebibyte. rewrite repeat_length. apply N2Nat.id. Qed.

End fingerprint_facts.

Module lookup_claims.
Import BatchProcessor Books add_task_facts fingerprint_facts.

(** X18.  A file that is missing, or that cannot be read, has no
    fingerprint, so its task is never taken for a duplicate: it is
    [QUEUED], counted and put into the queue however often the same path
    is added, and the set of fingerprints stays as it was. *)
Theorem unreadable_file_is_never_a_duplicate
    (env : Env) (tt dn : Z) (input : Path) (output : option Path)
    (prio : TaskPriority) (retries : Z) (s : t) :
  fs_exists env input = false \/ fs_read env input = None ->
  let s' := (add_task env tt dn input output prio retries s).1 in
  let r := length (objects s) in
  status_of s' r = Some QUEUED
  /\ BatchTask.file_hash <$> objects s' !! r = Some None
  /\ task_queue s' ≡ₚ r :: task_queue s
  /\ BatchStatistics.total_tasks (statistics s')
     = BatchStatistics.total_tasks (statistics s) + 1
  /\ BatchStatistics.cancelled_tasks (statistics s')
     = BatchStatistics.cancelled_tasks (statistics s)
  /\ duplicate_hashes s' = duplicate_hashes s.
Proof.
  intros Hbad s' r.
  pose proof (file_hash_unreadable env tt dn input output prio retries Hbad) as Hh.
  assert (Hfresh : Runs.fresh env tt dn input output prio retries s).
  { unfold Runs.fresh. rewrite Hh. reflexivity. }
  destruct (add_task_queued env tt dn input output prio retries s Hfresh)
    as (Hobj & _ & Hq & Htot & Hcan & _ & Hdup).
  fold s' in Hobj, Hq, Htot, Hcan, Hdup.
  unfold status_of. rewrite Hobj. subst r.
  rewrite lookup_app_r by lia. rewrite Nat.sub_diag.
  cbn [lookup list_lookup fmap option_fmap option_map].
  split; [reflexivity|]. split; [cbn; rewrite Hh; reflexivity|].
  split; [exact Hq|]. split; [exact Htot|]. split; [exact Hcan|].
  rewrite Hdup, Hh. reflexivity.
Qed.

(** The missing file of [Sample], added twice *)
Lemma unreadable_file_is_never_a_duplicate_witness :
  let s := Runs.add 1700000000000000 Sample.missing Runs.fresh_processor in
  let s' := Runs.add 1700000001000000 Sample.missing s in
  status_of s' 0 = Some QUEUED /\ status_of s' 1 = Some QUEUED
  /\ BatchStatistics.total_tasks (statistics s') = BatchStatistics.total_tasks (statistics s) + 1.
Proof.
  intros s s'.
  destruct (unreadable_file_is_never_a_duplicate Sample.world
              1700000001000000 1700000001000100 Sample.missing None NORMAL 3 s)
    as (Hst & _ & _ & Htot & _); [left; reflexivity|].
  split; [reflexivity|]. split; [exact Hst|exact Htot].
Defined.

(** X19.  The fingerprint is taken of the first MiB of a file: two
    readable files that agree on their first 1048576 bytes have the same
    fingerprint whatever follows, and the one added second is refused as
    a duplicate of the first: [CANCELLED] with the message "Duplicate
    file", neither put into the queue nor counted in [total_tasks]. *)
Theorem files_sharing_first_mebibyte_are_duplicates
    (env : Env) (s : t) (pre rest1 rest2 : list Byte.byte)
    (t1 d1 : Z) (in1 : Path) (out1 : option Path) (p1 : TaskPriority) (m1 : Z)
    (t2 d2 : Z) (in2 : Path) (out2 : option Path) (p2 : TaskPriority) (m2 : Z) :
  N.of_nat (length pre) = (1024 * 1024)%N ->
  fs_exists env in1 = true -> fs_read env in1 = Some (pre ++ rest1) ->
  fs_exists env in2 = true -> fs_read env in2 = Some (pre ++ rest2) ->
  md5_hexdigest env pre <> ""%string ->
  let first := add_task env t1 d1 in1 out1 p1 m1 s in
  let second := add_task env t2 d2 in2 out2 p2 m2 first.1 in
  BatchTask.file_hash (BatchTask.new env t1 d1 in1 out1 p1 m1)
  = BatchTask.file_hash (BatchTask.new env t2 d2 in2 out2 p2 m2)
  /\ status_of second.1 second.2 = Some CANCELLED
  /\ BatchTask.error_message <$> objects second.1 !! second.2
     = Some (Some "Duplicate file"%string)
  /\ task_queue second.1 = task_queue first.1
  /\ BatchStatistics.total_tasks (statistics second.1)
     = BatchStatistics.total_tasks (statistics first.1).
Proof.
  intros Hlen He1 Hr1 He2 Hr2 Hne first second.
  pose proof (file_hash_readable env t1 d1 in1 out1 p1 m1 _ He1 Hr1) as Hh1.
  pose proof (file_hash_readable env t2 d2 in2 out2 p2 m2 _ He2 Hr2) as Hh2.
  rewrite <- Hlen, read_prefix_app in Hh1, Hh2.
  set (h := md5_hexdigest env pre) in *.
  assert (Hseen : h ∈ duplicate_hashes first.1)
    by exact (add_task_records_hash env t1 d1 in1 out1 p1 m1 s h Hh1 Hne).
  destruct (add_task_duplicate env t2 d2 in2 out2 p2 m2 first.1 h Hh2 Hne Hseen)
    as (Hobj & _ & Hq & Htot & _).
  fold second in Hobj, Hq, Htot.
  assert (Href : second.2 = length (objects first.1)) by apply add_task_ref.
  split; [rewrite Hh1, Hh2; reflexivity|].
  unfold status_of. rewrite Hobj, Href.
  rewrite lookup_app_r by lia. rewrite Nat.sub_diag.
  split; [reflexivity|]. split; [reflexivity|]. split; [exact Hq|exact Htot].
Qed.

(** The two long files of [LongFiles], which differ in their last byte *)
Lemma files_sharing_first_mebibyte_are_duplicates_witness :
  let first := add_task LongFiles.world 1700000000000000 1700000000000100
                 LongFiles.long_a None NORMAL 3 Runs.fresh_processor in
  let second := add_task LongFiles.world 1700000001000000 1700000001000100
                  LongFiles.long_b None NORMAL 3 first.1 in
  fs_read LongFiles.world LongFiles.long_a <> fs_read LongFiles.world LongFiles.long_b
  /\ status_of second.1 second.2 = Some CANCELLED
  /\ task_queue second.1 = task_queue first.1.
Proof.
  intros first second.
  destruct (files_sharing_first_mebibyte_are_duplicates LongFiles.world Runs.fresh_processor
              LongFiles.mebibyte [Byte.x01] [Byte.x02]
              1700000000000000 1700000000000100 LongFiles.long_a None NORMAL 3
              1700000001000000 1700000001000100 LongFiles.long_b None NORMAL 3)
    as (_ & Hst & _ & Hq & _).
  - exact mebibyte_length.
  - reflexivity.
  - reflexivity.
  - reflexivity.
  - reflexivity.
  - discriminate.
  - split; [|split; [exact Hst|exact Hq]].
    change (Some (LongFiles.mebibyte ++ [Byte.x01]) <> Some (LongFiles.mebibyte ++ [Byte.x02])).
    intros E. apply (inj Some) in E. apply app_inv_head in E. discriminate.
Defined.

(** X20.  A task that is not refused as a duplicate is registered under
    its identifier: [get_task] finds it, [QUEUED]; it is counted in
    [total_tasks] and announced by one [CONVERSION_STARTED] notification
    with its identifier and its input file; the tasks registered under
    other identifiers are found as before.  A refused duplicate is not
    registered: the table of tasks is left as it was. *)
Theorem added_task_is_found_by_its_identifier
    (env : Env) (tt dn : Z) (input : Path) (output : option Path)
    (prio : TaskPriority) (retries : Z) (s : t) :
  let task := BatchTask.new env tt dn input output prio retries in
  let s' := (add_task env tt dn input output prio retries s).1 in
  let refused := truthy_str (BatchTask.file_hash task)
                 && bool_decide (default ""%string (BatchTask.file_hash task)
                                 ∈ duplicate_hashes s) in
  (refused = false ->
     get_task (BatchTask.task_id task) s' = Some (BatchTask.set_status QUEUED task)
     /\ (forall id x, id <> BatchTask.task_id task ->
           get_task id s = Some x -> get_task id s' = Some x)
     /\ BatchStatistics.total_tasks (statistics s')
        = BatchStatistics.total_tasks (statistics s) + 1
     /\ event_bus s' =
          event_bus s ++ [mkEvent CONVERSION_STARTED
                            [("task_id", Some (BatchTask.task_id task));
                             ("input_file", Some (pathlib.str input))]%string
                            (Some "BatchProcessor"%string)])
  /\ (refused = true -> tasks s' = tasks s /\ event_bus s' = event_bus s).
Proof.
  intros task s' refused. split.
  - intros Hfresh.
    destruct (add_task_queued env tt dn input output prio retries s Hfresh)
      as (Hobj & Htasks & _ & Htot & _ & Hev & _).
    fold s' in Hobj, Htasks, Htot, Hev. fold task in Hobj, Htasks, Hev.
    split; [|split; [|split; [exact Htot|exact Hev]]].
    + unfold get_task. rewrite Htasks, lookup_insert_eq. cbn [mbind option_bind].
      rewrite Hobj, lookup_app_r by lia. rewrite Nat.sub_diag. reflexivity.
    + intros id x Hne Hget. unfold get_task in *.
      rewrite Htasks, lookup_insert_ne by (intros E; apply Hne; symmetry; exact E).
      destruct (tasks s !! id) as [r|]; [|discriminate]. cbn [mbind option_bind] in *.
      rewrite Hobj. apply lookup_app_l_Some. exact Hget.
  - intros Hdup. subst refused. apply andb_prop in Hdup as [Htruthy Hin].
    apply bool_decide_eq_true_1 in Hin.
    destruct (BatchTask.file_hash task) as [h|] eqn:Hh; [|discriminate].
    assert (Hne : h <> ""%string).
    { intros ->. discriminate. }
    destruct (add_task_duplicate env tt dn input output prio retries s h Hh Hne Hin)
      as (_ & Htasks & _ & _ & _ & Hev & _).
    split; [exact Htasks|exact Hev].
Qed.

(** The first file of [Sample] is registered, its copy is not. *)
Lemma added_task_is_found_by_its_identifier_witness :
  let s := Runs.fresh_processor in
  let s' := Runs.add 1700000000000000 Sample.small s in
  let s'' := Runs.add 1700000001000000 Sample.copy s' in
  (BatchTask.status <$> get_task "task_1700000000000" s') = Some QUEUED
  /\ tasks s'' = tasks s'.
Proof.
  intros s s' s''.
  destruct (added_task_is_found_by_its_identifier Sample.world
              1700000000000000 1700000000000100 Sample.small None NORMAL 3 s)
    as ((Hget & _) & _); [reflexivity|].
  destruct (added_task_is_found_by_its_identifier Sample.world
              1700000001000000 1700000001000100 Sample.copy None NORMAL 3 s')
    as (_ & Hdup).
  destruct Hdup as (Htasks & _); [reflexivity|].
  split; [|exact Htasks].
  change (BatchTask.task_id
            (BatchTask.new Sample.world 1700000000000000 1700000000000100
               Sample.small None NORMAL 3))
    with "task_1700000000000"%string in Hget.
  change (BatchTask.status <$>
            get_task "task_1700000000000"
              (add_task Sample.world 1700000000000000 1700000000000100
                 Sample.small None NORMAL 3 s).1 = Some QUEUED).
  rewrite Hget. reflexivity.
Defined.

End lookup_claims.
(** * The scheduler: the books are balanced *)

Module ledger_facts.
Import BatchProcessor Books completion_facts scheduler_facts pipeline_facts.

Lemma remove_first_length th l : th ∈ l -> S (length (remove_first th l)) = length l.
Proof.
  induction l as [|x l IH]; intros Hin; [inversion Hin|].
  simpl. destruct (decide (x = th)) as [->|Hne]; [reflexivity|].
  apply elem_of_cons in Hin as [->|Hin]; [contradiction|].
  simpl. rewrite IH by exact Hin. reflexivity.
Qed.

(** The ledger of a state after the updates of the source *)
Ltac ledger_simpl :=
  unfold ledger_of, in_flight in *; state_simpl;
  cbn [l_events l_total l_completed l_failed l_in_flight l_hashes
       BatchStatistics.total_tasks BatchStatistics.completed_tasks
       BatchStatistics.failed_tasks BatchStatistics.update_status
       BatchStatistics.set_total_tasks BatchStatistics.set_completed_tasks
       BatchStatistics.set_failed_tasks BatchStatistics.set_cancelled_tasks
       BatchStatistics.set_retry_count BatchStatistics.set_start_time
       BatchStatistics.set_end_time] in *.

Ltac quiet :=
  solve [apply move_quiet; ledger_simpl;
         rewrite ?length_app; simpl length; try reflexivity; try lia].

Lemma move_refl s : move (ledger_of s) (ledger_of s).
Proof. apply move_quiet; try reflexivity. Qed.

Lemma swept_move s s' : swept s s' -> move (ledger_of s) (ledger_of s').
Proof.
  intros H. apply move_quiet; ledger_simpl.
  - apply H.
  - apply H.
  - apply H.
  - apply H.
  - rewrite (sw_threads _ _ H). pose proof (sw_queue _ _ H). lia.
  - apply H.
Qed.

(** *** The steps taken by the caller *)

Lemma add_task_move env tt dn input output prio retries s :
  move (ledger_of s) (ledger_of (add_task env tt dn input output prio retries s).1).
Proof.
  unfold add_task. cbv zeta.
  set (task := BatchTask.new env tt dn input output prio retries).
  assert (Haccept : forall hashes : gset string,
    duplicate_hashes s ⊆ hashes ->
    move (ledger_of s)
      (mkLedger
         (event_bus s ++ [mkEvent CONVERSION_STARTED
                            [("task_id", Some (BatchTask.task_id task));
                             ("input_file", Some (pathlib.str input))]%string
                            (Some "BatchProcessor"%string)])
         (BatchStatistics.total_tasks (statistics s) + 1)
         (BatchStatistics.completed_tasks (statistics s))
         (BatchStatistics.failed_tasks (statistics s))
         (Z.of_nat (length (PriorityQueue.put (lt_ref (objects s ++ [task]))
                              (task_queue s) (length (objects s))))
          + Z.of_nat (length (threads s)))
         hashes)).
  { intros hashes Hsub. eapply move_accept; ledger_simpl; try reflexivity.
    - reflexivity.
    - rewrite put_length. lia.
    - exact Hsub. }
  destruct (truthy_str (BatchTask.file_hash task)) eqn:Ht.
  - destruct (bool_decide _) eqn:Hb; cbn [andb fst].
    + quiet.
    + apply Haccept. apply union_subseteq_r.
  - cbn [andb fst]. apply Haccept. reflexivity.
Qed.

Lemma start_move now s : move (ledger_of s) (ledger_of (start now s)).
Proof.
  unfold start. destruct (running s); [apply move_refl|]. cbv zeta. state_simpl.
  destruct (use_async s); quiet.
Qed.

Lemma pause_move s : move (ledger_of s) (ledger_of (pause s)).
Proof. unfold pause. quiet. Qed.

Lemma resume_move s : move (ledger_of s) (ledger_of (resume s)).
Proof. unfold resume. quiet. Qed.

Lemma cancel_all_move s : move (ledger_of s) (ledger_of (cancel_all s)).
Proof.
  change (ledger_of s)
    with (ledger_of (set_async_tasks ∅ (set_futures ∅ (set_is_cancelled true s)))).
  apply swept_move. apply cancel_all_spec.
Qed.

Lemma cancel_task_move task_id s : move (ledger_of s) (ledger_of (cancel_task task_id s).1).
Proof.
  unfold cancel_task.
  destruct (live_future s (futures s) task_id) as [[fref fut]|].
  { cbv zeta. cbn [fst]. unfold cancel_registered. cbv zeta. state_simpl.
    destruct (tasks s !! task_id); quiet. }
  destruct (live_future s (async_tasks s) task_id) as [[fref fut]|].
  { cbv zeta. cbn [fst]. unfold cancel_registered. cbv zeta. state_simpl.
    destruct (tasks s !! task_id); quiet. }
  destruct (tasks s !! task_id) as [r|]; [|apply move_refl].
  destruct (bool_decide _); cbn [fst]; [quiet|apply move_refl].
Qed.

Lemma stop_move now s : move (ledger_of s) (ledger_of (stop now s)).
Proof.
  unfold stop. cbv zeta.
  pose proof (cancel_all_move (set_running false s)) as H.
  change (ledger_of (set_running false s)) with (ledger_of s) in H.
  revert H. generalize (cancel_all (set_running false s)) (ledger_of s).
  intros y a H. exact H.
Qed.

Lemma worker_iteration_move now s : move (ledger_of s) (ledger_of (worker_iteration now s)).
Proof.
  unfold worker_iteration.
  destruct (negb (running s)); [apply move_refl|].
  destruct (negb (pause_event s)); [apply move_refl|].
  destruct (is_cancelled s) eqn:Hc; [apply move_refl|].
  destruct (PriorityQueue.get _ _) as [[r q']|] eqn:Hget; [|apply move_refl].
  apply get_length in Hget. cbv zeta. state_simpl. rewrite Hc. cbn [orb].
  destruct (bool_decide _); [quiet|].
  unfold submit.
  destruct (use_async s && async_loop s); quiet.
Qed.

Lemma executor_start_move fref s : move (ledger_of s) (ledger_of (executor_start fref s)).
Proof.
  unfold executor_start.
  destruct (future_objects s !! fref) as [fut|]; [|apply move_refl].
  destruct (Future.st fut); try apply move_refl.
  destruct (Future.kind fut); try apply move_refl; quiet.
Qed.

Lemma executor_finish_move fref call s :
  move (ledger_of s) (ledger_of (executor_finish fref call s)).
Proof.
  unfold executor_finish.
  destruct (future_objects s !! fref) as [fut|]; [|apply move_refl].
  cbv zeta.
  destruct (Future.st fut); try apply move_refl;
    destruct (Future.kind fut); try apply move_refl; try quiet.
  destruct (run_work s fut call) as [res|e]; [quiet|].
  destruct e; quiet.
Qed.

(** *** The steps taken by the completion handlers and the timers

    [x] is [s] after one closure was taken off the list of threads. *)

Local Abbreviation consumed s x :=
  (event_bus x = event_bus s
   /\ BatchStatistics.total_tasks (statistics x) = BatchStatistics.total_tasks (statistics s)
   /\ BatchStatistics.completed_tasks (statistics x)
      = BatchStatistics.completed_tasks (statistics s)
   /\ BatchStatistics.failed_tasks (statistics x) = BatchStatistics.failed_tasks (statistics s)
   /\ Z.of_nat (length (task_queue x)) + Z.of_nat (length (threads x)) + 1
      = Z.of_nat (length (task_queue s)) + Z.of_nat (length (threads s))
   /\ duplicate_hashes x = duplicate_hashes s).

Lemma remove_thread_consumed th s : th ∈ threads s -> consumed s (remove_thread th s).
Proof.
  intros Hin. state_simpl. repeat split; try reflexivity.
  apply remove_first_length in Hin. lia.
Qed.

Lemma consumed_move s x : consumed s x -> move (ledger_of s) (ledger_of x).
Proof.
  intros (He & Ht & Hc & Hf & Hn & Hd).
  apply move_quiet; ledger_simpl; try assumption. lia.
Qed.

Lemma handle_task_result_move now r result s x :
  consumed s x -> move (ledger_of s) (ledger_of (_handle_task_result now r result x)).
Proof.
  intros Hx. pose proof Hx as (He & Ht & Hc & Hf & Hn & Hd).
  unfold _handle_task_result.
  destruct (objects x !! r) as [task|]; [|apply consumed_move; exact Hx].
  destruct (ResultDict.success result).
  { cbv zeta.
    eapply (move_complete _ _
              (mkEvent CONVERSION_COMPLETED
                 [("task_id", Some (BatchTask.task_id task));
                  ("input_file", Some (pathlib.str (BatchTask.input_file task)))]%string
                 (Some "BatchProcessor"%string)));
      ledger_simpl; try congruence; try reflexivity. lia. }
  destruct ((BatchTask.retry_count task <? BatchTask.max_retries task)
            && negb (is_cancelled x)).
  { cbv zeta. apply move_quiet; ledger_simpl; try congruence.
    rewrite length_app. simpl length. lia. }
  cbv zeta.
  eapply (move_fail _ _
            [mkEvent CONVERSION_FAILED
               [("task_id", Some (BatchTask.task_id task));
                ("error", ResultDict.error result)]%string
               (Some "BatchProcessor"%string)]);
    ledger_simpl; try congruence; try lia.
  right. eexists. split; reflexivity.
Qed.

Lemma mark_failed_move now r e s x :
  consumed s x -> move (ledger_of s) (ledger_of (mark_failed now r e x)).
Proof.
  intros (He & Ht & Hc & Hf & Hn & Hd).
  eapply (move_fail _ _ []); ledger_simpl; try congruence; try lia.
  - left. reflexivity.
  - rewrite app_nil_r. exact He.
Qed.

Lemma move_under_set_futures a v y :
  move a (ledger_of y) -> move a (ledger_of (set_futures v y)).
Proof. intros H. exact H. Qed.

Lemma move_under_set_async_tasks a v y :
  move a (ledger_of y) -> move a (ledger_of (set_async_tasks v y)).
Proof. intros H. exact H. Qed.

Lemma monitor_future_move now r fref waited s :
  Monitor r fref ∈ threads s ->
  move (ledger_of s) (ledger_of (monitor_future now r fref waited s)).
Proof.
  intros Hin. unfold monitor_future.
  destruct (future_objects s !! fref) as [fut|]; [|apply move_refl].
  destruct (Future.result _ fut _ waited) as [outcome|]; [|apply move_refl].
  pose proof (remove_thread_consumed _ _ Hin) as Hx.
  unfold monitor_body. cbv zeta. apply move_under_set_futures.
  destruct outcome as [result|e]; [apply handle_task_result_move; exact Hx|].
  destruct (Py.is_Exception e); [apply mark_failed_move; exact Hx|].
  apply consumed_move. exact Hx.
Qed.

Lemma cancelled_move r s x :
  consumed s x -> move (ledger_of s) (ledger_of (processing_floor (mark_cancelled r x))).
Proof.
  intros (He & Ht & Hc & Hf & Hn & Hd).
  apply move_quiet; ledger_simpl; try assumption. lia.
Qed.

Lemma on_complete_move now cancelled_error r fref s :
  DoneCallback r fref ∈ threads s ->
  move (ledger_of s) (ledger_of (on_complete now cancelled_error r fref s)).
Proof.
  intros Hin. unfold on_complete.
  destruct (future_objects s !! fref) as [fut|]; [|apply move_refl].
  destruct (Future.result _ fut None 0) as [outcome|]; [|apply move_refl].
  pose proof (remove_thread_consumed _ _ Hin) as Hx.
  unfold on_complete_body. cbv zeta. apply move_under_set_async_tasks.
  destruct outcome as [result|e]; [apply handle_task_result_move; exact Hx|].
  destruct e.
  7: apply cancelled_move; exact Hx.
  all: apply mark_failed_move; exact Hx.
Qed.

Lemma requeue_move r delay s :
  Requeue r delay ∈ threads s ->
  move (ledger_of s) (ledger_of (requeue_after_delay r delay s)).
Proof.
  intros Hin. unfold requeue_after_delay. cbv zeta.
  pose proof (remove_thread_consumed _ _ Hin) as Hx.
  destruct (negb _ && bool_decide _); [|apply consumed_move; exact Hx].
  clear Hx. apply remove_first_length in Hin.
  apply move_quiet; ledger_simpl; try reflexivity.
  rewrite put_length. lia.
Qed.

(** Every step of the scheduler is a move of the ledger. *)
Lemma step_move env s s' : step env s s' -> move (ledger_of s) (ledger_of s').
Proof.
  destruct 1.
  - apply add_task_move.
  - apply start_move.
  - apply pause_move.
  - apply resume_move.
  - apply cancel_all_move.
  - apply cancel_task_move.
  - apply stop_move.
  - apply worker_iteration_move.
  - apply executor_start_move.
  - apply executor_finish_move.
  - apply monitor_future_move. assumption.
  - apply on_complete_move. assumption.
  - apply requeue_move. assumption.
Qed.

(** *** Balanced books stay balanced *)

Lemma emitted_snoc ty s s' e :
  event_bus s' = event_bus s ++ [e] ->
  emitted ty s' = emitted ty s + (if decide (event_type e = ty) then 1 else 0).
Proof.
  intros H. unfold emitted. rewrite H, filter_app, length_app.
  rewrite filter_cons, filter_nil.
  destruct (decide (event_type e = ty)); simpl length; lia.
Qed.

Lemma emitted_same ty s s' : event_bus s' = event_bus s -> emitted ty s' = emitted ty s.
Proof. intros H. unfold emitted. rewrite H. reflexivity. Qed.

Lemma move_balanced s s' : balanced s -> move (ledger_of s) (ledger_of s') -> balanced s'.
Proof.
  intros [Bs Bc Bf Bk] M. unfold slack in Bk.
  destruct M as [He Ht Hc Hf Hn Hd|e Hty He Ht Hc Hf Hn Hd|e Hty He Ht Hc Hf Hn Hd
                |l Hl He Ht Hc Hf Hn Hd];
    cbn [ledger_of l_events l_total l_completed l_failed l_in_flight l_hashes] in *.
  - split; unfold slack; rewrite ?(emitted_same _ _ _ He); lia.
  - split; unfold slack; rewrite ?(emitted_snoc _ _ _ _ He), ?Hty;
      repeat (destruct (decide _); try congruence); lia.
  - split; unfold slack; rewrite ?(emitted_snoc _ _ _ _ He), ?Hty;
      repeat (destruct (decide _); try congruence); lia.
  - destruct Hl as [->|(e & -> & Hty)].
    + rewrite app_nil_r in He.
      split; unfold slack; rewrite ?(emitted_same _ _ _ He); lia.
    + split; unfold slack; rewrite ?(emitted_snoc _ _ _ _ He), ?Hty;
        repeat (destruct (decide _); try congruence); lia.
Qed.

Lemma init_balanced mw up cf af : balanced (init mw up cf af).
Proof. split; unfold slack; vm_compute; congruence. Qed.

Lemma reachable_balanced env s : reachable env s -> balanced s.
Proof.
  induction 1 as [mw up cf af|s s' _ IH Hstep].
  - apply init_balanced.
  - eapply move_balanced; [exact IH|]. eapply step_move. exact Hstep.
Qed.

Lemma move_hashes a b : move a b -> l_hashes a ⊆ l_hashes b.
Proof. destruct 1; try congruence; try (rewrite H4; reflexivity); try assumption. Qed.

Lemma steps_hashes env s s' : steps env s s' -> duplicate_hashes s ⊆ duplicate_hashes s'.
Proof.
  induction 1 as [s|s1 s2 s3 Hstep _ IH]; [reflexivity|].
  etransitivity; [|exact IH].
  exact (move_hashes _ _ (step_move env s1 s2 Hstep)).
Qed.

End ledger_facts.

(** The runs of the examples are runs of the scheduler. *)
Module reachable_runs.
Import BatchProcessor.

Lemma converted_reachable text : reachable Sample.world (MoreRuns.converted text).
Proof.
  unfold MoreRuns.converted, MoreRuns.running_task.
  eapply reachable_step; [|apply step_monitor; vm_compute; left].
  eapply reachable_step; [|apply step_executor_finish].
  eapply reachable_step; [|apply step_executor_start].
  eapply reachable_step; [|apply step_worker].
  eapply reachable_step; [|apply step_start].
  eapply reachable_step; [|apply step_add_task].
  apply reachable_init.
Qed.

Lemma timed_out_reachable : reachable Sample.world Runs.timed_out.
Proof.
  unfold Runs.timed_out.
  eapply reachable_step; [|apply step_monitor; vm_compute; left].
  eapply reachable_step; [|apply step_executor_start].
  eapply reachable_step; [|apply step_worker].
  eapply reachable_step; [|apply step_start].
  eapply reachable_step; [|apply step_add_task].
  apply reachable_init.
Qed.

Lemma retry_requeued_reachable : reachable Sample.world Runs.retry_requeued.
Proof.
  unfold Runs.retry_requeued, Runs.retry_pending.
  eapply reachable_step; [|apply step_requeue; vm_compute; left].
  eapply reachable_step; [|apply step_add_task].
  eapply reachable_step; [|apply step_monitor; vm_compute; left].
  eapply reachable_step; [|apply step_executor_finish].
  eapply reachable_step; [|apply step_executor_start].
  eapply reachable_step; [|apply step_worker].
  eapply reachable_step; [|apply step_start].
  eapply reachable_step; [|apply step_add_task].
  apply reachable_init.
Qed.

End reachable_runs.

Module books_claims.
Import BatchProcessor Books add_task_facts fingerprint_facts ledger_facts reachable_runs.

(** X21.  In every state the processor can reach, the notifications on
    the event bus match the counters: as many [CONVERSION_STARTED] as
    [total_tasks], as many [CONVERSION_COMPLETED] as [completed_tasks],
    and at most as many [CONVERSION_FAILED] as [failed_tasks] (a failure
    found by a completion handler itself, such as a timeout, is counted
    but not reported). *)
Theorem notifications_match_the_counters (env : Env) (s : t) :
  reachable env s ->
  emitted CONVERSION_STARTED s = BatchStatistics.total_tasks (statistics s)
  /\ emitted CONVERSION_COMPLETED s = BatchStatistics.completed_tasks (statistics s)
  /\ emitted CONVERSION_FAILED s <= BatchStatistics.failed_tasks (statistics s).
Proof.
  intros H. destruct (reachable_balanced env s H) as [Bs Bc Bf _].
  split; [exact Bs|]. split; [exact Bc|exact Bf].
Qed.

(** After a conversion that succeeded, and after one that timed out:
    the failure of the latter is counted, not reported. *)
Lemma notifications_match_the_counters_witness :
  emitted CONVERSION_COMPLETED (MoreRuns.converted "# small")
  = BatchStatistics.completed_tasks (statistics (MoreRuns.converted "# small"))
  /\ emitted CONVERSION_FAILED Runs.timed_out
     <= BatchStatistics.failed_tasks (statistics Runs.timed_out)
  /\ emitted CONVERSION_FAILED Runs.timed_out = 0
  /\ BatchStatistics.failed_tasks (statistics Runs.timed_out) = 1.
Proof.
  destruct (notifications_match_the_counters Sample.world (MoreRuns.converted "# small")
              (converted_reachable "# small")) as (_ & Hc & _).
  destruct (notifications_match_the_counters Sample.world Runs.timed_out
              timed_out_reachable) as (_ & _ & Hf).
  split; [exact Hc|]. split; [exact Hf|]. split; reflexivity.
Defined.

(** X22.  In every state the processor can reach, the completed and
    the failed tasks, together with the tasks waiting in the queue and the
    work whose completion handler or retry timer has not run yet, are at
    most [total_tasks]; so [success_rate] is between 0 and 100.  (The
    cancelled tasks are not part of this: they may be counted beside a
    failure, or without having been counted in the total.)  As long as
    a task has failed or work is in flight, [progress_percentage] stays
    below 100. *)
Theorem finished_tasks_never_exceed_total (env : Env) (s : t) :
  reachable env s ->
  0 <= BatchStatistics.completed_tasks (statistics s)
  /\ 0 <= BatchStatistics.failed_tasks (statistics s)
  /\ BatchStatistics.completed_tasks (statistics s)
     + BatchStatistics.failed_tasks (statistics s) + in_flight s
     <= BatchStatistics.total_tasks (statistics s)
  /\ (0 <= BatchStatistics.success_rate (statistics s))%Q
  /\ (BatchStatistics.success_rate (statistics s) <= 100)%Q
  /\ (0 < BatchStatistics.failed_tasks (statistics s) + in_flight s ->
      (BatchStatistics.progress_percentage (statistics s) < 100)%Q).
Proof.
  intros H. destruct (reachable_balanced env s H) as [Bs Bc Bf Bk].
  unfold slack in Bk.
  assert (Hc : 0 <= BatchStatistics.completed_tasks (statistics s)).
  { rewrite <- Bc. unfold emitted. lia. }
  assert (Hf : 0 <= BatchStatistics.failed_tasks (statistics s)).
  { etransitivity; [|exact Bf]. unfold emitted. lia. }
  assert (Hn : 0 <= in_flight s) by (unfold in_flight; lia).
  split; [exact Hc|]. split; [exact Hf|]. split; [lia|].
  unfold BatchStatistics.success_rate, BatchStatistics.progress_percentage.
  destruct (Z.eqb_spec (BatchStatistics.total_tasks (statistics s)) 0) as [E|E].
  - split; [apply Qle_refl|]. split; [discriminate|]. intros _. reflexivity.
  - destruct (BatchStatistics.total_tasks (statistics s)) as [|p|p] eqn:Ht; try lia.
    unfold Qle, Qlt, Qdiv, Qmult, Qinv, inject_Z. cbn.
    split; [nia|]. split; [nia|]. intros Hpos. nia.
Qed.

Lemma finished_tasks_never_exceed_total_witness :
  BatchStatistics.completed_tasks (statistics (MoreRuns.converted "# small"))
  + BatchStatistics.failed_tasks (statistics (MoreRuns.converted "# small"))
  + in_flight (MoreRuns.converted "# small")
  <= BatchStatistics.total_tasks (statistics (MoreRuns.converted "# small"))
  /\ BatchStatistics.total_tasks (statistics (MoreRuns.converted "# small")) = 1
  /\ BatchStatistics.completed_tasks (statistics (MoreRuns.converted "# small")) = 1.
Proof.
  destruct (finished_tasks_never_exceed_total Sample.world (MoreRuns.converted "# small")
              (converted_reachable "# small")) as (_ & _ & Hle & _).
  split; [exact Hle|]. split; reflexivity.
Defined.

(** After the timeout of [Runs.timed_out] the progress is not 100. *)
Example progress_after_a_timeout :
  (BatchStatistics.progress_percentage (statistics Runs.timed_out) == 0)%Q.
Proof. reflexivity. Qed.

(** X23.  The fingerprints seen are never forgotten.  Once a file with
    a fingerprint was added, every later task for a file with the same
    fingerprint is refused as a duplicate, whatever the processor did in
    between and however the first task ended: completed, failed or
    cancelled, the processor stopped and started again. *)
Theorem added_file_is_refused_for_good
    (env : Env) (s s' : t) (h : string)
    (t1 d1 : Z) (in1 : Path) (out1 : option Path) (p1 : TaskPriority) (m1 : Z)
    (t2 d2 : Z) (in2 : Path) (out2 : option Path) (p2 : TaskPriority) (m2 : Z) :
  BatchTask.file_hash (BatchTask.new env t1 d1 in1 out1 p1 m1) = Some h ->
  BatchTask.file_hash (BatchTask.new env t2 d2 in2 out2 p2 m2) = Some h ->
  h <> ""%string ->
  steps env (add_task env t1 d1 in1 out1 p1 m1 s).1 s' ->
  let second := add_task env t2 d2 in2 out2 p2 m2 s' in
  status_of second.1 second.2 = Some CANCELLED
  /\ BatchTask.error_message <$> objects second.1 !! second.2
     = Some (Some "Duplicate file"%string)
  /\ task_queue second.1 = task_queue s'
  /\ tasks second.1 = tasks s'
  /\ BatchStatistics.total_tasks (statistics second.1)
     = BatchStatistics.total_tasks (statistics s')
  /\ event_bus second.1 = event_bus s'.
Proof.
  intros Hh1 Hh2 Hne Hsteps second.
  pose proof (add_task_records_hash env t1 d1 in1 out1 p1 m1 s h Hh1 Hne) as Hseen.
  apply (steps_hashes env _ _ Hsteps) in Hseen.
  destruct (add_task_duplicate env t2 d2 in2 out2 p2 m2 s' h Hh2 Hne Hseen)
    as (Hobj & Htasks & Hq & Htot & _ & Hev & _).
  fold second in Hobj, Htasks, Hq, Htot, Hev.
  assert (Href : second.2 = length (objects s')) by apply add_task_ref.
  unfold status_of. rewrite Hobj, Href.
  rewrite lookup_app_r by lia. rewrite Nat.sub_diag.
  split; [reflexivity|]. split; [reflexivity|]. split; [exact Hq|].
  split; [exact Htasks|]. split; [exact Htot|exact Hev].
Qed.

(** The task of a file is cancelled; a copy of the file added later is
    a duplicate all the same. *)
Lemma added_file_is_refused_for_good_witness :
  let second := add_task Sample.world 1700000005000000 1700000005000100
                  Sample.copy None NORMAL 3 Runs.cancelled_once in
  status_of Runs.cancelled_once 0 = Some CANCELLED
  /\ status_of second.1 second.2 = Some CANCELLED
  /\ task_queue second.1 = task_queue Runs.cancelled_once.
Proof.
  intros second.
  destruct (added_file_is_refused_for_good Sample.world Runs.fresh_processor
              Runs.cancelled_once "md5:%PDF small"
              1700000000000000 1700000000000100 Sample.small None NORMAL 3
              1700000005000000 1700000005000100 Sample.copy None NORMAL 3)
    as (Hst & _ & Hq & _).
  - reflexivity.
  - reflexivity.
  - discriminate.
  - eapply rtc_l; [|apply rtc_refl]. apply step_cancel_task.
  - split; [reflexivity|]. split; [exact Hst|exact Hq].
Defined.

End books_claims.
(** * The scheduler: the queue is a heap in every reachable state *)

Module heap_ext.
Import heapq.

(** The heap operations look at the order on the items of the heap only. *)
Section Ext.

Context {A : Type} (lt lt' : A -> A -> bool) (P : A -> Prop).
Hypothesis agree : forall a b, P a -> P b -> lt a b = lt' a b.

Lemma siftdown_loop_ext fuel : forall heap startpos pos x,
  Forall P heap -> P x ->
  siftdown_loop lt fuel heap startpos pos x = siftdown_loop lt' fuel heap startpos pos x.
Proof.
  induction fuel as [|fuel IH]; intros heap startpos pos x Hh Hx; [reflexivity|].
  cbn [siftdown_loop]. destruct (startpos <? pos)%nat; [|reflexivity].
  cbv zeta. destruct (heap !! ((pos - 1) / 2)%nat) as [parent|] eqn:Hp; [|reflexivity].
  assert (Hparent : P parent) by (eapply Forall_lookup_1; eassumption).
  rewrite (agree x parent Hx Hparent).
  destruct (lt' x parent); [|reflexivity].
  apply IH; [|exact Hx]. apply Forall_insert; assumption.
Qed.

Lemma siftdown_ext heap startpos pos :
  Forall P heap -> siftdown lt heap startpos pos = siftdown lt' heap startpos pos.
Proof.
  intros Hh. unfold siftdown. destruct (heap !! pos) as [x|] eqn:Hx; [|reflexivity].
  apply siftdown_loop_ext; [exact Hh|]. eapply Forall_lookup_1; eassumption.
Qed.

Lemma smaller_child_ext heap c :
  Forall P heap -> smaller_child lt heap c = smaller_child lt' heap c.
Proof.
  intros Hh. unfold smaller_child. cbv zeta.
  destruct (heap !! c) as [l|] eqn:Hl; [|reflexivity].
  destruct (heap !! (c + 1)%nat) as [r|] eqn:Hr; [|reflexivity].
  rewrite (agree l r); [reflexivity| |]; eapply Forall_lookup_1; eassumption.
Qed.

Lemma siftup_loop_ext fuel : forall heap pos,
  Forall P heap ->
  siftup_loop lt fuel heap pos = siftup_loop lt' fuel heap pos
  /\ Forall P (siftup_loop lt' fuel heap pos).1.
Proof.
  induction fuel as [|fuel IH]; intros heap pos Hh; [split; [reflexivity|exact Hh]|].
  cbn [siftup_loop]. cbv zeta.
  destruct (2 * pos + 1 <? length heap)%nat; [|split; [reflexivity|exact Hh]].
  rewrite (smaller_child_ext heap _ Hh).
  destruct (heap !! smaller_child lt' heap (2 * pos + 1)) as [child|] eqn:Hc;
    [|split; [reflexivity|exact Hh]].
  apply IH. apply Forall_insert; [exact Hh|].
  eapply Forall_lookup_1; eassumption.
Qed.

Lemma siftup_ext heap pos :
  Forall P heap -> siftup lt heap pos = siftup lt' heap pos.
Proof.
  intros Hh. unfold siftup. destruct (heap !! pos) as [x|] eqn:Hx; [|reflexivity].
  destruct (siftup_loop_ext (length heap) heap pos Hh) as [E Hl].
  rewrite E. destruct (siftup_loop lt' (length heap) heap pos) as [heap' leaf].
  cbn [fst] in Hl. apply siftdown_ext. apply Forall_insert; [exact Hl|].
  exact (Forall_lookup_1 _ _ _ _ Hh Hx).
Qed.

Lemma heappush_ext heap x :
  Forall P heap -> P x -> heappush lt heap x = heappush lt' heap x.
Proof.
  intros Hh Hx. unfold heappush. cbv zeta. apply siftdown_ext.
  apply Forall_app. split; [exact Hh|]. constructor; [exact Hx|constructor].
Qed.

Lemma heappop_ext heap : Forall P heap -> heappop lt heap = heappop lt' heap.
Proof.
  intros Hh.
  destruct (heap_facts.list_snoc_cases heap) as [->|(h & y & ->)]; [reflexivity|].
  rewrite !heap_facts.heappop_snoc.
  destruct h as [|r h]; [reflexivity|].
  apply Forall_app in Hh as [Hh Hy]. apply Forall_cons in Hy as [Hy _].
  rewrite (siftup_ext (<[0%nat := y]> (r :: h)) 0); [reflexivity|].
  apply Forall_insert; assumption.
Qed.

End Ext.
End heap_ext.

Module queue_inv_facts.
Import BatchProcessor Books QueueInv heap_inv completion_facts scheduler_facts
       pipeline_facts.

Lemma lt_task_asym objs a b : lt_task objs a b = true -> lt_task objs b a = false.
Proof. apply queue_facts.task_lt_asym. Qed.

Lemma le_task_trans objs a b c :
  le (lt_task objs) a b -> le (lt_task objs) b c -> le (lt_task objs) a c.
Proof. unfold le, lt_task. apply queue_facts.task_le_trans. Qed.

Lemma lt_ref_task objs a b : valid objs a -> valid objs b -> lt_ref objs a b = lt_task objs a b.
Proof.
  unfold valid, lt_ref, lt_task, task_of. intros Ha Hb.
  destruct (lookup_lt_is_Some_2 objs a Ha) as [x ->].
  destruct (lookup_lt_is_Some_2 objs b Hb) as [y ->]. reflexivity.
Qed.

Lemma extends_refl o : extends o o.
Proof. intros r x H. exists x. split; [exact H|apply frame.same_identity_refl]. Qed.

Lemma extends_trans o1 o2 o3 : extends o1 o2 -> extends o2 o3 -> extends o1 o3.
Proof.
  intros H1 H2 r x Hx. destruct (H1 r x Hx) as (y & Hy & I1).
  destruct (H2 r y Hy) as (z & Hz & I2). exists z. split; [exact Hz|].
  eapply frame.same_identity_trans; eassumption.
Qed.

Lemma extends_snoc o x : extends o (o ++ [x]).
Proof.
  intros r y H. exists y. split; [apply lookup_app_l_Some; exact H|].
  apply frame.same_identity_refl.
Qed.

Lemma extends_alter o r f :
  (forall x, same_identity x (f x)) -> extends o (alter f r o).
Proof.
  intros Hf r' x H. destruct (decide (r = r')) as [->|Hne].
  - exists (f x). rewrite list_lookup_alter_eq, H. split; [reflexivity|apply Hf].
  - exists x. rewrite list_lookup_alter_ne by exact Hne.
    split; [exact H|apply frame.same_identity_refl].
Qed.

Lemma valid_extends o1 o2 r : extends o1 o2 -> valid o1 r -> valid o2 r.
Proof.
  unfold valid. intros He Hr.
  destruct (lookup_lt_is_Some_2 o1 r Hr) as [x Hx].
  destruct (He r x Hx) as (y & Hy & _). eapply lookup_lt_Some. exact Hy.
Qed.

Lemma lt_task_extends o1 o2 a b :
  extends o1 o2 -> valid o1 a -> valid o1 b -> lt_task o1 a b = lt_task o2 a b.
Proof.
  unfold valid, lt_task, task_of. intros He Ha Hb.
  destruct (lookup_lt_is_Some_2 o1 a Ha) as [x Hx].
  destruct (lookup_lt_is_Some_2 o1 b Hb) as [y Hy].
  destruct (He a x Hx) as (x' & Hx' & _ & _ & Px & Cx & _).
  destruct (He b y Hy) as (y' & Hy' & _ & _ & Py & Cy & _).
  rewrite Hx, Hy, Hx', Hy'. cbn [default from_option id]. unfold BatchTask.lt.
  rewrite Px, Py, Cx, Cy. reflexivity.
Qed.

Lemma heap_ok_agree {A : Type} (lt lt' : A -> A -> bool) (P : A -> Prop) h :
  (forall a b, P a -> P b -> lt a b = lt' a b) ->
  Forall P h -> heap_ok lt h -> heap_ok lt' h.
Proof.
  intros Hag HP Hh i x p Hi Hx Hp. unfold le.
  rewrite <- Hag; [exact (Hh i x p Hi Hx Hp)| |]; eapply Forall_lookup_1; eassumption.
Qed.

(** *** How a step may change the queue *)

Lemma queue_ok_same s s' :
  queue_ok s -> extends (objects s) (objects s') -> task_queue s' = task_queue s ->
  queue_ok s'.
Proof.
  intros [Hv Hh] He Hq. split; rewrite Hq.
  - eapply Forall_impl; [exact Hv|]. intros r. apply valid_extends. exact He.
  - eapply (heap_ok_agree _ _ (valid (objects s))); [|exact Hv|exact Hh].
    intros a b. apply lt_task_extends. exact He.
Qed.

Lemma queue_ok_empty s : task_queue s = [] -> queue_ok s.
Proof. intros H. split; rewrite H; [constructor|apply heap_facts.heap_ok_nil]. Qed.

Lemma queue_ok_put s s' objs r :
  queue_ok s ->
  extends (objects s) objs -> valid objs r -> extends objs (objects s') ->
  task_queue s' = PriorityQueue.put (lt_ref objs) (task_queue s) r ->
  queue_ok s'.
Proof.
  intros [Hv Hh] He1 Hr He2 Hq.
  assert (Hv1 : Forall (valid objs) (task_queue s)).
  { eapply Forall_impl; [exact Hv|]. intros a. apply valid_extends. exact He1. }
  assert (Hh1 : heap_ok (lt_task objs) (task_queue s)).
  { eapply (heap_ok_agree _ _ (valid (objects s))); [|exact Hv|exact Hh].
    intros a b. apply lt_task_extends. exact He1. }
  assert (Hput : PriorityQueue.put (lt_ref objs) (task_queue s) r
                 = PriorityQueue.put (lt_task objs) (task_queue s) r).
  { unfold PriorityQueue.put.
    apply (heap_ext.heappush_ext _ _ (valid objs)); [|exact Hv1|exact Hr].
    intros a b. apply lt_ref_task. }
  assert (Hv2 : Forall (valid objs) (task_queue s')).
  { rewrite Hq, Hput. rewrite (queue_facts.put_perm (lt_task objs)).
    constructor; assumption. }
  split.
  - eapply Forall_impl; [exact Hv2|]. intros a. apply valid_extends. exact He2.
  - eapply (heap_ok_agree _ _ (valid objs)); [|exact Hv2|].
    + intros a b. apply lt_task_extends. exact He2.
    + rewrite Hq, Hput.
      apply (queue_facts.put_ok _ (lt_task_asym objs) (le_task_trans objs)). exact Hh1.
Qed.

(** What [get] gives on the queue of the scheduler *)
Lemma get_spec_ok s r q' :
  queue_ok s ->
  PriorityQueue.get (lt_ref (objects s)) (task_queue s) = Some (r, q') ->
  heap_ok (lt_task (objects s)) q'
  /\ task_queue s ≡ₚ r :: q'
  /\ Forall (le (lt_task (objects s)) r) q'.
Proof.
  intros [Hv Hh] Hget.
  assert (Hget' : PriorityQueue.get (lt_task (objects s)) (task_queue s) = Some (r, q')).
  { rewrite <- Hget. unfold PriorityQueue.get. symmetry.
    apply (heap_ext.heappop_ext _ _ (valid (objects s))); [|exact Hv].
    intros a b. apply lt_ref_task. }
  exact (queue_facts.get_spec _ (lt_task_asym _) (le_task_trans _) _ _ _ Hh Hget').
Qed.

Lemma queue_ok_get s s' r q' :
  queue_ok s ->
  PriorityQueue.get (lt_ref (objects s)) (task_queue s) = Some (r, q') ->
  extends (objects s) (objects s') -> task_queue s' = q' ->
  queue_ok s'.
Proof.
  intros Hok Hget He Hq. destruct (get_spec_ok s r q' Hok Hget) as (Hh & Hp & _).
  destruct Hok as [Hv _].
  assert (Hv' : Forall (valid (objects s)) q').
  { rewrite Hp in Hv. apply Forall_cons in Hv as [_ Hv]. exact Hv. }
  split; rewrite Hq.
  - eapply Forall_impl; [exact Hv'|]. intros a. apply valid_extends. exact He.
  - eapply (heap_ok_agree _ _ (valid (objects s))); [|exact Hv'|exact Hh].
    intros a b. apply lt_task_extends. exact He.
Qed.

(** *** The queue after each step *)

Ltac head_cases :=
  repeat (state_simpl; cbv zeta; try reflexivity;
          match goal with
          | |- _ (match ?c with _ => _ end) = _ => destruct c
          end).

Lemma start_queue now s : task_queue (start now s) = task_queue s.
Proof. unfold start. head_cases. Qed.

Lemma cancel_task_queue task_id s : task_queue (cancel_task task_id s).1 = task_queue s.
Proof.
  unfold cancel_task.
  destruct (live_future s (futures s) task_id) as [[fref fut]|].
  { unfold cancel_registered. head_cases. }
  destruct (live_future s (async_tasks s) task_id) as [[fref fut]|].
  { unfold cancel_registered. head_cases. }
  destruct (tasks s !! task_id); [|reflexivity].
  destruct (bool_decide _); reflexivity.
Qed.

Lemma stop_queue now s : task_queue (stop now s) = [].
Proof.
  unfold stop. cbv zeta.
  destruct (cancel_all_spec (set_running false s)) as (_ & Hnil & _).
  revert Hnil. generalize (cancel_all (set_running false s)). intros y Hnil. exact Hnil.
Qed.

Lemma executor_start_queue fref s : task_queue (executor_start fref s) = task_queue s.
Proof. unfold executor_start. head_cases. Qed.

Lemma executor_finish_queue fref call s :
  task_queue (executor_finish fref call s) = task_queue s.
Proof.
  unfold executor_finish. destruct (future_objects s !! fref) as [fut|]; [|reflexivity].
  cbv zeta. destruct (Future.st fut); try reflexivity;
    destruct (Future.kind fut); try reflexivity.
  destruct (run_work s fut call) as [res|e]; [reflexivity|]. destruct e; reflexivity.
Qed.

Lemma handle_task_result_queue now r result x :
  task_queue (_handle_task_result now r result x) = task_queue x.
Proof. unfold _handle_task_result. head_cases. Qed.

Lemma monitor_future_queue now r fref waited s :
  task_queue (monitor_future now r fref waited s) = task_queue s.
Proof.
  unfold monitor_future.
  destruct (future_objects s !! fref) as [fut|]; [|reflexivity].
  destruct (Future.result _ fut _ waited) as [outcome|]; [|reflexivity].
  unfold monitor_body. cbv zeta.
  change (task_queue s) with (task_queue (remove_thread (Monitor r fref) s)).
  generalize (remove_thread (Monitor r fref) s). intros x.
  destruct outcome as [result|e].
  - pose proof (handle_task_result_queue now r result x) as H. revert H.
    generalize (_handle_task_result now r result x). intros y H. exact H.
  - destruct (Py.is_Exception e); reflexivity.
Qed.

Lemma on_complete_queue now cancelled_error r fref s :
  task_queue (on_complete now cancelled_error r fref s) = task_queue s.
Proof.
  unfold on_complete.
  destruct (future_objects s !! fref) as [fut|]; [|reflexivity].
  destruct (Future.result _ fut None 0) as [outcome|]; [|reflexivity].
  unfold on_complete_body. cbv zeta.
  change (task_queue s) with (task_queue (remove_thread (DoneCallback r fref) s)).
  generalize (remove_thread (DoneCallback r fref) s). intros x.
  destruct outcome as [result|e].
  - pose proof (handle_task_result_queue now r result x) as H. revert H.
    generalize (_handle_task_result now r result x). intros y H. exact H.
  - destruct e; reflexivity.
Qed.

Lemma worker_iteration_queue now s :
  task_queue (worker_iteration now s) = task_queue s
  \/ exists r, PriorityQueue.get (lt_ref (objects s)) (task_queue s)
              = Some (r, task_queue (worker_iteration now s)).
Proof.
  unfold worker_iteration.
  destruct (negb (running s)); [left; reflexivity|].
  destruct (negb (pause_event s)); [left; reflexivity|].
  destruct (is_cancelled s) eqn:Hc; [left; reflexivity|].
  destruct (PriorityQueue.get _ _) as [[r q']|]; [|left; reflexivity].
  right. exists r. f_equal. f_equal. cbv zeta. state_simpl. rewrite Hc. cbn [orb].
  destruct (bool_decide _); [reflexivity|]. unfold submit.
  destruct (use_async s && async_loop s); reflexivity.
Qed.

Lemma requeue_queue r delay s :
  let s' := requeue_after_delay r delay s in
  task_queue s' = task_queue s
  \/ (valid (objects s') r
      /\ objects s' = alter (BatchTask.set_status QUEUED) r (objects s)
      /\ task_queue s' = PriorityQueue.put (lt_ref (objects s')) (task_queue s) r).
Proof.
  unfold requeue_after_delay. cbv zeta. state_simpl.
  destruct (negb (is_cancelled s)); cbn [andb]; [|left; reflexivity].
  destruct (bool_decide _) eqn:Hst; [|left; reflexivity].
  right. apply bool_decide_eq_true_1 in Hst. state_simpl.
  split; [|split; reflexivity].
  unfold valid. rewrite length_alter.
  destruct (objects s !! r) as [x|] eqn:Hx; [|discriminate].
  eapply lookup_lt_Some. exact Hx.
Qed.

Lemma add_task_fresh_queue env tt dn input output prio retries s :
  Runs.fresh env tt dn input output prio retries s ->
  task_queue (add_task env tt dn input output prio retries s).1
  = PriorityQueue.put
      (lt_ref (objects s ++ [BatchTask.new env tt dn input output prio retries]))
      (task_queue s) (length (objects s)).
Proof.
  intros Hfresh. unfold Runs.fresh in Hfresh. unfold add_task.
  cbn [duplicate_hashes set_objects]. rewrite Hfresh.
  destruct (truthy_str _); reflexivity.
Qed.

Lemma add_task_queue_ok env tt dn input output prio retries s :
  queue_ok s -> queue_ok (add_task env tt dn input output prio retries s).1.
Proof.
  intros Hok.
  set (task := BatchTask.new env tt dn input output prio retries).
  destruct (truthy_str (BatchTask.file_hash task)
            && bool_decide (default ""%string (BatchTask.file_hash task)
                            ∈ duplicate_hashes s)) eqn:Hdup.
  - apply andb_prop in Hdup as [Ht Hin]. apply bool_decide_eq_true_1 in Hin.
    destruct (BatchTask.file_hash task) as [h|] eqn:Hh; [|discriminate].
    assert (Hne : h <> ""%string) by (intros ->; discriminate).
    destruct (add_task_facts.add_task_duplicate env tt dn input output prio retries s h
                Hh Hne Hin) as (Hobj & _ & Hq & _).
    apply (queue_ok_same s); [exact Hok| |exact Hq].
    rewrite Hobj. apply extends_snoc.
  - destruct (add_task_facts.add_task_queued env tt dn input output prio retries s Hdup)
      as (Hobj & _).
    apply (queue_ok_put s _ (objects s ++ [task]) (length (objects s)) Hok).
    + apply extends_snoc.
    + unfold valid. rewrite length_app. simpl. lia.
    + rewrite Hobj. fold task.
      rewrite <- (add_task_facts.alter_snoc (BatchTask.set_status QUEUED) (objects s) task).
      apply extends_alter. intros x. repeat split.
    + apply add_task_fresh_queue. exact Hdup.
Qed.

(** Every step keeps the queue a heap of references to objects. *)
Lemma step_queue_ok env s s' : queue_ok s -> step env s s' -> queue_ok s'.
Proof.
  intros Hok Hstep.
  pose proof (ev_objects _ _ (frame.step_evolves env s s' Hstep)) as Hext.
  destruct Hstep.
  - apply add_task_queue_ok. exact Hok.
  - apply (queue_ok_same s); [exact Hok|exact Hext|apply start_queue].
  - apply (queue_ok_same s); [exact Hok|exact Hext|reflexivity].
  - apply (queue_ok_same s); [exact Hok|exact Hext|reflexivity].
  - apply queue_ok_empty. apply cancel_all_spec.
  - apply (queue_ok_same s); [exact Hok|exact Hext|apply cancel_task_queue].
  - apply queue_ok_empty. apply stop_queue.
  - destruct (worker_iteration_queue now s) as [Hq|(r & Hget)].
    + apply (queue_ok_same s); [exact Hok|exact Hext|exact Hq].
    + apply (queue_ok_get s _ r _ Hok Hget Hext). reflexivity.
  - apply (queue_ok_same s); [exact Hok|exact Hext|apply executor_start_queue].
  - apply (queue_ok_same s); [exact Hok|exact Hext|apply executor_finish_queue].
  - apply (queue_ok_same s); [exact Hok|exact Hext|apply monitor_future_queue].
  - apply (queue_ok_same s); [exact Hok|exact Hext|apply on_complete_queue].
  - destruct (requeue_queue r delay s) as [Hq|(Hv & Hobj & Hq)].
    + apply (queue_ok_same s); [exact Hok|exact Hext|exact Hq].
    + apply (queue_ok_put s _ (objects (requeue_after_delay r delay s)) r Hok);
        [exact Hext|exact Hv|apply extends_refl|exact Hq].
Qed.

Lemma reachable_queue_ok env s : reachable env s -> queue_ok s.
Proof.
  induction 1 as [mw up cf af|s s' _ IH Hstep].
  - apply queue_ok_empty. reflexivity.
  - eapply step_queue_ok; eassumption.
Qed.

End queue_inv_facts.

Module order_claims.
Import BatchProcessor Books QueueInv queue_inv_facts reachable_runs.

(** X24.  In every state the processor can reach, whatever was added,
    dispatched, retried and cancelled before, the task the dispatch loop
    gets from the queue exists and is a most urgent one: every task left
    in the queue has a lower priority, or the same priority and a
    creation time that is not earlier.  The queue loses this one task
    and keeps the others. *)
Theorem dispatch_takes_a_most_urgent_task (env : Env) (s : t) (r : nat) (q' : list nat) :
  reachable env s ->
  PriorityQueue.get (lt_ref (objects s)) (task_queue s) = Some (r, q') ->
  task_queue s ≡ₚ r :: q'
  /\ exists task, objects s !! r = Some task
     /\ forall r', r' ∈ q' ->
          exists task', objects s !! r' = Some task' /\ dispatch_le task task'.
Proof.
  intros Hreach Hget.
  pose proof (reachable_queue_ok env s Hreach) as Hok.
  destruct (get_spec_ok s r q' Hok Hget) as (_ & Hperm & Hmin).
  destruct Hok as [Hv _]. rewrite Hperm in Hv.
  apply Forall_cons in Hv as [Hr Hv].
  split; [exact Hperm|].
  destruct (lookup_lt_is_Some_2 _ _ Hr) as [task Htask].
  exists task. split; [exact Htask|].
  intros r' Hin.
  rewrite Forall_forall in Hv, Hmin.
  destruct (lookup_lt_is_Some_2 _ _ (Hv r' Hin)) as [task' Htask'].
  exists task'. split; [exact Htask'|].
  apply queue_facts.task_le_dispatch.
  specialize (Hmin r' Hin). unfold heap_inv.le, lt_task, task_of in *.
  rewrite Htask, Htask' in Hmin. exact Hmin.
Qed.

(** The run [Runs.retry_requeued]: the task that failed once is back in
    the queue behind a task added later, and goes first. *)
Lemma dispatch_takes_a_most_urgent_task_witness :
  task_queue Runs.retry_requeued ≡ₚ [0; 1]%nat
  /\ exists task, objects Runs.retry_requeued !! 0%nat = Some task
     /\ forall r', r' ∈ [1%nat] ->
          exists task', objects Runs.retry_requeued !! r' = Some task'
                        /\ dispatch_le task task'.
Proof.
  apply (dispatch_takes_a_most_urgent_task Sample.world Runs.retry_requeued 0 [1%nat]
           retry_requeued_reachable).
  vm_compute. reflexivity.
Defined.

End order_claims.
(** * The scheduler: retries are bounded *)

Module retry_facts.
Import BatchProcessor Books completion_facts scheduler_facts.

Lemma Forall_alter_keep (f : BatchTask.t -> BatchTask.t) r l :
  (forall x, within_retries x -> within_retries (f x)) ->
  Forall within_retries l -> Forall within_retries (alter f r l).
Proof.
  intros Hf Hl. apply Forall_forall. intros y Hy.
  apply list_elem_of_lookup in Hy as [i Hi].
  destruct (decide (r = i)) as [->|Hne].
  - rewrite list_lookup_alter_eq in Hi.
    destruct (l !! i) as [x|] eqn:Hx; [|discriminate]. injection Hi as <-.
    apply Hf. exact (Forall_lookup_1 _ _ _ _ Hl Hx).
  - rewrite list_lookup_alter_ne in Hi by exact Hne.
    exact (Forall_lookup_1 _ _ _ _ Hl Hi).
Qed.

Lemma Forall_alter_at (f : BatchTask.t -> BatchTask.t) r l x :
  l !! r = Some x -> within_retries (f x) ->
  Forall within_retries l -> Forall within_retries (alter f r l).
Proof.
  intros Hx Hfx Hl. apply Forall_forall. intros y Hy.
  apply list_elem_of_lookup in Hy as [i Hi].
  destruct (decide (r = i)) as [->|Hne].
  - rewrite list_lookup_alter_eq, Hx in Hi. injection Hi as <-. exact Hfx.
  - rewrite list_lookup_alter_ne in Hi by exact Hne.
    exact (Forall_lookup_1 _ _ _ _ Hl Hi).
Qed.

Lemma new_within_retries env tt dn input output prio retries :
  within_retries (BatchTask.new env tt dn input output prio retries).
Proof.
  unfold BatchTask.new, BatchTask.post_init. cbn [BatchTask.input_file].
  destruct (fs_exists env input); [|unfold within_retries; simpl; lia].
  destruct (fs_read env input); unfold within_retries; simpl; lia.
Qed.

(** The objects of a state after the updates of the source: every update
    but the count of a retry leaves the two fields alone. *)
Ltac within :=
  repeat (state_simpl; cbv zeta;
          first
            [ assumption
            | apply Forall_alter_keep; [intros ? ?; assumption|]
            | match goal with
              | |- Forall _ (objects (match ?c with _ => _ end)) => destruct c
              end ]).

Local Abbreviation good s := (Forall within_retries (objects s)).

Lemma add_task_within env tt dn input output prio retries s :
  good s -> good (add_task env tt dn input output prio retries s).1.
Proof.
  intros H. unfold add_task. cbv zeta.
  assert (H' : Forall within_retries
                 (objects s ++ [BatchTask.new env tt dn input output prio retries])).
  { apply Forall_app. split; [exact H|].
    constructor; [apply new_within_retries|constructor]. }
  destruct (truthy_str _) eqn:Ht; [destruct (bool_decide _)|]; cbn [andb fst]; within.
Qed.

Lemma start_within now s : good s -> good (start now s).
Proof. intros H. unfold start. within. Qed.

Lemma cancel_entry_within s e : good s -> good (cancel_entry s e).
Proof. intros H. unfold cancel_entry. destruct e as [task_id fref]. within. Qed.

Lemma cancel_entries_within l : forall s, good s -> good (foldl cancel_entry s l).
Proof.
  induction l as [|e l IH]; intros s H; simpl; [exact H|].
  apply IH, cancel_entry_within, H.
Qed.

Lemma clear_queue_within fuel : forall s, good s -> good (clear_queue fuel s).
Proof.
  induction fuel as [|fuel IH]; intros s H; simpl; [exact H|].
  destruct (PriorityQueue.empty _); [exact H|].
  destruct (PriorityQueue.get _ _) as [[r q']|]; [|exact H].
  apply IH. within.
Qed.

Lemma cancel_all_within s : good s -> good (cancel_all s).
Proof.
  intros H. rewrite cancel_all_unfold. cbv zeta.
  apply clear_queue_within.
  assert (H1 : good (foldl cancel_entry (set_is_cancelled true s)
                       (map_to_list (futures (set_is_cancelled true s)))))
    by (apply cancel_entries_within; exact H).
  revert H1. generalize (foldl cancel_entry (set_is_cancelled true s)
                           (map_to_list (futures (set_is_cancelled true s)))).
  intros s1 H1. state_simpl.
  destruct (async_loop s1); [|exact H1].
  apply (cancel_entries_within _ (set_futures ∅ s1)). exact H1.
Qed.

Lemma cancel_task_within task_id s : good s -> good (cancel_task task_id s).1.
Proof.
  intros H. unfold cancel_task.
  destruct (live_future s (futures s) task_id) as [[fref fut]|].
  { unfold cancel_registered. within. }
  destruct (live_future s (async_tasks s) task_id) as [[fref fut]|].
  { unfold cancel_registered. within. }
  destruct (tasks s !! task_id); [|exact H].
  destruct (bool_decide _); cbn [fst]; within.
Qed.

Lemma stop_within now s : good s -> good (stop now s).
Proof.
  intros H. unfold stop. cbv zeta.
  pose proof (cancel_all_within (set_running false s) H) as H1. revert H1.
  generalize (cancel_all (set_running false s)). intros y H1. exact H1.
Qed.

Lemma worker_iteration_within now s : good s -> good (worker_iteration now s).
Proof.
  intros H. unfold worker_iteration.
  destruct (negb (running s)); [exact H|].
  destruct (negb (pause_event s)); [exact H|].
  destruct (is_cancelled s) eqn:Hc; [exact H|].
  destruct (PriorityQueue.get _ _) as [[r q']|]; [|exact H].
  cbv zeta. state_simpl. rewrite Hc. cbn [orb].
  destruct (bool_decide _); [exact H|]. unfold submit.
  destruct (use_async s && async_loop s); within.
Qed.

Lemma executor_start_within fref s : good s -> good (executor_start fref s).
Proof. intros H. unfold executor_start. within. Qed.

Lemma executor_finish_within fref call s : good s -> good (executor_finish fref call s).
Proof.
  intros H. unfold executor_finish.
  destruct (future_objects s !! fref) as [fut|]; [|exact H]. cbv zeta.
  destruct (Future.st fut); try exact H; destruct (Future.kind fut); try exact H.
  destruct (run_work s fut call) as [res|e]; [exact H|]. destruct e; exact H.
Qed.

(** The one place where retries are counted: the count goes up by one
    when it is below [max_retries]. *)
Lemma handle_task_result_within now r result x :
  good x -> good (_handle_task_result now r result x).
Proof.
  intros H. unfold _handle_task_result.
  destruct (objects x !! r) as [task|] eqn:Hobj; [|exact H].
  destruct (ResultDict.success result); [within|].
  destruct (BatchTask.retry_count task <? BatchTask.max_retries task) eqn:Hlt;
    cbn [andb]; [|within].
  destruct (negb (is_cancelled x)); [|within].
  cbv zeta. state_simpl.
  apply Forall_alter_keep; [intros ? H'; exact H'|].
  apply (Forall_alter_at _ r _ task Hobj); [|exact H].
  pose proof (Forall_lookup_1 _ _ _ _ H Hobj) as Hw.
  apply Z.ltb_lt in Hlt. unfold within_retries in *. cbn. lia.
Qed.

Lemma mark_failed_within now r e x : good x -> good (mark_failed now r e x).
Proof. intros H. within. Qed.

Lemma within_under_set_futures v y : good y -> good (set_futures v y).
Proof. intros H. exact H. Qed.

Lemma within_under_set_async_tasks v y : good y -> good (set_async_tasks v y).
Proof. intros H. exact H. Qed.

Lemma cancelled_within r x : good x -> good (processing_floor (mark_cancelled r x)).
Proof. intros H. within. Qed.

Lemma monitor_future_within now r fref waited s :
  good s -> good (monitor_future now r fref waited s).
Proof.
  intros H. unfold monitor_future.
  destruct (future_objects s !! fref) as [fut|]; [|exact H].
  destruct (Future.result _ fut _ waited) as [outcome|]; [|exact H].
  unfold monitor_body. cbv zeta. apply within_under_set_futures.
  change (good (remove_thread (Monitor r fref) s)) in H.
  revert H. generalize (remove_thread (Monitor r fref) s). intros x H.
  destruct outcome as [result|e].
  - apply handle_task_result_within, H.
  - destruct (Py.is_Exception e); [|exact H]. apply mark_failed_within, H.
Qed.

Lemma on_complete_within now cancelled_error r fref s :
  good s -> good (on_complete now cancelled_error r fref s).
Proof.
  intros H. unfold on_complete.
  destruct (future_objects s !! fref) as [fut|]; [|exact H].
  destruct (Future.result _ fut None 0) as [outcome|]; [|exact H].
  unfold on_complete_body. cbv zeta. apply within_under_set_async_tasks.
  change (good (remove_thread (DoneCallback r fref) s)) in H.
  revert H. generalize (remove_thread (DoneCallback r fref) s). intros x H.
  destruct outcome as [result|e].
  - apply handle_task_result_within, H.
  - destruct e.
    7: apply cancelled_within, H.
    all: apply mark_failed_within, H.
Qed.

Lemma requeue_within r delay s : good s -> good (requeue_after_delay r delay s).
Proof. intros H. unfold requeue_after_delay. within. Qed.

Lemma step_within env s s' :
  Forall within_retries (objects s) -> step env s s' -> Forall within_retries (objects s').
Proof.
  intros H Hstep. destruct Hstep.
  - apply add_task_within, H.
  - apply start_within, H.
  - exact H.
  - exact H.
  - apply cancel_all_within, H.
  - apply cancel_task_within, H.
  - apply stop_within, H.
  - apply worker_iteration_within, H.
  - apply executor_start_within, H.
  - apply executor_finish_within, H.
  - apply monitor_future_within, H.
  - apply on_complete_within, H.
  - apply requeue_within, H.
Qed.

Lemma reachable_within env s : reachable env s -> Forall within_retries (objects s).
Proof.
  induction 1 as [mw up cf af|s s' _ IH Hstep]; [constructor|].
  eapply step_within; eassumption.
Qed.

End retry_facts.

Module retry_bound_claims.
Import BatchProcessor retry_facts reachable_runs.

(** X25.  In every state the processor can reach, the retries counted
    for a task are at least 0 and at most its [max_retries] (none for a
    task created with a negative [max_retries]): however its attempts end
    and whatever is cancelled or added meanwhile, a task is never put back
    for more attempts than it was given. *)
Theorem retries_never_exceed_max_retries
    (env : Env) (s : t) (r : nat) (task : BatchTask.t) :
  reachable env s ->
  objects s !! r = Some task ->
  0 <= BatchTask.retry_count task <= Z.max 0 (BatchTask.max_retries task).
Proof.
  intros Hreach Hobj.
  exact (Forall_lookup_1 _ _ _ _ (reachable_within env s Hreach) Hobj).
Qed.

(** The task of [Runs.retry_requeued], which has failed once *)
Lemma retries_never_exceed_max_retries_witness :
  exists task, objects Runs.retry_requeued !! 0%nat = Some task
    /\ BatchTask.retry_count task = 1
    /\ 0 <= BatchTask.retry_count task <= Z.max 0 (BatchTask.max_retries task).
Proof.
  exists (BatchTask.set_status QUEUED
            (BatchTask.set_status RETRYING
               (BatchTask.set_retry_count 1
                  (BatchTask.set_started_at (Some 1700000001000000)
                     (BatchTask.set_status PROCESSING
                        (BatchTask.set_status QUEUED
                           (BatchTask.new Sample.world 1700000000000000
                              1700000000000100 Sample.small None NORMAL 3))))))).
  assert (Hobj : objects Runs.retry_requeued !! 0%nat
                 = Some (BatchTask.set_status QUEUED
            (BatchTask.set_status RETRYING
               (BatchTask.set_retry_count 1
                  (BatchTask.set_started_at (Some 1700000001000000)
                     (BatchTask.set_status PROCESSING
                        (BatchTask.set_status QUEUED
                           (BatchTask.new Sample.world 1700000000000000
                              1700000000000100 Sample.small None NORMAL 3))))))))
    by (vm_compute; reflexivity).
  split; [exact Hobj|]. split; [reflexivity|].
  exact (retries_never_exceed_max_retries Sample.world Runs.retry_requeued 0 _
           retry_requeued_reachable Hobj).
Defined.

End retry_bound_claims.
(** * The file filter: excluded directories, and filtering twice *)

Module path_facts.
Import pathlib.

(** The proper prefixes of a list *)
Lemma prefixes_spec (l p : list string) :
  p ∈ prefixes l <-> exists rest, rest <> [] /\ l = p ++ rest.
Proof.
  revert p. induction l as [|x l IH]; intros p.
  - split; [intros H; inversion H|].
    intros (rest & Hne & H). destruct p; simpl in H; [subst; contradiction|discriminate].
  - cbn [prefixes]. rewrite elem_of_cons, list_elem_of_fmap. split.
    + intros [->|(q & -> & Hq)].
      * exists (x :: l). split; [discriminate|reflexivity].
      * apply IH in Hq as (rest & Hne & ->). exists rest. split; [exact Hne|reflexivity].
    + intros (rest & Hne & H). destruct p as [|y p]; [left; reflexivity|].
      right. simpl in H. injection H as <- ->.
      exists p. split; [reflexivity|]. apply IH. exists rest. split; [exact Hne|reflexivity].
Qed.

(** The parents of a path: the paths of which it is a proper extension *)
Lemma parents_spec (p q : Path) :
  q ∈ parents p
  <-> absolute q = absolute p /\ exists rest, rest <> [] /\ parts p = parts q ++ rest.
Proof.
  unfold parents. rewrite list_elem_of_fmap. split.
  - intros (l & -> & Hl). apply list_elem_of_In in Hl. apply <- in_rev in Hl.
    apply list_elem_of_In, prefixes_spec in Hl. split; [reflexivity|exact Hl].
  - intros (Habs & Hrest). exists (parts q). split.
    + destruct q as [a l]. simpl in *. rewrite Habs. reflexivity.
    + apply list_elem_of_In. apply -> in_rev. apply list_elem_of_In.
      apply prefixes_spec. exact Hrest.
Qed.

End path_facts.

Module filter_more_claims.
Import BatchProcessor FileFilter FilterSpec filter_facts path_facts.

Lemma excluded_by_spec env p ex :
  excluded_by env p ex = true
  <-> exists e rp, fs_resolve env ex = Some e /\ fs_resolve env p = Some rp
        /\ absolute e = absolute rp /\ exists rest, parts rp = parts e ++ rest.
Proof.
  unfold excluded_by.
  destruct (fs_resolve env ex) as [e|]; [|split; [discriminate|intros (? & ? & [=] & _)]].
  destruct (fs_resolve env p) as [rp|];
    [|split; [discriminate|intros (? & ? & _ & [=] & _)]].
  rewrite orb_true_iff, !bool_decide_eq_true, parents_spec. split.
  - intros [(Habs & rest & _ & Hrest)| ->].
    + exists e, rp. repeat split; try assumption. exists rest. exact Hrest.
    + exists e, e. repeat split. exists []. rewrite app_nil_r. reflexivity.
  - intros (e' & rp' & [= <-] & [= <-] & Habs & rest & Hrest).
    destruct rest as [|x rest].
    + right. rewrite app_nil_r in Hrest. destruct rp, e. simpl in *. congruence.
    + left. split; [exact Habs|]. exists (x :: rest). split; [discriminate|exact Hrest].
Qed.

(** X26.  A file is refused when one of the paths to exclude resolves
    to the resolved file itself or to a directory above it, whatever the
    other settings of the filter are; and a file that is accepted lies
    under none of the paths to exclude that can be resolved.  (A path to
    exclude that cannot be resolved excludes nothing.) *)
Theorem excluded_path_refuses_everything_below_it
    (env : Env) (f : FileFilter.t) (p ex e rp : Path) :
  ex ∈ exclude_paths f ->
  fs_resolve env ex = Some e ->
  fs_resolve env p = Some rp ->
  (absolute e = absolute rp /\ (exists rest, parts rp = parts e ++ rest) ->
   matches env f p = Py.Ok false)
  /\ (matches env f p = Py.Ok true ->
      ~ (absolute e = absolute rp /\ exists rest, parts rp = parts e ++ rest)).
Proof.
  intros Hin He Hp.
  assert (Hiff : excluded_by env p ex = true
                 <-> absolute e = absolute rp /\ exists rest, parts rp = parts e ++ rest).
  { rewrite excluded_by_spec. split.
    - intros (e' & rp' & He' & Hp' & H). rewrite He in He'. rewrite Hp in Hp'.
      injection He' as <-. injection Hp' as <-. exact H.
    - intros H. exists e, rp. tauto. }
  assert (Hpass : excluded_by env p ex = true -> passes env f p = false).
  { intros Hex. unfold passes.
    assert (E : forallb (fun ex => negb (excluded_by env p ex)) (exclude_paths f) = false).
    { apply not_true_is_false. intros Hall. rewrite forallb_forall in Hall.
      specialize (Hall ex (proj1 (list_elem_of_In _ _) Hin)).
      rewrite Hex in Hall. discriminate. }
    rewrite E. rewrite andb_false_r. reflexivity. }
  rewrite matches_passes. split.
  - intros H. f_equal. apply Hpass, Hiff, H.
  - intros [= Htrue] H. rewrite (Hpass (proj2 Hiff H)) in Htrue. discriminate.
Qed.

(** In the world of [Sample], with [/data] excluded: a file of [/data]
    that passes every other test is refused. *)
Lemma excluded_path_refuses_everything_below_it_witness :
  let f := FileFilter.init None None None None None None
             (Some [mkPath true ["data"%string]]) None in
  matches Sample.world (FileFilter.init None None None None None None None None)
          Sample.small = Py.Ok true
  /\ matches Sample.world f Sample.small = Py.Ok false.
Proof.
  intros f. split; [reflexivity|].
  destruct (excluded_path_refuses_everything_below_it Sample.world f Sample.small
              (mkPath true ["data"%string]) (mkPath true ["data"%string]) Sample.small)
    as (Hex & _).
  - apply list_elem_of_In. left. reflexivity.
  - reflexivity.
  - reflexivity.
  - apply Hex. split; [reflexivity|]. exists ["small.pdf"%string]. reflexivity.
Defined.

(** X27.  [filter_files] composes: the answer for a concatenation is
    the concatenation of the answers, every path of the answer is
    accepted by [matches], and filtering the answer once more with the
    same filter gives the answer again. *)
Theorem filter_files_is_idempotent (env : Env) (f : FileFilter.t) (ps qs : list Path) :
  exists kept_ps kept_qs,
    filter_files env f ps = Py.Ok kept_ps
    /\ filter_files env f qs = Py.Ok kept_qs
    /\ filter_files env f (ps ++ qs) = Py.Ok (kept_ps ++ kept_qs)
    /\ filter_files env f kept_ps = Py.Ok kept_ps
    /\ Forall (fun p => matches env f p = Py.Ok true) kept_ps
    /\ sublist kept_ps ps.
Proof.
  exists (List.filter (passes env f) ps), (List.filter (passes env f) qs).
  rewrite !filter_files_filter.
  split; [reflexivity|]. split; [reflexivity|].
  split; [rewrite List.filter_app; reflexivity|].
  assert (Hall : Forall (fun p => passes env f p = true) (List.filter (passes env f) ps)).
  { apply Forall_forall. intros p Hp. apply list_elem_of_In, List.filter_In in Hp.
    apply Hp. }
  split; [|split].
  - f_equal. induction Hall as [|p l Hp _ IH]; [reflexivity|].
    simpl. rewrite Hp, IH. reflexivity.
  - eapply Forall_impl; [exact Hall|]. intros p Hp. rewrite matches_passes, Hp. reflexivity.
  - clear Hall. induction ps as [|p ps IH]; [constructor|].
    simpl. destruct (passes env f p); [apply sublist_skip|apply sublist_cons]; exact IH.
Qed.

End filter_more_claims.

Module add_files_more_claims.
Import BatchProcessor FilterSpec.

(** X28.  [add_files] returns only when no path is left after the
    filtering: the list it returns is then empty and the processor is as
    it was.  It never returns a task. *)
Theorem add_files_returns_no_task
    (env : Env) (clock : nat -> Z * Z) (ps : list Path) (dir : option Path)
    (flt : option FileFilter.t) (prio : TaskPriority) (s s' : t) (created : list nat) :
  add_files env clock ps dir flt prio s = Py.Ok (s', created)
  <-> survivors env flt ps = [] /\ s' = s /\ created = [].
Proof.
  assert (E : add_files env clock ps dir flt prio s
              = add_files_loop env clock 0 (survivors env flt ps) dir prio [] s).
  { unfold add_files, survivors. destruct flt as [f|]; [|reflexivity].
    rewrite filter_facts.filter_files_filter. reflexivity. }
  rewrite E. destruct (survivors env flt ps) as [|p rest].
  - cbn [add_files_loop]. split.
    + intros [= <- <-]. repeat split.
    + intros (_ & -> & ->). reflexivity.
  - split; [|intros ([=] & _)].
    intros H.
    destruct (add_files_claims.add_files_loop_first env clock 0 p rest dir prio [] s)
      as (e & He & _).
    rewrite He in H. discriminate.
Qed.

(** A filter that refuses every file of the list *)
Lemma add_files_returns_no_task_witness :
  add_files Sample.world (fun _ => (1700000000000000, 1700000000000100))
    [Sample.small; Sample.large] None (Some Sample.size_filter) NORMAL Runs.fresh_processor
  = Py.Ok (Runs.fresh_processor, []).
Proof.
  apply (add_files_returns_no_task Sample.world
           (fun _ => (1700000000000000, 1700000000000100))
           [Sample.small; Sample.large] None (Some Sample.size_filter) NORMAL
           Runs.fresh_processor Runs.fresh_processor []).
  split; [reflexivity|]. split; reflexivity.
Defined.

End add_files_more_claims.
